(** * SimplePlayback: the player of [player.h], the network reader of
    [networkReader.h] and [main], embedded shallowly, with the properties of
    the playback specification that hold of them and further properties of
    the code.

    Conventions of the embedding.
    - [char] is the signed 8-bit type of the x86-64 System V ABI, a [Z] in
      [-128, 127]; [int16_t], [int] and [size_t] are [Z] with the
      wrap-around of each conversion written out ([to_char], [to_int16],
      [to_int], [to_size_t]).
    - [double] is Rocq's primitive binary64 [float]; the arithmetic of
      [setMixingLevel] and of the mixing loops is IEEE 754 arithmetic.
    - What the code obtains from outside (the files, the clock, the content
      of freshly allocated arrays, the delay the rate profile imposes) is
      read from an environment [Env], indexed by a world counter.
    - Calls on the output streams, on [std::cerr]/[std::cout] and
      [sleep_for] are recorded, in program order, in a trace of [Event]s.
      An event of a stream is the call made on it: the player keeps no
      state of its two [ofstream]s. What a call hands over reaches the file
      when the stream is open and has not failed, as it is from the one
      [open()] of [main] to its [close()]; a [close()] that finds a failed
      stream, and what [open()] does to streams that are open already, are
      outside the embedding.
    - The two input files are loaded as [init()] and [initWaveform()] load
      a file of an even number of bytes below 2 GiB: [int length] holds the
      size, and [length / 2] samples take all of its bytes. The properties
      of what is loaded carry both conditions.
    - The rate profile of the network reader is embedded on its own, with
      [cos] of the C library and the random draws as parameters; [read]
      takes the delay it computes from the environment. *)

From Stdlib Require Import String ZArith List Lia Bool Arith Sorted.
From Stdlib Require Import Floats.
Import ListNotations.
Open Scope Z_scope.

(** ** Machine integers *)

Definition to_char (z : Z) : Z := (z + 128) mod 256 - 128.
Definition to_int16 (z : Z) : Z := (z + 32768) mod 65536 - 32768.
Definition to_int (z : Z) : Z := (z + 2147483648) mod 4294967296 - 2147483648.
Definition to_size_t (z : Z) : Z := z mod 18446744073709551616.

(** [sizeof(int16_t)] *)
Definition sizeof_int16 : Z := 2.

(** The two bytes of an [int16_t] in memory (little-endian host), as
    [char]s, and the samples held by a sequence of bytes. *)
Definition bytes_of_sample (s : Z) : list Z := [to_char s; to_char (s / 256)].

Definition bytes_of_samples (l : list Z) : list Z := flat_map bytes_of_sample l.

Fixpoint samples_of_bytes (bs : list Z) : list Z :=
  match bs with
  | lo :: hi :: rest => (lo mod 256 + 256 * to_char hi) :: samples_of_bytes rest
  | _ => []
  end.

(** ** Conversions between [char] and [double] *)

(** [(double) c] for a [char] c. *)
Definition double_of_char (c : Z) : float :=
  if c <? 0 then (- of_uint63 (Uint63.of_Z (- c)))%float
  else of_uint63 (Uint63.of_Z c).

(** The integer part of a [double] (truncation toward zero). A NaN or an
    infinity has none: C++ leaves the conversion undefined, the model
    yields 0 there. *)
Definition trunc_double (x : float) : Z :=
  match Prim2SF x with
  | S754_finite s m e => cond_Zopp s (Z.shiftl (Zpos m) e)
  | _ => 0
  end.

(** [(char) x] for a [double] x. Outside the range of [char] C++ leaves
    the conversion undefined, the model wraps; with gains in [0, 1] the
    products of the mixing loops are within the range. *)
Definition char_of_double (x : float) : Z := to_char (trunc_double x).

(** ** Arrays *)

(** [a[i] = v]; the code never stores outside the array (see
    [mix_length]). *)
Fixpoint store (a : list Z) (i : nat) (v : Z) : list Z :=
  match a, i with
  | [], _ => []
  | _ :: t, O => v :: t
  | h :: t, S j => h :: store t j v
  end.

(** [std::copy_n(src, n, dst)] onto the start of [dst]. *)
Definition copy_onto (src dst : list Z) : list Z :=
  src ++ skipn (length src) dst.

(** ** The environment and the trace *)

Record Env := mkEnv {
  (** the bytes of the file at a path; [None] when it cannot be opened *)
  files : string -> option (list Z);
  (** [StopWatch::elapsed<milliseconds>().count()] at world step [k] *)
  clock_ms : nat -> Z;
  (** the content of the array allocated by [new char[n]] at world step
      [k], at offset [j] *)
  heap : nat -> nat -> Z;
  (** the milliseconds [NetworkReader::read] sleeps at world step [k] for a
      read of the given size: [(int64_t)(1000 * maxReadSize / bps)], [bps]
      being the value of the random transfer rate profile at that time *)
  net_delay : nat -> Z -> Z
}.

(** [new char[n]]: [n] chars of indeterminate value. *)
Definition new_chars (env : Env) (k : nat) (n : Z) : list Z :=
  map (fun j => to_char (heap env k j)) (seq 0 (Z.to_nat n)).

Inductive Event :=
| OpenOut (path : string)             (* the call of [ofstream::open], truncating *)
| OpenIn (path : string)              (* [ifstream] constructor *)
| StatsLine (elapsed samples : Z)     (* one line put into [stats], flushed *)
| SinkWrite (bytes : list Z)          (* [sink.write] and [sink.flush] *)
| Sleep (ms : Z)                      (* [std::this_thread::sleep_for] *)
| Cerr (msg : string)
| Cout (msg : string)
| CloseSink
| CloseStats.

(** A call either returns, or ends the process through [exit]. *)
Inductive Outcome (A : Type) :=
| Returns (a : A) (tr : list Event)
| Exits (code : Z) (tr : list Event).
Arguments Returns {A} a tr.
Arguments Exits {A} code tr.

(** ** [net::NetworkReader] *)

Module NetworkReader.

(** The sample vector and the read cursor. The rate profile, the random
    generator and the clock only decide how long [read] sleeps; they are
    [net_delay] of the environment. *)
Record t := mk { m_saw : list Z; m_sawIndex : Z }.

(** [initWaveform()]: loads the network source, or ends the process. The
    vector is what [resize(length / sizeof(int16_t))] and
    [is.read] of [length] bytes into it leave for a file of an even
    number of bytes below 2 GiB. *)
Definition initWaveform (env : Env) (r : t) : Outcome t :=
  match files env "audio2_s16le_mono_48k.raw" with
  | Some bytes =>
      Returns (mk (samples_of_bytes bytes) (m_sawIndex r))
              [OpenIn "audio2_s16le_mono_48k.raw"]
  | None =>
      Exits 1 [OpenIn "audio2_s16le_mono_48k.raw";
               Cout "NetworkReader: Couldn't open input file!"]
  end.

(** The constructor: [m_sawIndex(0)], then [initWaveform()]. *)
Definition new (env : Env) : Outcome t := initWaveform env (mk [] 0).

(** [read(buf, maxBytes)]: the bytes read, the reader, the buffer and
    the trace. *)
Definition read (env : Env) (k : nat) (r : t) (buf : list Z) (maxBytes : Z)
  : Z * t * list Z * list Event :=
  let blockSize := 8192 * 4 in
  let samplesRemaining :=
    to_size_t (Z.of_nat (length (m_saw r)) - m_sawIndex r) in
  if samplesRemaining =? 0 then (0, r, buf, [])
  else
    let maxReadSize :=
      Z.min (Z.min maxBytes blockSize)
            (to_size_t (samplesRemaining * sizeof_int16)) in
    let dt := net_delay env k maxReadSize in
    let nSamples := maxReadSize / sizeof_int16 in
    let copied :=
      firstn (Z.to_nat nSamples) (skipn (Z.to_nat (m_sawIndex r)) (m_saw r)) in
    (to_size_t (nSamples * sizeof_int16),
     mk (m_saw r) (to_size_t (m_sawIndex r + nSamples)),
     copy_onto (bytes_of_samples copied) buf,
     [Sleep dt]).

End NetworkReader.

(** ** [Player] *)

Module Player.

Record t := mk {
  networkLevel : float;
  playerLevel : float;
  nr : NetworkReader.t;
  playerBuffer : list Z;
  networkBuffer : list Z;
  mix : list Z;
  playerBytes : Z;
  networkBytes : Z;
  writtenSamples : Z;
  m_saw : list Z;
  m_sawIndex : Z;
  timePaused : Z;
  pausedSample : Z;
  paused : bool
}.

(** [setMixingLevel(level)] *)
Definition setMixingLevel (level : float) (p : t) : t :=
  let level := if (level <=? -1)%float then (-1)%float else level in
  let level := if (1 <=? level)%float then 1%float else level in
  mk ((1 - level) / 2)%float ((1 + level) / 2)%float
     (nr p) (playerBuffer p) (networkBuffer p) (mix p)
     (playerBytes p) (networkBytes p) (writtenSamples p)
     (m_saw p) (m_sawIndex p) (timePaused p) (pausedSample p) (paused p).

(** [init()]: loads the file source, or ends the process. The vector is
    what [resize(length / sizeof(int16_t))] and
    [is.read] of [length] bytes into it leave for a file of an even
    number of bytes below 2 GiB. *)
Definition init (env : Env) (p : t) : Outcome t :=
  match files env "audio1_s16le_mono_48k.raw" with
  | Some bytes =>
      Returns
        (mk (networkLevel p) (playerLevel p) (nr p)
            (playerBuffer p) (networkBuffer p) (mix p)
            (playerBytes p) (networkBytes p) (writtenSamples p)
            (samples_of_bytes bytes) (m_sawIndex p)
            (timePaused p) (pausedSample p) (paused p))
        [OpenIn "audio1_s16le_mono_48k.raw"]
  | None =>
      Exits 1 [OpenIn "audio1_s16le_mono_48k.raw";
               Cerr "Player reader: Couldn't open input file!"]
  end.

(** The constructor [Player() : m_sawIndex(0) {}]: the reader member is
    constructed, the vector is empty and the cursor 0; every other member
    keeps the indeterminate value [junk] has for it. *)
Definition new (env : Env) (junk : t) : Outcome t :=
  match NetworkReader.new env with
  | Returns r tr =>
      Returns
        (mk (networkLevel junk) (playerLevel junk) r
            (playerBuffer junk) (networkBuffer junk) (mix junk)
            (playerBytes junk) (networkBytes junk) (writtenSamples junk)
            [] 0 (timePaused junk) (pausedSample junk) (paused junk))
        tr
  | Exits c tr => Exits c tr
  end.

(** [open(networkUrl, filename)], at world step [k]. The two [OpenOut]
    events are the calls [sink.open] and [stats.open]; on a player whose
    streams are closed, as the constructor leaves them, they open the two
    files. *)
Definition open (env : Env) (k : nat) (networkUrl filename : string) (p : t)
  : Outcome t :=
  let sinkFile := "audio_output.raw"%string in
  let statsFile := "realtime_stats.txt"%string in
  let samples := 72 in
  let networkBytes' := to_size_t (samples * sizeof_int16) in
  let networkBuffer' := new_chars env k networkBytes' in
  let playerBytes' := to_size_t (samples * sizeof_int16) in
  let playerBuffer' := new_chars env (S k) playerBytes' in
  let p1 :=
    mk (networkLevel p) (playerLevel p) (nr p)
       playerBuffer' networkBuffer' (mix p)
       playerBytes' networkBytes' (writtenSamples p)
       (m_saw p) (m_sawIndex p) (timePaused p) (pausedSample p) (paused p) in
  match init env p1 with
  | Returns p2 tr =>
      Returns (setMixingLevel 0 p2) (OpenOut sinkFile :: OpenOut statsFile :: tr)
  | Exits c tr => Exits c (OpenOut sinkFile :: OpenOut statsFile :: tr)
  end.

(** [close()]: the calls [sink.close()] and [stats.close()]. After them
    [!sink] and [!stats] are false for streams that [open()] opened and
    that have not failed, and nothing is printed; that is the case
    embedded. *)
Definition close (p : t) : t * list Event := (p, [CloseSink; CloseStats]).

(** [pause()], at world step [k]. *)
Definition pause (env : Env) (k : nat) (p : t) : t :=
  mk (networkLevel p) (playerLevel p) (nr p)
     (playerBuffer p) (networkBuffer p) (mix p)
     (playerBytes p) (networkBytes p) (writtenSamples p)
     (m_saw p) (m_sawIndex p)
     (clock_ms env k) (writtenSamples p) true.

(** [read(buf, maxBytes)] on the file source: the bytes read, the player
    (its cursor moved) and the buffer. *)
Definition read (p : t) (buf : list Z) (maxBytes : Z) : Z * t * list Z :=
  let blockSize := 8192 * 4 in
  let samplesRemaining :=
    to_size_t (Z.of_nat (length (m_saw p)) - m_sawIndex p) in
  if samplesRemaining =? 0 then (0, p, buf)
  else
    let maxReadSize :=
      Z.min (Z.min maxBytes blockSize)
            (to_size_t (samplesRemaining * sizeof_int16)) in
    let nSamples := maxReadSize / sizeof_int16 in
    let copied :=
      firstn (Z.to_nat nSamples) (skipn (Z.to_nat (m_sawIndex p)) (m_saw p)) in
    (to_size_t (nSamples * sizeof_int16),
     mk (networkLevel p) (playerLevel p) (nr p)
        (playerBuffer p) (networkBuffer p) (mix p)
        (playerBytes p) (networkBytes p) (writtenSamples p)
        (m_saw p) (to_size_t (m_sawIndex p + nSamples))
        (timePaused p) (pausedSample p) (paused p),
     copy_onto (bytes_of_samples copied) buf).

(** The first mixing loop, [count] iterations from index [i] and output
    position [pos]:
    [bit = level * (double) buf[i]; mix[pos++] = (char) bit; mix[pos++] = (char) bit]. *)
Fixpoint mix_assign (level : float) (buf : list Z) (count i pos : nat)
         (mix : list Z) : list Z :=
  match count with
  | O => mix
  | S c =>
      let bit := (level * double_of_char (nth i buf 0%Z))%float in
      let mix := store mix pos (char_of_double bit) in
      let pos := S pos in
      let mix := store mix pos (char_of_double bit) in
      let pos := S pos in
      mix_assign level buf c (S i) pos mix
  end.

(** The second mixing loop:
    [bit = level * (double) buf[i]; mix[pos++] += (char) bit; mix[pos++] += (char) bit]. *)
Fixpoint mix_add (level : float) (buf : list Z) (count i pos : nat)
         (mix : list Z) : list Z :=
  match count with
  | O => mix
  | S c =>
      let bit := (level * double_of_char (nth i buf 0%Z))%float in
      let mix := store mix pos (to_char (nth pos mix 0 + char_of_double bit)) in
      let pos := S pos in
      let mix := store mix pos (to_char (nth pos mix 0 + char_of_double bit)) in
      let pos := S pos in
      mix_add level buf c (S i) pos mix
  end.

(** The size of the mixing buffer, [2 * (networkRead + playerRead)]. *)
Definition mix_length (networkRead playerRead : Z) : Z :=
  to_size_t (2 * to_size_t (networkRead + playerRead)).

(** One pass through the body of [play()], at world step [k], up to the
    test that ends it: the player, the trace, and whether both reads
    returned 0. *)
Definition cycle (env : Env) (k : nat) (p : t) : t * list Event * bool :=
  let paused' := false in
  let '(networkRead, nr', networkBuffer', trn) :=
    NetworkReader.read env k (nr p) (networkBuffer p) (networkBytes p) in
  let '(playerRead, p1, playerBuffer') :=
    read p (playerBuffer p) (playerBytes p) in
  let mix0 := new_chars env k (mix_length networkRead playerRead) in
  let writtenSamples' :=
    to_int (writtenSamples p1
            + to_int16 (to_size_t (playerRead / sizeof_int16
                                   + networkRead / sizeof_int16))) in
  let mix1 :=
    mix_assign (networkLevel p1) networkBuffer' (Z.to_nat networkRead) 0 0 mix0 in
  let mix2 :=
    mix_add (playerLevel p1) playerBuffer' (Z.to_nat playerRead) 0 0 mix1 in
  (mk (networkLevel p1) (playerLevel p1) nr'
      playerBuffer' networkBuffer' mix2
      (playerBytes p1) (networkBytes p1) writtenSamples'
      (m_saw p1) (m_sawIndex p1) (timePaused p1) (pausedSample p1) paused',
   trn ++ [StatsLine (clock_ms env k) writtenSamples'; SinkWrite mix2],
   (playerRead =? 0) && (networkRead =? 0)).

(** [play()]: the body, then [return] when both reads returned 0, the
    recursive call when [!paused]. [fuel] bounds the depth of the
    recursion; [None] when it is used up. *)
Fixpoint play_loop (fuel : nat) (env : Env) (k : nat) (p : t)
  : option (t * nat * list Event) :=
  match fuel with
  | O => None
  | S fuel' =>
      let '(p', tr, eos) := cycle env k p in
      if eos then Some (p', S k, tr)
      else if negb (paused p') then
        match play_loop fuel' env (S k) p' with
        | Some (p'', k'', tr'') => Some (p'', k'', tr ++ tr'')
        | None => None
        end
      else Some (p', S k, tr)
  end.

(** The samples neither source has delivered yet. *)
Definition remaining (p : t) : nat :=
  Z.to_nat (Z.of_nat (length (m_saw p)) - m_sawIndex p)
  + Z.to_nat (Z.of_nat (length (NetworkReader.m_saw (nr p)))
              - NetworkReader.m_sawIndex (nr p)).

Definition play (env : Env) (k : nat) (p : t) : option (t * nat * list Event) :=
  play_loop (S (remaining p)) env k p.

End Player.

(** ** Observations *)

(** What the output sink and the stats sink receive in a trace. *)
Definition sink_bytes (tr : list Event) : list Z :=
  flat_map (fun e => match e with SinkWrite b => b | _ => [] end) tr.

Definition stats_records (tr : list Event) : list (Z * Z) :=
  flat_map (fun e => match e with StatsLine t n => [(t, n)] | _ => [] end) tr.

(** The paths a trace passes to [ofstream::open] and to the constructor
    of [ifstream], in order. *)
Definition opened_files (tr : list Event) : list string :=
  flat_map (fun e => match e with OpenOut f | OpenIn f => [f] | _ => [] end) tr.

(** The output file as the specification describes it, interleaved signed
    16-bit little-endian stereo: frame [i] is the four bytes from [4 i],
    the left channel first. *)
Definition s16le (lo hi : Z) : Z := lo mod 256 + 256 * to_char hi.

Definition frame (out : list Z) (i : nat) : Z * Z :=
  (s16le (nth (4 * i) out 0) (nth (4 * i + 1) out 0),
   s16le (nth (4 * i + 2) out 0) (nth (4 * i + 3) out 0)).

(** The bytes each source hands over in the pass of [play()] that starts
    in [p]: what its [read] returned, taken from the start of its
    buffer. *)
Definition network_delivery (env : Env) (k : nat) (p : Player.t) : list Z :=
  let '(n, _, buf, _) :=
    NetworkReader.read env k (Player.nr p) (Player.networkBuffer p)
                       (Player.networkBytes p) in
  firstn (Z.to_nat n) buf.

Definition player_delivery (p : Player.t) : list Z :=
  let '(n, _, buf) :=
    Player.read p (Player.playerBuffer p) (Player.playerBytes p) in
  firstn (Z.to_nat n) buf.

(** A session: passes of [play()] with calls of [pause()],
    [setMixingLevel()] and [close()] between them, one world step each. *)
Inductive Step :=
| DoCycle
| DoPause
| DoSetLevel (level : float)
| DoClose.

Definition step (env : Env) (k : nat) (s : Step) (p : Player.t) : Player.t :=
  match s with
  | DoCycle => fst (fst (Player.cycle env k p))
  | DoPause => Player.pause env k p
  | DoSetLevel level => Player.setMixingLevel level p
  | DoClose => fst (Player.close p)
  end.

(** The player after a session, with all the bytes the network source and
    the file source handed over during it. *)
Fixpoint session (env : Env) (k : nat) (steps : list Step) (p : Player.t)
  : Player.t * list Z * list Z :=
  match steps with
  | [] => (p, [], [])
  | s :: rest =>
      let '(p', dn, dl) := session env (S k) rest (step env k s p) in
      match s with
      | DoCycle => (p', network_delivery env k p ++ dn, player_delivery p ++ dl)
      | _ => (p', dn, dl)
      end
  end.

(** The byte counts successive [read]s return, for a list of requests
    (buffer and [maxBytes]). *)
Fixpoint Player_reads (p : Player.t) (reqs : list (list Z * Z)) : list Z :=
  match reqs with
  | [] => []
  | (buf, maxBytes) :: rest =>
      let '(n, p', _) := Player.read p buf maxBytes in
      n :: Player_reads p' rest
  end.

Fixpoint NetworkReader_reads (env : Env) (k : nat) (r : NetworkReader.t)
         (reqs : list (list Z * Z)) : list Z :=
  match reqs with
  | [] => []
  | (buf, maxBytes) :: rest =>
      let '(n, r', _, _) := NetworkReader.read env k r buf maxBytes in
      n :: NetworkReader_reads env (S k) r' rest
  end.

Definition trace_of {A : Type} (o : Outcome A) : list Event :=
  match o with
  | Returns _ tr => tr
  | Exits _ tr => tr
  end.

(** ** Well-formed states *)

(** A sample vector and a cursor into it, as both readers keep them: the
    cursor is within the vector, and the vector is one that fits in
    memory. *)
Definition cursor_ok (saw : list Z) (idx : Z) : Prop :=
  0 <= idx <= Z.of_nat (length saw) /\ Z.of_nat (length saw) < 2 ^ 62.

(** The samples a read of at most [maxBytes] bytes takes. *)
Definition take (saw : list Z) (idx maxBytes : Z) : Z :=
  Z.min (Z.min maxBytes 32768 / 2) (Z.of_nat (length saw) - idx).

Definition chunk (saw : list Z) (idx n : Z) : list Z :=
  firstn (Z.to_nat n) (skipn (Z.to_nat idx) saw).

Definition is_int16 (s : Z) : Prop := -32768 <= s < 32768.
Definition is_char (c : Z) : Prop := -128 <= c < 128.

(** The state in which every claim about a pass of [play()] is stated:
    both cursors within their vectors, the requested sizes those of
    [size_t] values. *)
Definition player_ok (p : Player.t) : Prop :=
  cursor_ok (Player.m_saw p) (Player.m_sawIndex p)
  /\ cursor_ok (NetworkReader.m_saw (Player.nr p))
               (NetworkReader.m_sawIndex (Player.nr p))
  /\ 0 <= Player.playerBytes p
  /\ 0 <= Player.networkBytes p.

(** What [writtenSamples] needs for its arithmetic to stay within [int]
    and [int16_t]: requested sizes as [open] sets them (or any below 64 KiB
    together), and a counter that the samples still to come do not carry
    past [INT_MAX]. *)
Definition counter_ok (p : Player.t) : Prop :=
  Player.networkBytes p + Player.playerBytes p < 65536
  /\ - 2 ^ 31 <= Player.writtenSamples p
  /\ Player.writtenSamples p + Z.of_nat (Player.remaining p) < 2 ^ 31.


(** ** The quantities of one pass of [play()] *)

(** [(char)(level * (double) buf[i])], the term both loops compute. *)
Definition scaled (level : float) (buf : list Z) (i : nat) : Z :=
  char_of_double (level * double_of_char (nth i buf 0%Z))%float.

(** The samples the pass takes from the network source and from the file
    source, the two buffers after the reads, and the mixing buffer as
    written to the sink. *)
Definition net_take (p : Player.t) : Z :=
  take (NetworkReader.m_saw (Player.nr p)) (NetworkReader.m_sawIndex (Player.nr p))
       (Player.networkBytes p).

Definition file_take (p : Player.t) : Z :=
  take (Player.m_saw p) (Player.m_sawIndex p) (Player.playerBytes p).

Definition net_buf (p : Player.t) : list Z :=
  copy_onto
    (bytes_of_samples
       (chunk (NetworkReader.m_saw (Player.nr p))
              (NetworkReader.m_sawIndex (Player.nr p)) (net_take p)))
    (Player.networkBuffer p).

Definition file_buf (p : Player.t) : list Z :=
  copy_onto
    (bytes_of_samples (chunk (Player.m_saw p) (Player.m_sawIndex p) (file_take p)))
    (Player.playerBuffer p).

Definition cycle_mix (env : Env) (k : nat) (p : Player.t) : list Z :=
  Player.mix_add (Player.playerLevel p) (file_buf p) (Z.to_nat (2 * file_take p)) 0 0
    (Player.mix_assign (Player.networkLevel p) (net_buf p)
       (Z.to_nat (2 * net_take p)) 0 0
       (new_chars env k (Player.mix_length (2 * net_take p) (2 * file_take p)))).

Definition cycle_written (p : Player.t) : Z :=
  to_int (Player.writtenSamples p
          + to_int16 (to_size_t (2 * file_take p / sizeof_int16
                                 + 2 * net_take p / sizeof_int16))).

(** The bytes the two reads of the pass that starts in [p] return. *)
Definition network_read_bytes (env : Env) (k : nat) (p : Player.t) : Z :=
  fst (fst (fst (NetworkReader.read env k (Player.nr p) (Player.networkBuffer p)
                                    (Player.networkBytes p)))).

Definition player_read_bytes (p : Player.t) : Z :=
  fst (fst (Player.read p (Player.playerBuffer p) (Player.playerBytes p))).

(** ** Binary64 numbers *)

(** Rounding to nearest, ties to even, of [x / 2 ^ n]. *)
Definition rne (x n : Z) : Z :=
  let q := x / 2 ^ n in
  let r := x mod 2 ^ n in
  if 2 * r <? 2 ^ n then q
  else if 2 * r =? 2 ^ n then (if Z.even q then q else q + 1)
  else q + 1.

Definition nearest_even (P x y : Z) : Prop :=
  - P <= 2 * x - 2 * y * P <= P
  /\ (2 * x - 2 * y * P = P \/ 2 * x - 2 * y * P = - P -> Z.even y = true).

(** What the round and sticky bits of a shift record say of the bits
    shifted out, [rem] of [P]. *)
Definition flags_ok (r s : bool) (rem P : Z) : Prop :=
  match r, s with
  | false, false => rem = 0
  | false, true => 0 < 2 * rem < P
  | true, false => 2 * rem = P
  | true, true => P < 2 * rem
  end.

Definition sf_two : spec_float := S754_finite false 4503599627370496 (-51).

Definition sf_one : spec_float := S754_finite false 4503599627370496 (-52).

Definition sf_mone : spec_float := S754_finite true 4503599627370496 (-52).

(** The value of [level] in [setMixingLevel] after its two assignments. *)
Definition clamped (level : float) : float :=
  let level := if (level <=? -1)%float then (-1)%float else level in
  let level := if (1 <=? level)%float then 1%float else level in
  level.

(** ** Examples *)

(** An environment with the two input files, a clock that advances one
    millisecond per world step, fresh arrays filled with 85, and a network
    that delays each read by one millisecond. *)
Definition example_env (file network : option (list Z)) : Env :=
  mkEnv (fun path =>
           if String.eqb path "audio1_s16le_mono_48k.raw" then file
           else if String.eqb path "audio2_s16le_mono_48k.raw" then network
           else None)
        (fun k => Z.of_nat k)
        (fun _ _ => 85)
        (fun _ _ => 1).

(** Indeterminate members, here all zero. *)
Definition blank : Player.t :=
  Player.mk 0 0 (NetworkReader.mk [] 0) [] [] [] 0 0 0 [] 0 0 0 false.

(** [Player pl; pl.open(networkUrl, filename);] as [main] does, the
    constructor and [open] in sequence (world steps 0 and 1 go to the two
    buffers [open] allocates). *)
Definition boot (env : Env) (networkUrl filename : string) (junk : Player.t)
  : Outcome Player.t :=
  match Player.new env junk with
  | Returns p tr =>
      match Player.open env 0 networkUrl filename p with
      | Returns p' tr' => Returns p' (tr ++ tr')
      | Exits c tr' => Exits c (tr ++ tr')
      end
  | Exits c tr => Exits c tr
  end.

Definition booted (env : Env) : Player.t :=
  match boot env "audio2_s16le_mono_48k.raw" "audio1_s16le_mono_48k.raw" blank with
  | Returns p _ => p
  | Exits _ _ => blank
  end.

(** Both sources hold the one sample 512 (bytes 0, 2). *)
Definition env_512 : Env := example_env (Some [0; 2]) (Some [0; 2]).
Definition player_512 : Player.t := Eval vm_compute in booted env_512.

(** The network source holds 10 samples, the file source 6. *)
Definition env_10_6 : Env :=
  example_env (Some [1; 0; 2; 0; 3; 0; 4; 0; 5; 0; 6; 0])
              (Some [10; 0; 20; 0; 30; 0; 40; 0; 50; 0; 60; 0; 70; 0; 80; 0; 90; 0; 100; 0]).
Definition player_10_6 : Player.t := Eval vm_compute in booted env_10_6.

(** The file source is missing. *)
Definition env_no_file : Env := example_env None (Some [0; 2]).

(** The network source is missing. *)
Definition env_no_network : Env := example_env (Some [0; 2]) None.

(** What the constructor leaves of [blank], before [open()]. *)
Definition new_512 : Player.t := Eval vm_compute in
  match Player.new env_512 blank with
  | Returns p _ => p
  | Exits _ _ => blank
  end.

(** [player_512] after the run of [play()] that starts at world step 2. *)
Definition played_512 : Player.t := Eval vm_compute in
  match Player.play env_512 2 player_512 with
  | Some (p, _, _) => p
  | None => blank
  end.

(** ** The transfer rate profile of [net::NetworkReader] *)

(** [(double) n] for an [int64_t], or a [size_t], of magnitude below
    [2 ^ 63]. *)
Definition double_of_int64 (z : Z) : float :=
  if z <? 0 then (- of_uint63 (Uint63.of_Z (- z)))%float
  else of_uint63 (Uint63.of_Z z).

(** [M_PI] of [<cmath>], the double nearest to pi. *)
Definition M_PI : float := 0x1.921fb54442d18p+1%float.

(** [m_maxTime = std::chrono::seconds(100)], in milliseconds. *)
Definition m_maxTime : Z := 100 * 1000.

Section RateProfile.

(** [cos] of the C library, and the values [dis(m_gen)] returns, in the
    order they are drawn. *)
Variable cos : float -> float.
Variable dis : nat -> float.

Definition cosineInterpolate (y1 y2 mu : float) : float :=
  let mu2 := ((1 - cos (mu * M_PI)) / 2)%float in
  (y1 * (1 - mu2) + y2 * mu2)%float.

(** [initProfileCurve(maxTime)]: [m_profile] after [resize] and
    [generate_n]. *)
Definition initProfileCurve (maxTime : Z) : list float :=
  map dis (seq 0 (Z.to_nat (Z.quot maxTime 1000))).

(** [getProfileValueAt(time)]; [None] where [m_profile[sec]] or
    [m_profile[sec + 1]] is not an element of the vector. *)
Definition getProfileValueAt (m_profile : list float) (time : Z) : option float :=
  let t := Z.rem time m_maxTime in
  let sec := Z.quot t 1000 in
  if sec <? 0 then Some 0%float
  else
    let dx := (double_of_int64 time / 1000 - double_of_int64 sec)%float in
    match nth_error m_profile (Z.to_nat sec),
          nth_error m_profile (Z.to_nat (sec + 1)) with
    | Some y1, Some y2 => Some (cosineInterpolate y1 y2 dx)
    | _, _ => None
    end.

(** [NetworkReader::read] with the first two statements of its body, the
    clock reading and the profile lookup, and the delay computed from them:
    [dt = (int64_t)(1000 * maxReadSize / bps)]. *)
Definition timed_read (m_profile : list float) (env : Env) (k : nat)
           (r : NetworkReader.t) (buf : list Z) (maxBytes : Z)
  : option (Z * NetworkReader.t * list Z * list Event) :=
  let t := clock_ms env k in
  match getProfileValueAt m_profile t with
  | None => None
  | Some bps =>
      let dt maxReadSize :=
        trunc_double (double_of_int64 (to_size_t (1000 * maxReadSize)) / bps) in
      Some (NetworkReader.read
              (mkEnv (files env) (clock_ms env) (heap env) (fun _ => dt))
              k r buf maxBytes)
  end.

End RateProfile.

(** ** [main] *)

(** [main()] of [main.cpp]: the exit status and the trace; [None] when a
    call of [play()] does not return. World steps 0 and 1 go to the two
    arrays [open()] allocates. *)
Definition main (env : Env) (junk : Player.t) : option (Outcome Z) :=
  let networkFile := "audio2_s16le_mono_48k.raw"%string in
  let playerFile := "audio1_s16le_mono_48k.raw"%string in
  match Player.new env junk with
  | Exits c tr => Some (Exits c tr)
  | Returns pl tr0 =>
      match Player.open env 0 networkFile playerFile pl with
      | Exits c tr1 => Some (Exits c (tr0 ++ tr1))
      | Returns pl tr1 =>
          (* [-0.4], the double nearest to it *)
          let pl := Player.setMixingLevel (-0x1.999999999999ap-2) pl in
          match Player.play env 2 pl with
          | None => None
          | Some (pl, k, tr2) =>
              let pl := Player.pause env k pl in
              match Player.play env (S k) pl with
              | None => None
              | Some (pl, k', tr3) =>
                  let '(pl, tr4) := Player.close pl in
                  Some (Returns 0 (tr0 ++ tr1 ++ tr2 ++ [Sleep 3000; Sleep 10000]
                                   ++ tr3 ++ tr4))
              end
          end
      end
  end.

(** ** Quantities of a run of [play()] *)

(** [p] with the three members [pause()] assigns. *)
Definition with_pause (t n : Z) (b : bool) (p : Player.t) : Player.t :=
  Player.mk (Player.networkLevel p) (Player.playerLevel p) (Player.nr p)
            (Player.playerBuffer p) (Player.networkBuffer p) (Player.mix p)
            (Player.playerBytes p) (Player.networkBytes p) (Player.writtenSamples p)
            (Player.m_saw p) (Player.m_sawIndex p) t n b.

(** The samples of the source that has more of them left. *)
Definition longest (p : Player.t) : Z :=
  Z.max (Z.of_nat (length (Player.m_saw p)) - Player.m_sawIndex p)
        (Z.of_nat (length (NetworkReader.m_saw (Player.nr p)))
         - NetworkReader.m_sawIndex (Player.nr p)).

(** The passes a run makes when each read is asked for 72 samples, as
    [open()] has it: one for every 72 samples of the longer source, begun
    or full, and the one that finds both sources at their end. *)
Definition passes (p : Player.t) : nat := Z.to_nat ((longest p + 71) / 72 + 1).

(** ** The terms of the mixing loops *)

(** The integer part of [bit = level * (double) b], the number both mixing
    loops convert to [char]. *)
Definition mix_term (level : float) (b : Z) : Z :=
  trunc_double (level * double_of_char b).

(** What the two loops leave at a position for which the network buffer
    holds the byte [bn] and the file buffer the byte [bf]:
    [(char)(networkLevel * bn)], then [+= (char)(playerLevel * bf)]. *)
Definition mixed (networkLevel playerLevel : float) (bn bf : Z) : Z :=
  to_char (char_of_double (networkLevel * double_of_char bn)
           + char_of_double (playerLevel * double_of_char bf)).

(** * Properties *)

(** Linear arithmetic with divisions by constants, and with a power of two
    taken as an unknown. *)
Ltac div_lia := Z.div_mod_to_equations; lia.

Ltac hide_pow e := let P := fresh "P" in set (P := 2 ^ e) in *; clearbody P.

(** ** What [read] computes *)

Lemma to_size_t_small z : 0 <= z < 2 ^ 64 -> to_size_t z = z.
Proof. intros H. unfold to_size_t. apply Z.mod_small. exact H. Qed.

Lemma to_char_small z : is_char z -> to_char z = z.
Proof.
  unfold is_char, to_char. intros H.
  rewrite Z.mod_small by lia. lia.
Qed.

Lemma to_char_range z : is_char (to_char z).
Proof.
  unfold is_char, to_char.
  pose proof (Z.mod_pos_bound (z + 128) 256 eq_refl). lia.
Qed.

Lemma to_int16_small z : is_int16 z -> to_int16 z = z.
Proof.
  unfold is_int16, to_int16. intros H.
  rewrite Z.mod_small by lia. lia.
Qed.

Lemma to_int_small z : - 2 ^ 31 <= z < 2 ^ 31 -> to_int z = z.
Proof.
  unfold to_int. intros H.
  rewrite Z.mod_small by lia. lia.
Qed.

Lemma take_bounds saw idx maxBytes :
  cursor_ok saw idx -> 0 <= maxBytes ->
  0 <= take saw idx maxBytes <= Z.of_nat (length saw) - idx
  /\ take saw idx maxBytes <= 16384
  /\ 2 * take saw idx maxBytes <= maxBytes.
Proof.
  unfold cursor_ok, take. intros [Hi Hl] Hm.
  assert (0 <= Z.min maxBytes 32768 / 2 <= 16384
          /\ 2 * (Z.min maxBytes 32768 / 2) <= maxBytes).
  { div_lia. }
  lia.
Qed.

Lemma take_zero_iff saw idx maxBytes :
  cursor_ok saw idx -> 2 <= maxBytes ->
  (take saw idx maxBytes = 0 <-> idx = Z.of_nat (length saw)).
Proof.
  unfold cursor_ok, take. intros [Hi Hl] Hm.
  assert (1 <= Z.min maxBytes 32768 / 2) by div_lia.
  lia.
Qed.

(** The arithmetic shared by the two [read]s: under [cursor_ok] no
    [size_t] operation wraps. *)
Lemma read_arith saw idx maxBytes :
  cursor_ok saw idx -> 0 <= maxBytes ->
  let samplesRemaining := to_size_t (Z.of_nat (length saw) - idx) in
  let maxReadSize :=
    Z.min (Z.min maxBytes (8192 * 4)) (to_size_t (samplesRemaining * sizeof_int16)) in
  let nSamples := maxReadSize / sizeof_int16 in
  samplesRemaining = Z.of_nat (length saw) - idx
  /\ nSamples = take saw idx maxBytes
  /\ to_size_t (nSamples * sizeof_int16) = 2 * take saw idx maxBytes
  /\ to_size_t (idx + nSamples) = idx + take saw idx maxBytes.
Proof.
  intros Hc Hm. pose proof (take_bounds saw idx maxBytes Hc Hm) as Hb.
  destruct Hc as [Hi Hl]. cbv zeta.
  assert (E1 : to_size_t (Z.of_nat (length saw) - idx) = Z.of_nat (length saw) - idx).
  { apply to_size_t_small. change (2 ^ 64) with (4 * 2 ^ 62). lia. }
  rewrite E1. unfold sizeof_int16.
  assert (E2 : to_size_t ((Z.of_nat (length saw) - idx) * 2)
               = (Z.of_nat (length saw) - idx) * 2).
  { apply to_size_t_small. change (2 ^ 64) with (4 * 2 ^ 62). lia. }
  rewrite E2.
  assert (E3 : Z.min (Z.min maxBytes (8192 * 4)) ((Z.of_nat (length saw) - idx) * 2) / 2
               = take saw idx maxBytes).
  { unfold take. change (8192 * 4) with 32768.
    div_lia. }
  rewrite E3. repeat split.
  - rewrite to_size_t_small; [ lia | change (2 ^ 64) with (4 * 2 ^ 62); lia ].
  - apply to_size_t_small. change (2 ^ 64) with (4 * 2 ^ 62). lia.
Qed.

Lemma chunk_zero saw idx : chunk saw idx 0 = [].
Proof. reflexivity. Qed.

(** [Player::read] in closed form. *)
Lemma Player_read_spec p buf maxBytes :
  cursor_ok (Player.m_saw p) (Player.m_sawIndex p) -> 0 <= maxBytes ->
  Player.read p buf maxBytes
  = (2 * take (Player.m_saw p) (Player.m_sawIndex p) maxBytes,
     Player.mk (Player.networkLevel p) (Player.playerLevel p) (Player.nr p)
       (Player.playerBuffer p) (Player.networkBuffer p) (Player.mix p)
       (Player.playerBytes p) (Player.networkBytes p) (Player.writtenSamples p)
       (Player.m_saw p)
       (Player.m_sawIndex p + take (Player.m_saw p) (Player.m_sawIndex p) maxBytes)
       (Player.timePaused p) (Player.pausedSample p) (Player.paused p),
     copy_onto
       (bytes_of_samples
          (chunk (Player.m_saw p) (Player.m_sawIndex p)
                 (take (Player.m_saw p) (Player.m_sawIndex p) maxBytes))) buf).
Proof.
  intros Hc Hm.
  destruct (read_arith _ _ _ Hc Hm) as (E1 & E2 & E3 & E4).
  pose proof (take_bounds _ _ _ Hc Hm) as Hb.
  unfold Player.read.
  destruct (Z.eqb_spec
              (to_size_t (Z.of_nat (length (Player.m_saw p)) - Player.m_sawIndex p)) 0)
    as [Hz | Hz].
  - rewrite E1 in Hz.
    assert (Ht : take (Player.m_saw p) (Player.m_sawIndex p) maxBytes = 0) by lia.
    rewrite Ht, chunk_zero, Z.add_0_r. destruct p; reflexivity.
  - rewrite E3, E4, E2. reflexivity.
Qed.

(** [NetworkReader::read] in closed form: the same bytes and cursor, and
    a sleep unless the source is exhausted. *)
Lemma NetworkReader_read_spec env k r buf maxBytes :
  cursor_ok (NetworkReader.m_saw r) (NetworkReader.m_sawIndex r) -> 0 <= maxBytes ->
  exists tr,
    NetworkReader.read env k r buf maxBytes
    = (2 * take (NetworkReader.m_saw r) (NetworkReader.m_sawIndex r) maxBytes,
       NetworkReader.mk
         (NetworkReader.m_saw r)
         (NetworkReader.m_sawIndex r
          + take (NetworkReader.m_saw r) (NetworkReader.m_sawIndex r) maxBytes),
       copy_onto
         (bytes_of_samples
            (chunk (NetworkReader.m_saw r) (NetworkReader.m_sawIndex r)
                   (take (NetworkReader.m_saw r) (NetworkReader.m_sawIndex r) maxBytes)))
         buf,
       tr)
    /\ (tr = [] \/ exists dt, tr = [Sleep dt]).
Proof.
  intros Hc Hm.
  destruct (read_arith _ _ _ Hc Hm) as (E1 & E2 & E3 & E4).
  pose proof (take_bounds _ _ _ Hc Hm) as Hb.
  unfold NetworkReader.read.
  destruct (Z.eqb_spec
              (to_size_t (Z.of_nat (length (NetworkReader.m_saw r))
                          - NetworkReader.m_sawIndex r)) 0) as [Hz | Hz].
  - rewrite E1 in Hz.
    assert (Ht : take (NetworkReader.m_saw r) (NetworkReader.m_sawIndex r) maxBytes = 0)
      by lia.
    rewrite Ht, chunk_zero, Z.add_0_r.
    exists []. split; [ | left; reflexivity ].
    destruct r; reflexivity.
  - rewrite E3, E4, E2.
    eexists. split; [ reflexivity | right; eexists; reflexivity ].
Qed.

(** ** What the mixing loops compute *)

Lemma store_length a i v : length (store a i v) = length a.
Proof.
  revert i. induction a as [ | h t IH ]; intros [ | j ]; simpl; auto.
Qed.

Lemma nth_store_same a i v d : (i < length a)%nat -> nth i (store a i v) d = v.
Proof.
  revert i. induction a as [ | h t IH ]; intros [ | j ] H; simpl in *; try lia; auto.
  apply IH. lia.
Qed.

Lemma nth_store_other a i j v d : j <> i -> nth j (store a i v) d = nth j a d.
Proof.
  revert i j. induction a as [ | h t IH ]; intros [ | i ] [ | j ] H; simpl; auto;
    try congruence.
Qed.

Lemma mix_assign_length level buf count i pos mix :
  length (Player.mix_assign level buf count i pos mix) = length mix.
Proof.
  revert i pos mix. induction count as [ | c IH ]; intros i pos mix; simpl; auto.
  rewrite IH, !store_length. reflexivity.
Qed.

Lemma mix_add_length level buf count i pos mix :
  length (Player.mix_add level buf count i pos mix) = length mix.
Proof.
  revert i pos mix. induction count as [ | c IH ]; intros i pos mix; simpl; auto.
  rewrite IH, !store_length. reflexivity.
Qed.

(** Outside the positions it runs over, a loop leaves the array as it
    was. *)
Lemma mix_assign_outside level buf count i pos mix j :
  (j < pos \/ pos + 2 * count <= j)%nat ->
  nth j (Player.mix_assign level buf count i pos mix) 0 = nth j mix 0.
Proof.
  revert i pos mix. induction count as [ | c IH ]; intros i pos mix H; simpl; auto.
  rewrite IH by lia. rewrite !nth_store_other by lia. reflexivity.
Qed.

Lemma mix_add_outside level buf count i pos mix j :
  (j < pos \/ pos + 2 * count <= j)%nat ->
  nth j (Player.mix_add level buf count i pos mix) 0 = nth j mix 0.
Proof.
  revert i pos mix. induction count as [ | c IH ]; intros i pos mix H; simpl; auto.
  rewrite IH by lia. rewrite !nth_store_other by lia. reflexivity.
Qed.

(** The first loop writes [scaled level buf (i + d)] at the two positions
    [pos + 2d] and [pos + 2d + 1]. *)
Lemma mix_assign_inside level buf count i pos mix d :
  (d < count)%nat -> (pos + 2 * count <= length mix)%nat ->
  nth (pos + 2 * d) (Player.mix_assign level buf count i pos mix) 0
  = scaled level buf (i + d)
  /\ nth (pos + 2 * d + 1) (Player.mix_assign level buf count i pos mix) 0
     = scaled level buf (i + d).
Proof.
  revert i pos mix d. induction count as [ | c IH ]; intros i pos mix d Hd Hl; [ lia | ].
  cbn [Player.mix_assign]. fold (scaled level buf i).
  destruct d as [ | d ].
  - replace (pos + 2 * 0)%nat with pos by lia.
    replace (i + 0)%nat with i by lia.
    rewrite !mix_assign_outside by lia.
    rewrite Nat.add_1_r. rewrite nth_store_same by (rewrite store_length; lia).
    rewrite nth_store_other by lia. rewrite nth_store_same by lia.
    split; reflexivity.
  - replace (pos + 2 * S d)%nat with (S (S pos) + 2 * d)%nat by lia.
    replace (i + S d)%nat with (S i + d)%nat by lia.
    apply IH; [ lia | rewrite !store_length; lia ].
Qed.

(** The second loop adds [scaled level buf (i + d)] to what the two
    positions hold, in [char] arithmetic. *)
Lemma mix_add_inside level buf count i pos mix d :
  (d < count)%nat -> (pos + 2 * count <= length mix)%nat ->
  nth (pos + 2 * d) (Player.mix_add level buf count i pos mix) 0
  = to_char (nth (pos + 2 * d) mix 0 + scaled level buf (i + d))
  /\ nth (pos + 2 * d + 1) (Player.mix_add level buf count i pos mix) 0
     = to_char (nth (pos + 2 * d + 1) mix 0 + scaled level buf (i + d)).
Proof.
  revert i pos mix d. induction count as [ | c IH ]; intros i pos mix d Hd Hl; [ lia | ].
  cbn [Player.mix_add]. fold (scaled level buf i).
  destruct d as [ | d ].
  - replace (pos + 2 * 0)%nat with pos by lia.
    replace (i + 0)%nat with i by lia.
    rewrite !mix_add_outside by lia.
    rewrite Nat.add_1_r. rewrite nth_store_same by (rewrite store_length; lia).
    rewrite nth_store_other by lia. rewrite nth_store_same by lia.
    rewrite (nth_store_other _ pos (S pos)) by lia.
    split; reflexivity.
  - replace (pos + 2 * S d)%nat with (S (S pos) + 2 * d)%nat by lia.
    replace (i + S d)%nat with (S i + d)%nat by lia.
    match goal with
    | |- context [Player.mix_add level buf c (S i) (S (S pos)) ?m] =>
        destruct (IH (S i) (S (S pos)) m d) as [E1 E2];
        [ lia | rewrite !store_length; lia | ]
    end.
    rewrite E1, E2.
    rewrite !nth_store_other by lia. split; reflexivity.
Qed.

Lemma new_chars_length env k n : length (new_chars env k n) = Z.to_nat n.
Proof. unfold new_chars. rewrite length_map, length_seq. reflexivity. Qed.

(** ** One pass of [play()] in closed form *)

Lemma takes_bounds p :
  player_ok p ->
  (0 <= net_take p <= 16384
   /\ net_take p <= Z.of_nat (length (NetworkReader.m_saw (Player.nr p)))
                    - NetworkReader.m_sawIndex (Player.nr p)
   /\ 2 * net_take p <= Player.networkBytes p)
  /\ (0 <= file_take p <= 16384
      /\ file_take p <= Z.of_nat (length (Player.m_saw p)) - Player.m_sawIndex p
      /\ 2 * file_take p <= Player.playerBytes p).
Proof.
  intros (Hf & Hn & Hpb & Hnb). unfold net_take, file_take.
  pose proof (take_bounds _ _ _ Hn Hnb). pose proof (take_bounds _ _ _ Hf Hpb). lia.
Qed.

Lemma cycle_spec env k p :
  player_ok p ->
  exists trn,
    (trn = [] \/ exists dt, trn = [Sleep dt])
    /\ NetworkReader.read env k (Player.nr p) (Player.networkBuffer p)
                          (Player.networkBytes p)
       = (2 * net_take p,
          NetworkReader.mk (NetworkReader.m_saw (Player.nr p))
                           (NetworkReader.m_sawIndex (Player.nr p) + net_take p),
          net_buf p, trn)
    /\ Player.cycle env k p
       = (Player.mk (Player.networkLevel p) (Player.playerLevel p)
            (NetworkReader.mk (NetworkReader.m_saw (Player.nr p))
                              (NetworkReader.m_sawIndex (Player.nr p) + net_take p))
            (file_buf p) (net_buf p) (cycle_mix env k p)
            (Player.playerBytes p) (Player.networkBytes p) (cycle_written p)
            (Player.m_saw p) (Player.m_sawIndex p + file_take p)
            (Player.timePaused p) (Player.pausedSample p) false,
          trn ++ [StatsLine (clock_ms env k) (cycle_written p);
                  SinkWrite (cycle_mix env k p)],
          (2 * file_take p =? 0) && (2 * net_take p =? 0)).
Proof.
  intros (Hf & Hn & Hpb & Hnb).
  destruct (NetworkReader_read_spec env k (Player.nr p) (Player.networkBuffer p)
              (Player.networkBytes p) Hn Hnb) as (trn & En & Htr).
  exists trn. split; [ exact Htr | ]. split; [ exact En | ].
  unfold Player.cycle. rewrite En.
  rewrite (Player_read_spec p (Player.playerBuffer p) (Player.playerBytes p) Hf Hpb).
  reflexivity.
Qed.

Lemma mix_length_small a b :
  0 <= a <= 32768 -> 0 <= b <= 32768 -> Player.mix_length a b = 2 * (a + b).
Proof.
  intros Ha Hb. unfold Player.mix_length.
  rewrite (to_size_t_small (a + b)) by (change (2 ^ 64) with (4 * 2 ^ 62); lia).
  apply to_size_t_small. change (2 ^ 64) with (4 * 2 ^ 62). lia.
Qed.

Lemma cycle_mix_length env k p :
  player_ok p ->
  Z.of_nat (length (cycle_mix env k p)) = 4 * (net_take p + file_take p).
Proof.
  intros Hok. destruct (takes_bounds p Hok) as [Hn Hf].
  unfold cycle_mix. rewrite mix_add_length, mix_assign_length, new_chars_length.
  rewrite mix_length_small by lia. lia.
Qed.

(** The bytes of the mixing buffer, two by two: below the bytes the
    network read returned, the network term [scaled] with, below the bytes
    the file read returned, the file term added. *)
Lemma cycle_mix_nth env k p i :
  player_ok p -> Z.of_nat i < 2 * net_take p ->
  let v :=
    if Z.of_nat i <? 2 * file_take p
    then to_char (scaled (Player.networkLevel p) (net_buf p) i
                  + scaled (Player.playerLevel p) (file_buf p) i)
    else scaled (Player.networkLevel p) (net_buf p) i in
  nth (2 * i) (cycle_mix env k p) 0 = v
  /\ nth (2 * i + 1) (cycle_mix env k p) 0 = v.
Proof.
  intros Hok Hi. destruct (takes_bounds p Hok) as [Hn Hf]. cbv zeta.
  unfold cycle_mix.
  set (m0 := new_chars env k (Player.mix_length (2 * net_take p) (2 * file_take p))).
  assert (Hl0 : length m0 = Z.to_nat (4 * (net_take p + file_take p))).
  { unfold m0. rewrite new_chars_length, mix_length_small by lia. f_equal. lia. }
  set (m1 := Player.mix_assign (Player.networkLevel p) (net_buf p)
               (Z.to_nat (2 * net_take p)) 0 0 m0).
  assert (Hl1 : length m1 = length m0) by apply mix_assign_length.
  destruct (mix_assign_inside (Player.networkLevel p) (net_buf p)
              (Z.to_nat (2 * net_take p)) 0 0 m0 i) as [A1 A2]; [ lia | lia | ].
  fold m1 in A1, A2. cbn [Nat.add] in A1, A2.
  destruct (Z.ltb_spec (Z.of_nat i) (2 * file_take p)) as [Hlt | Hge].
  - destruct (mix_add_inside (Player.playerLevel p) (file_buf p)
                (Z.to_nat (2 * file_take p)) 0 0 m1 i) as [B1 B2]; [ lia | lia | ].
    cbn [Nat.add] in B1, B2.
    rewrite B1, B2, A1, A2. split; reflexivity.
  - rewrite !mix_add_outside by lia. rewrite A1, A2. split; reflexivity.
Qed.

Lemma bytes_of_samples_length l : length (bytes_of_samples l) = (2 * length l)%nat.
Proof.
  induction l as [ | s l IH ]; simpl; [ reflexivity | rewrite IH; lia ].
Qed.

Lemma chunk_length saw idx n :
  0 <= idx -> 0 <= n <= Z.of_nat (length saw) - idx ->
  length (chunk saw idx n) = Z.to_nat n.
Proof.
  intros Hi Hn. unfold chunk. rewrite length_firstn, length_skipn. lia.
Qed.

Lemma firstn_copy_onto src dst : firstn (length src) (copy_onto src dst) = src.
Proof.
  unfold copy_onto. rewrite firstn_app, Nat.sub_diag, firstn_all. simpl.
  apply app_nil_r.
Qed.

Lemma net_buf_firstn p :
  player_ok p ->
  firstn (Z.to_nat (2 * net_take p)) (net_buf p)
  = bytes_of_samples
      (chunk (NetworkReader.m_saw (Player.nr p))
             (NetworkReader.m_sawIndex (Player.nr p)) (net_take p)).
Proof.
  intros Hok. destruct (takes_bounds p Hok) as [Hn _].
  destruct Hok as (_ & [Hi _] & _).
  unfold net_buf.
  replace (Z.to_nat (2 * net_take p))
    with (length (bytes_of_samples
                    (chunk (NetworkReader.m_saw (Player.nr p))
                           (NetworkReader.m_sawIndex (Player.nr p)) (net_take p)))).
  - apply firstn_copy_onto.
  - rewrite bytes_of_samples_length, chunk_length by lia. lia.
Qed.

Lemma file_buf_firstn p :
  player_ok p ->
  firstn (Z.to_nat (2 * file_take p)) (file_buf p)
  = bytes_of_samples (chunk (Player.m_saw p) (Player.m_sawIndex p) (file_take p)).
Proof.
  intros Hok. destruct (takes_bounds p Hok) as [_ Hf].
  destruct Hok as ([Hi _] & _).
  unfold file_buf.
  replace (Z.to_nat (2 * file_take p))
    with (length (bytes_of_samples
                    (chunk (Player.m_saw p) (Player.m_sawIndex p) (file_take p)))).
  - apply firstn_copy_onto.
  - rewrite bytes_of_samples_length, chunk_length by lia. lia.
Qed.

(** The results of the two reads of a pass, whatever names they are
    given. *)
Lemma cycle_reads env k p networkRead nr' nbuf trn playerRead p1 pbuf :
  player_ok p ->
  NetworkReader.read env k (Player.nr p) (Player.networkBuffer p)
                     (Player.networkBytes p) = (networkRead, nr', nbuf, trn) ->
  Player.read p (Player.playerBuffer p) (Player.playerBytes p)
  = (playerRead, p1, pbuf) ->
  networkRead = 2 * net_take p /\ nbuf = net_buf p
  /\ playerRead = 2 * file_take p /\ pbuf = file_buf p
  /\ Player.cycle env k p
     = (fst (fst (Player.cycle env k p)),
        trn ++ [StatsLine (clock_ms env k) (cycle_written p);
                SinkWrite (cycle_mix env k p)],
        (playerRead =? 0) && (networkRead =? 0)).
Proof.
  intros Hok En Ep.
  destruct (cycle_spec env k p Hok) as (trn' & _ & En' & Ec).
  rewrite En in En'. injection En' as E1 E2 E3 E4.
  destruct Hok as (Hf & Hn & Hpb & Hnb).
  rewrite (Player_read_spec p _ _ Hf Hpb) in Ep. injection Ep as P1 P2 P3.
  fold (file_take p) in P1. fold (file_take p) in P3. fold (file_buf p) in P3.
  subst. rewrite Ec. simpl. repeat split; reflexivity.
Qed.

(** ** C1: the frame a pass of [play()] writes for a sample *)

(** C1 (the code departs from the claim, and from what it says of
    itself: [read] documents its samples as S16LE, and the mixing loops
    are commented "compute weighted sum" and "make it stereo"). With both
    sources holding the single sample 512 and both gains 0.5 (level 0),
    the weighted sum of the two samples is 512 and its stereo frame
    (512, 512). The pass mixes the two bytes of the sample separately, each
    product truncated, and writes each mixed byte twice: the sink receives
    the bytes 0, 0, 2, 2, whose frame is (0, 514); its two channels differ,
    so it duplicates no mono value at all. *)
Lemma play_frame_512 :
  Player.networkLevel player_512 = 0.5%float
  /\ Player.playerLevel player_512 = 0.5%float
  /\ NetworkReader.m_saw (Player.nr player_512) = [512]
  /\ Player.m_saw player_512 = [512]
  /\ firstn 4 (sink_bytes (snd (fst (Player.cycle env_512 2 player_512)))) = [0; 0; 2; 2]
  /\ frame (sink_bytes (snd (fst (Player.cycle env_512 2 player_512)))) 0 = (0, 514)
  /\ forall mixed,
       frame (sink_bytes (snd (fst (Player.cycle env_512 2 player_512)))) 0
       <> (mixed, mixed).
Proof.
  assert (E : frame (sink_bytes (snd (fst (Player.cycle env_512 2 player_512)))) 0
              = (0, 514)) by (vm_compute; reflexivity).
  repeat split; try (vm_compute; reflexivity).
  intros mixed H. rewrite E in H. inversion H. lia.
Qed.

(** X19. What a pass writes for each byte read. In a pass of [play()],
    for each byte index [i] below the byte count the network read
    returned, the two bytes the sink receives at [2 i] and [2 i + 1] are
    equal; their value is
    [(char)(networkLevel * networkBuffer[i])] where [i] is at or beyond the
    byte count of the file read, and below it the sum, converted to [char],
    of that term and [(char)(playerLevel * playerBuffer[i])]: each product is
    truncated toward zero on its own, and nothing is rounded or clamped to
    the 16-bit range. The bytes [networkBuffer[i]] and [playerBuffer[i]] are
    the bytes of the samples just read, in order. *)
Theorem cycle_output_bytes env k p networkRead nr' nbuf trn playerRead p1 pbuf :
  player_ok p ->
  NetworkReader.read env k (Player.nr p) (Player.networkBuffer p)
                     (Player.networkBytes p) = (networkRead, nr', nbuf, trn) ->
  Player.read p (Player.playerBuffer p) (Player.playerBytes p)
  = (playerRead, p1, pbuf) ->
  exists written out,
    snd (fst (Player.cycle env k p))
    = trn ++ [StatsLine (clock_ms env k) written; SinkWrite out]
    /\ firstn (Z.to_nat networkRead) nbuf
       = bytes_of_samples
           (chunk (NetworkReader.m_saw (Player.nr p))
                  (NetworkReader.m_sawIndex (Player.nr p)) (networkRead / 2))
    /\ firstn (Z.to_nat playerRead) pbuf
       = bytes_of_samples
           (chunk (Player.m_saw p) (Player.m_sawIndex p) (playerRead / 2))
    /\ forall i : nat,
         Z.of_nat i < networkRead ->
         nth (2 * i) out 0 = nth (2 * i + 1) out 0
         /\ nth (2 * i) out 0
            = if Z.of_nat i <? playerRead
              then to_char
                     (char_of_double
                        (Player.networkLevel p * double_of_char (nth i nbuf 0%Z))
                      + char_of_double
                          (Player.playerLevel p * double_of_char (nth i pbuf 0%Z)))
              else char_of_double
                     (Player.networkLevel p * double_of_char (nth i nbuf 0%Z)).
Proof.
  intros Hok En Ep.
  destruct (cycle_reads env k p _ _ _ _ _ _ _ Hok En Ep) as (E1 & E2 & E3 & E4 & Ec).
  exists (cycle_written p), (cycle_mix env k p).
  rewrite Ec. cbn [fst snd]. split; [ reflexivity | ].
  subst networkRead nbuf playerRead pbuf.
  replace (2 * net_take p / 2) with (net_take p) by div_lia.
  replace (2 * file_take p / 2) with (file_take p) by div_lia.
  split; [ apply net_buf_firstn; exact Hok | ].
  split; [ apply file_buf_firstn; exact Hok | ].
  intros i Hi.
  destruct (cycle_mix_nth env k p i Hok Hi) as [A B]. cbv zeta in A, B.
  unfold scaled in A, B. split; [ rewrite A, B; reflexivity | exact A ].
Qed.

Lemma player_512_ok : player_ok player_512.
Proof.
  unfold player_ok, cursor_ok. cbn. lia.
Defined.

Lemma played_512_ok : player_ok played_512.
Proof.
  unfold player_ok, cursor_ok. cbn. lia.
Defined.

(** X19 at the player whose sources each hold the sample 512. *)
Lemma cycle_output_bytes_witness :
  exists written out,
    snd (fst (Player.cycle env_512 2 player_512))
    = [Sleep 1] ++ [StatsLine (clock_ms env_512 2) written; SinkWrite out]
    /\ firstn (Z.to_nat 2) (net_buf player_512)
       = bytes_of_samples (chunk [512] 0 (2 / 2))
    /\ firstn (Z.to_nat 2) (file_buf player_512)
       = bytes_of_samples (chunk [512] 0 (2 / 2))
    /\ forall i : nat,
         Z.of_nat i < 2 ->
         nth (2 * i) out 0 = nth (2 * i + 1) out 0
         /\ nth (2 * i) out 0
            = if Z.of_nat i <? 2
              then to_char
                     (char_of_double
                        (0.5 * double_of_char (nth i (net_buf player_512) 0%Z))
                      + char_of_double
                          (0.5 * double_of_char (nth i (file_buf player_512) 0%Z)))
              else char_of_double
                     (0.5 * double_of_char (nth i (net_buf player_512) 0%Z)).
Proof.
  exact (cycle_output_bytes env_512 2 player_512 2
           (NetworkReader.mk [512] 1) (net_buf player_512) [Sleep 1]
           2 (fst (snd (fst (Player.read player_512 (Player.playerBuffer player_512)
                                     (Player.playerBytes player_512))),
                   0))
           (file_buf player_512)
           player_512_ok eq_refl eq_refl).
Defined.

(** ** C2: how many frames a pass of [play()] writes *)

(** C2 (the code departs from the claim, and from its own loops: both
    start at position 0 and store two bytes for each byte read, 40 bytes
    here, the max(10, 6) = 10 frames of the claim). With 10 network samples
    and 6 file samples read in one pass at level 0, the array is allocated
    with, and the sink is handed, 2 * (20 + 12) = 64 bytes, 16 four-byte
    frames; the last 24 bytes are stored by no loop, they are what the
    fresh array held (85 in this environment). *)
Lemma play_frames_10_6 :
  Player.networkLevel player_10_6 = 0.5%float
  /\ Player.playerLevel player_10_6 = 0.5%float
  /\ length (network_delivery env_10_6 2 player_10_6) = 20%nat
  /\ length (player_delivery player_10_6) = 12%nat
  /\ length (sink_bytes (snd (fst (Player.cycle env_10_6 2 player_10_6)))) = 64%nat
  /\ length (sink_bytes (snd (fst (Player.cycle env_10_6 2 player_10_6))))
     <> (4 * Nat.max 10 6)%nat
  /\ skipn 40 (sink_bytes (snd (fst (Player.cycle env_10_6 2 player_10_6))))
     = repeat 85 24.
Proof.
  assert (E : length (sink_bytes (snd (fst (Player.cycle env_10_6 2 player_10_6))))
              = 64%nat) by (vm_compute; reflexivity).
  repeat split; try (vm_compute; reflexivity).
  rewrite E. simpl. lia.
Qed.

(** X20. The size of what a pass writes. In a pass of [play()] in which
    the network read returns [networkRead] bytes and the file read
    [playerRead] bytes, the sink receives exactly
    [2 * (networkRead + playerRead)] bytes, that is
    [networkRead / 2 + playerRead / 2] four-byte stereo frames: the sum of
    the two sample counts, not their maximum. At a byte index at or beyond
    the byte count of the file read and below that of the network read the
    file source contributes nothing: the two bytes written are
    [(char)(networkLevel * networkBuffer[i])]. *)
Theorem cycle_sink_size env k p networkRead nr' nbuf trn playerRead p1 pbuf :
  player_ok p ->
  NetworkReader.read env k (Player.nr p) (Player.networkBuffer p)
                     (Player.networkBytes p) = (networkRead, nr', nbuf, trn) ->
  Player.read p (Player.playerBuffer p) (Player.playerBytes p)
  = (playerRead, p1, pbuf) ->
  exists out,
    sink_bytes (snd (fst (Player.cycle env k p))) = out
    /\ Z.of_nat (length out) = 2 * (networkRead + playerRead)
    /\ Z.of_nat (length out) = 4 * (networkRead / 2 + playerRead / 2)
    /\ forall i : nat,
         playerRead <= Z.of_nat i < networkRead ->
         nth (2 * i) out 0
         = char_of_double (Player.networkLevel p * double_of_char (nth i nbuf 0%Z))
         /\ nth (2 * i + 1) out 0
            = char_of_double (Player.networkLevel p * double_of_char (nth i nbuf 0%Z)).
Proof.
  intros Hok En Ep.
  destruct (cycle_reads env k p _ _ _ _ _ _ _ Hok En Ep) as (E1 & E2 & E3 & E4 & Ec).
  exists (cycle_mix env k p).
  assert (Es : sink_bytes (snd (fst (Player.cycle env k p))) = cycle_mix env k p).
  { rewrite Ec. cbn [fst snd]. unfold sink_bytes. rewrite flat_map_app.
    destruct (NetworkReader_read_spec env k (Player.nr p) (Player.networkBuffer p)
                (Player.networkBytes p)) as (tr' & En' & Htr);
      [ apply Hok | apply Hok | ].
    rewrite En in En'. injection En' as _ _ _ Et. subst tr'.
    destruct Htr as [-> | [dt ->]]; simpl; apply app_nil_r. }
  split; [ exact Es | ].
  pose proof (cycle_mix_length env k p Hok) as Hl.
  subst networkRead nbuf playerRead pbuf.
  replace (2 * net_take p / 2) with (net_take p) by div_lia.
  replace (2 * file_take p / 2) with (file_take p) by div_lia.
  split; [ lia | ]. split; [ lia | ].
  intros i Hi.
  destruct (cycle_mix_nth env k p i Hok) as [A B]; [ lia | ].
  cbv zeta in A, B.
  destruct (Z.ltb_spec (Z.of_nat i) (2 * file_take p)) as [Hlt | Hge]; [ lia | ].
  unfold scaled in A, B. split; assumption.
Qed.

Lemma player_10_6_ok : player_ok player_10_6.
Proof.
  unfold player_ok, cursor_ok. cbn. lia.
Defined.

(** X20 for 10 network samples and 6 file samples at level 0:
    64 bytes, and at the byte indexes 12 to 19 (the samples 6 to 9 of the
    network source) the network term alone, with gain 0.5. *)
Lemma cycle_sink_size_witness :
  exists out,
    sink_bytes (snd (fst (Player.cycle env_10_6 2 player_10_6))) = out
    /\ Z.of_nat (length out) = 2 * (20 + 12)
    /\ Z.of_nat (length out) = 4 * (20 / 2 + 12 / 2)
    /\ forall i : nat,
         12 <= Z.of_nat i < 20 ->
         nth (2 * i) out 0
         = char_of_double (0.5 * double_of_char (nth i (net_buf player_10_6) 0%Z))
         /\ nth (2 * i + 1) out 0
            = char_of_double (0.5 * double_of_char (nth i (net_buf player_10_6) 0%Z)).
Proof.
  exact (cycle_sink_size env_10_6 2 player_10_6 20
           (NetworkReader.mk (NetworkReader.m_saw (Player.nr player_10_6)) 10)
           (net_buf player_10_6) [Sleep 1]
           12 (fst (snd (fst (Player.read player_10_6 (Player.playerBuffer player_10_6)
                                      (Player.playerBytes player_10_6))),
                    0))
           (file_buf player_10_6)
           player_10_6_ok eq_refl eq_refl).
Defined.

(** ** The recursion of [play()] *)

Lemma read_bytes_spec env k p :
  player_ok p ->
  network_read_bytes env k p = 2 * net_take p
  /\ player_read_bytes p = 2 * file_take p.
Proof.
  intros Hok. destruct (cycle_spec env k p Hok) as (trn & _ & En & _).
  unfold network_read_bytes, player_read_bytes. rewrite En.
  destruct Hok as (Hf & Hn & Hpb & Hnb).
  rewrite (Player_read_spec p _ _ Hf Hpb). split; reflexivity.
Qed.

Lemma cycle_eos env k p :
  snd (Player.cycle env k p)
  = (player_read_bytes p =? 0) && (network_read_bytes env k p =? 0).
Proof.
  unfold Player.cycle, network_read_bytes, player_read_bytes.
  destruct (NetworkReader.read env k (Player.nr p) (Player.networkBuffer p)
              (Player.networkBytes p)) as [[[n r] b] tr].
  destruct (Player.read p (Player.playerBuffer p) (Player.playerBytes p))
    as [[m q] c].
  reflexivity.
Qed.

Lemma cycle_paused env k p : Player.paused (fst (fst (Player.cycle env k p))) = false.
Proof.
  unfold Player.cycle.
  destruct (NetworkReader.read env k (Player.nr p) (Player.networkBuffer p)
              (Player.networkBytes p)) as [[[n r] b] tr].
  destruct (Player.read p (Player.playerBuffer p) (Player.playerBytes p))
    as [[m q] c].
  reflexivity.
Qed.

(** A pass keeps the player well-formed and the requested sizes. *)
Lemma cycle_ok env k p :
  player_ok p ->
  player_ok (fst (fst (Player.cycle env k p)))
  /\ Player.playerBytes (fst (fst (Player.cycle env k p))) = Player.playerBytes p
  /\ Player.networkBytes (fst (fst (Player.cycle env k p))) = Player.networkBytes p.
Proof.
  intros Hok. destruct (cycle_spec env k p Hok) as (trn & _ & _ & Ec).
  destruct (takes_bounds p Hok) as [Hn Hf].
  rewrite Ec. cbn [fst snd]. split; [ | split; reflexivity ].
  destruct Hok as ([Hf1 Hf2] & [Hn1 Hn2] & Hpb & Hnb).
  unfold player_ok, cursor_ok. cbn. lia.
Qed.

(** A pass takes [net_take + file_take] samples off what remains. *)
Lemma cycle_remaining env k p :
  player_ok p ->
  Z.of_nat (Player.remaining (fst (fst (Player.cycle env k p))))
  = Z.of_nat (Player.remaining p) - net_take p - file_take p.
Proof.
  intros Hok. destruct (cycle_spec env k p Hok) as (trn & _ & _ & Ec).
  destruct (takes_bounds p Hok) as [Hn Hf].
  rewrite Ec. cbn [fst snd].
  destruct Hok as ([Hf1 Hf2] & [Hn1 Hn2] & Hpb & Hnb).
  unfold Player.remaining. cbn. lia.
Qed.

(** [play_loop] unfolded once, for a well-formed player. *)
Lemma play_loop_step env fuel k p :
  Player.play_loop (S fuel) env k p
  = if snd (Player.cycle env k p)
    then Some (fst (fst (Player.cycle env k p)), S k, snd (fst (Player.cycle env k p)))
    else match Player.play_loop fuel env (S k) (fst (fst (Player.cycle env k p))) with
         | Some (p'', k'', tr'') =>
             Some (p'', k'', snd (fst (Player.cycle env k p)) ++ tr'')
         | None => None
         end.
Proof.
  cbn [Player.play_loop].
  pose proof (cycle_paused env k p) as Hp.
  destruct (Player.cycle env k p) as [[p1 tr1] eos]. cbn [fst snd] in *.
  rewrite Hp. reflexivity.
Qed.

(** With fuel beyond the samples that remain, [play_loop] returns. *)
Lemma play_loop_returns env fuel :
  forall k p,
    player_ok p -> (Player.remaining p < fuel)%nat ->
    exists p' k' tr, Player.play_loop fuel env k p = Some (p', k', tr).
Proof.
  induction fuel as [ | fuel IH ]; intros k p Hok Hf; [ lia | ].
  rewrite play_loop_step.
  destruct (snd (Player.cycle env k p)) eqn:Eeos; [ eauto | ].
  rewrite cycle_eos in Eeos.
  destruct (read_bytes_spec env k p Hok) as [Rn Rp]. rewrite Rn, Rp in Eeos.
  destruct (takes_bounds p Hok) as [Hn Hp].
  pose proof (cycle_remaining env k p Hok) as Hr.
  destruct (cycle_ok env k p Hok) as (Hok' & _).
  destruct (IH (S k) (fst (fst (Player.cycle env k p))) Hok') as (p' & k' & tr & E).
  - apply andb_false_iff in Eeos. destruct Eeos as [E | E]; apply Z.eqb_neq in E; lia.
  - rewrite E. eauto.
Qed.

(** The pass in which both reads return 0 writes its stats line and hands
    the sink an empty array. *)
Lemma cycle_eos_trace env k p :
  snd (Player.cycle env k p) = true ->
  exists trn n,
    snd (fst (Player.cycle env k p))
    = trn ++ [StatsLine (clock_ms env k) n; SinkWrite []]
    /\ sink_bytes (snd (fst (Player.cycle env k p))) = []
    /\ stats_records (snd (fst (Player.cycle env k p))) = [(clock_ms env k, n)].
Proof.
  unfold Player.cycle.
  destruct (NetworkReader.read env k (Player.nr p) (Player.networkBuffer p)
              (Player.networkBytes p)) as [[[n r] b] tr] eqn:En.
  destruct (Player.read p (Player.playerBuffer p) (Player.playerBytes p))
    as [[m q] c].
  cbn [fst snd]. intros H. apply andb_true_iff in H. destruct H as [Hm Hn].
  apply Z.eqb_eq in Hm, Hn. subst n m.
  assert (Htr : tr = [] \/ exists dt, tr = [Sleep dt]).
  { unfold NetworkReader.read in En.
    destruct (to_size_t _ =? 0); inversion En;
      [ left; reflexivity | right; eexists; reflexivity ]. }
  eexists tr, _. split; [ reflexivity | ].
  destruct Htr as [-> | [dt ->]]; split; reflexivity.
Qed.

(** Every run of [play_loop] that returns ends with such a pass. *)
Lemma play_loop_last env fuel :
  forall k p p' k' tr,
    Player.play_loop fuel env k p = Some (p', k', tr) ->
    exists tr0 t n, tr = tr0 ++ [StatsLine t n; SinkWrite []].
Proof.
  induction fuel as [ | fuel IH ]; intros k p p' k' tr H; [ discriminate | ].
  rewrite play_loop_step in H.
  destruct (snd (Player.cycle env k p)) eqn:Eeos.
  - injection H as _ _ Et. subst tr.
    destruct (cycle_eos_trace env k p Eeos) as (trn & n & E & _).
    rewrite E. eauto.
  - destruct (Player.play_loop fuel env (S k) (fst (fst (Player.cycle env k p))))
      as [[[p'' k''] tr''] | ] eqn:E; [ | discriminate ].
    injection H as _ _ Et. subst tr.
    destruct (IH _ _ _ _ _ E) as (tr0 & t & n & ->).
    exists (snd (fst (Player.cycle env k p)) ++ tr0), t, n.
    apply app_assoc.
Qed.

(** ** C6: the stats records *)

Lemma remaining_spec p :
  player_ok p ->
  Z.of_nat (Player.remaining p)
  = (Z.of_nat (length (Player.m_saw p)) - Player.m_sawIndex p)
    + (Z.of_nat (length (NetworkReader.m_saw (Player.nr p)))
       - NetworkReader.m_sawIndex (Player.nr p)).
Proof.
  intros ([Hf1 Hf2] & [Hn1 Hn2] & _). unfold Player.remaining. lia.
Qed.

Lemma cycle_written_spec p :
  player_ok p -> counter_ok p ->
  cycle_written p = Player.writtenSamples p + net_take p + file_take p.
Proof.
  intros Hok (Hb & Hlo & Hhi).
  destruct (takes_bounds p Hok) as [Hn Hf].
  pose proof (remaining_spec p Hok) as Hr.
  unfold cycle_written, sizeof_int16.
  replace (2 * file_take p / 2) with (file_take p) by div_lia.
  replace (2 * net_take p / 2) with (net_take p) by div_lia.
  rewrite to_size_t_small by (change (2 ^ 64) with (4 * 2 ^ 62); lia).
  rewrite to_int16_small by (unfold is_int16; lia).
  rewrite to_int_small by lia. lia.
Qed.

Lemma stats_records_app a b :
  stats_records (a ++ b) = stats_records a ++ stats_records b.
Proof. apply flat_map_app. Qed.

Lemma cycle_stats env k p :
  player_ok p ->
  stats_records (snd (fst (Player.cycle env k p))) = [(clock_ms env k, cycle_written p)].
Proof.
  intros Hok. destruct (cycle_spec env k p Hok) as (trn & Htr & _ & Ec).
  rewrite Ec. cbn [fst snd]. unfold stats_records. rewrite flat_map_app.
  destruct Htr as [-> | [dt ->]]; reflexivity.
Qed.

Lemma cycle_counter_ok env k p :
  player_ok p -> counter_ok p ->
  counter_ok (fst (fst (Player.cycle env k p)))
  /\ Player.writtenSamples (fst (fst (Player.cycle env k p))) = cycle_written p
  /\ Player.writtenSamples p <= cycle_written p.
Proof.
  intros Hok Hc.
  pose proof (cycle_written_spec p Hok Hc) as Hw.
  pose proof (cycle_remaining env k p Hok) as Hr.
  destruct (cycle_ok env k p Hok) as (_ & Hpb & Hnb).
  destruct (takes_bounds p Hok) as [Hn Hf].
  assert (Ew : Player.writtenSamples (fst (fst (Player.cycle env k p))) = cycle_written p).
  { destruct (cycle_spec env k p Hok) as (trn & _ & _ & Ec). rewrite Ec. reflexivity. }
  destruct Hc as (Hb & Hlo & Hhi).
  unfold counter_ok. rewrite Hpb, Hnb, Ew, Hr. lia.
Qed.




Lemma player_512_counter_ok : counter_ok player_512.
Proof.
  unfold counter_ok. cbn. lia.
Defined.



(** ** Sessions: how the cursors move *)

Lemma to_char_mod z : to_char z mod 256 = z mod 256.
Proof.
  unfold to_char.
  replace ((z + 128) mod 256 - 128) with ((z + 128) mod 256 + (-1) * 256 + 128) by lia.
  rewrite <- Z.add_assoc, (Z.add_comm ((-1) * 256)), Z.add_assoc.
  rewrite Z.mod_add by lia.
  rewrite Zplus_mod_idemp_l.
  replace (z + 128 + 128) with (z + 1 * 256) by lia.
  apply Z.mod_add. lia.
Qed.

(** The two bytes of a sample give the sample back. *)
Lemma sample_of_its_bytes s :
  is_int16 s -> to_char s mod 256 + 256 * to_char (to_char (s / 256)) = s.
Proof.
  unfold is_int16. intros H.
  rewrite to_char_mod.
  rewrite (to_char_small (to_char (s / 256))) by apply to_char_range.
  rewrite to_char_small by (unfold is_char; div_lia).
  div_lia.
Qed.

Lemma samples_of_their_bytes l :
  Forall is_int16 l -> samples_of_bytes (bytes_of_samples l) = l.
Proof.
  induction 1 as [ | s l Hs Hl IH ]; [ reflexivity | ].
  cbn [bytes_of_samples flat_map bytes_of_sample app samples_of_bytes].
  fold (bytes_of_samples l). rewrite IH, sample_of_its_bytes by exact Hs. reflexivity.
Qed.

Lemma bytes_of_samples_app a b :
  bytes_of_samples (a ++ b) = bytes_of_samples a ++ bytes_of_samples b.
Proof. apply flat_map_app. Qed.

Lemma firstn_plus (a b : nat) (l : list Z) :
  firstn (a + b) l = firstn a l ++ firstn b (skipn a l).
Proof.
  revert l. induction a as [ | a IH ]; intros [ | x l ]; simpl;
    try rewrite firstn_nil; try reflexivity.
  rewrite IH. reflexivity.
Qed.

Lemma chunk_app saw idx a b :
  0 <= idx -> 0 <= a -> 0 <= b ->
  chunk saw idx a ++ chunk saw (idx + a) b = chunk saw idx (a + b).
Proof.
  intros Hi Ha Hb. unfold chunk.
  rewrite !Z2Nat.inj_add by lia.
  rewrite firstn_plus, skipn_skipn.
  rewrite (Nat.add_comm (Z.to_nat a)). reflexivity.
Qed.

Lemma chunk_all saw : chunk saw 0 (Z.of_nat (length saw)) = saw.
Proof.
  unfold chunk. rewrite Nat2Z.id. simpl. apply firstn_all.
Qed.

Lemma chunk_Forall (P : Z -> Prop) saw idx n : Forall P saw -> Forall P (chunk saw idx n).
Proof.
  intros H. unfold chunk.
  rewrite <- (firstn_skipn (Z.to_nat idx) saw) in H.
  apply Forall_app in H. destruct H as [_ H].
  rewrite <- (firstn_skipn (Z.to_nat n) (skipn (Z.to_nat idx) saw)) in H.
  apply Forall_app in H. apply H.
Qed.

Lemma network_delivery_spec env k p :
  player_ok p ->
  network_delivery env k p
  = bytes_of_samples
      (chunk (NetworkReader.m_saw (Player.nr p))
             (NetworkReader.m_sawIndex (Player.nr p)) (net_take p)).
Proof.
  intros Hok. destruct (cycle_spec env k p Hok) as (trn & _ & En & _).
  unfold network_delivery. rewrite En. apply net_buf_firstn. exact Hok.
Qed.

Lemma player_delivery_spec p :
  player_ok p ->
  player_delivery p
  = bytes_of_samples (chunk (Player.m_saw p) (Player.m_sawIndex p) (file_take p)).
Proof.
  intros Hok. unfold player_delivery.
  destruct Hok as (Hf & Hn & Hpb & Hnb).
  rewrite (Player_read_spec p _ _ Hf Hpb).
  apply file_buf_firstn. exact (conj Hf (conj Hn (conj Hpb Hnb))).
Qed.

(** What a step leaves as it was, and where it leaves the cursors. *)
Lemma step_spec env k s p :
  player_ok p ->
  let p' := step env k s p in
  player_ok p'
  /\ Player.m_saw p' = Player.m_saw p
  /\ NetworkReader.m_saw (Player.nr p') = NetworkReader.m_saw (Player.nr p)
  /\ Player.m_sawIndex p'
     = Player.m_sawIndex p + match s with DoCycle => file_take p | _ => 0 end
  /\ NetworkReader.m_sawIndex (Player.nr p')
     = NetworkReader.m_sawIndex (Player.nr p)
       + match s with DoCycle => net_take p | _ => 0 end.
Proof.
  intros Hok. destruct s; cbn [step].
  - destruct (cycle_ok env k p Hok) as (Hok' & _).
    destruct (cycle_spec env k p Hok) as (trn & _ & _ & Ec).
    cbv zeta. split; [ exact Hok' | ]. rewrite Ec. cbn. repeat split; reflexivity.
  - cbv zeta. rewrite !Z.add_0_r. split; [ exact Hok | repeat split; reflexivity ].
  - cbv zeta. rewrite !Z.add_0_r. split; [ exact Hok | repeat split; reflexivity ].
  - cbv zeta. rewrite !Z.add_0_r. split; [ exact Hok | repeat split; reflexivity ].
Qed.

Lemma session_spec env steps :
  forall k p,
    player_ok p ->
    let '(p', dn, dl) := session env k steps p in
    player_ok p'
    /\ Player.m_saw p' = Player.m_saw p
    /\ NetworkReader.m_saw (Player.nr p') = NetworkReader.m_saw (Player.nr p)
    /\ Player.m_sawIndex p <= Player.m_sawIndex p'
    /\ NetworkReader.m_sawIndex (Player.nr p) <= NetworkReader.m_sawIndex (Player.nr p')
    /\ dl = bytes_of_samples
              (chunk (Player.m_saw p) (Player.m_sawIndex p)
                     (Player.m_sawIndex p' - Player.m_sawIndex p))
    /\ dn = bytes_of_samples
              (chunk (NetworkReader.m_saw (Player.nr p))
                     (NetworkReader.m_sawIndex (Player.nr p))
                     (NetworkReader.m_sawIndex (Player.nr p')
                      - NetworkReader.m_sawIndex (Player.nr p))).
Proof.
  induction steps as [ | s rest IH ]; intros k p Hok.
  - cbn [session]. rewrite !Z.sub_diag, !chunk_zero.
    split; [ exact Hok | ]. repeat split; try reflexivity; lia.
  - cbn [session].
    destruct (step_spec env k s p Hok) as (Hok1 & Es & Ens & Ei & Eni).
    specialize (IH (S k) (step env k s p) Hok1).
    destruct (session env (S k) rest (step env k s p)) as [[p' dn] dl].
    destruct IH as (Hok' & Es' & Ens' & Hi' & Hni' & Edl & Edn).
    destruct (takes_bounds p Hok) as [Hn Hf].
    assert (Hcur : 0 <= Player.m_sawIndex p
                   /\ 0 <= NetworkReader.m_sawIndex (Player.nr p)).
    { destruct Hok as ([[? ?] ?] & [[? ?] ?] & _). lia. }
    rewrite Es, Ei in Edl. rewrite Ens, Eni in Edn. rewrite Ei in Hi'. rewrite Eni in Hni'.
    destruct s.
    + rewrite (network_delivery_spec env k p Hok), (player_delivery_spec p Hok).
      rewrite Edl, Edn, <- !bytes_of_samples_app, !chunk_app by lia.
      rewrite Es', Ens', Es, Ens.
      split; [ exact Hok' | ].
      repeat split; try assumption; try lia; do 2 f_equal; lia.
    + rewrite Z.add_0_r in *. rewrite Es', Ens', Es, Ens.
      split; [ exact Hok' | ]. repeat split; assumption.
    + rewrite Z.add_0_r in *. rewrite Es', Ens', Es, Ens.
      split; [ exact Hok' | ]. repeat split; assumption.
    + rewrite Z.add_0_r in *. rewrite Es', Ens', Es, Ens.
      split; [ exact Hok' | ]. repeat split; assumption.
Qed.

(** A run of [play()] is a session of passes, and with room for a sample
    in both requests it ends with both cursors at the end of their
    vectors. *)
Lemma play_loop_session env fuel :
  forall k p,
    player_ok p -> (Player.remaining p < fuel)%nat ->
    exists n tr,
      Player.play_loop fuel env k p
      = Some (fst (fst (session env k (repeat DoCycle n) p)), (k + n)%nat, tr)
      /\ (2 <= Player.networkBytes p -> 2 <= Player.playerBytes p ->
          Player.m_sawIndex (fst (fst (session env k (repeat DoCycle n) p)))
          = Z.of_nat (length (Player.m_saw p))
          /\ NetworkReader.m_sawIndex
               (Player.nr (fst (fst (session env k (repeat DoCycle n) p))))
             = Z.of_nat (length (NetworkReader.m_saw (Player.nr p)))).
Proof.
  induction fuel as [ | fuel IH ]; intros k p Hok Hf; [ lia | ].
  rewrite play_loop_step.
  destruct (step_spec env k DoCycle p Hok) as (Hok1 & Es & Ens & Ei & Eni).
  cbn [step] in Hok1, Es, Ens, Ei, Eni.
  destruct (read_bytes_spec env k p Hok) as [Rn Rp].
  destruct (takes_bounds p Hok) as [Hn Hp].
  destruct (snd (Player.cycle env k p)) eqn:Eeos.
  - exists 1%nat. eexists.
    cbn [repeat session step].
    split; [ rewrite Nat.add_1_r; reflexivity | ].
    cbn [fst]. intros Hnb Hpb.
    rewrite cycle_eos, Rn, Rp in Eeos. apply andb_true_iff in Eeos.
    destruct Eeos as [Zp Zn]. apply Z.eqb_eq in Zp, Zn.
    destruct Hok as (Hcf & Hcn & _).
    rewrite Ei, Eni. split.
    + assert (Hz : file_take p = 0) by lia.
      apply (take_zero_iff _ _ _ Hcf Hpb) in Hz. lia.
    + assert (Hz : net_take p = 0) by lia.
      apply (take_zero_iff _ _ _ Hcn Hnb) in Hz. lia.
  - pose proof (cycle_remaining env k p Hok) as Hr.
    destruct (cycle_ok env k p Hok) as (_ & Hpb' & Hnb').
    destruct (IH (S k) (fst (fst (Player.cycle env k p))) Hok1) as (n & tr & E & Hend).
    { rewrite cycle_eos, Rn, Rp in Eeos. apply andb_false_iff in Eeos.
      destruct Eeos as [E | E]; apply Z.eqb_neq in E; lia. }
    rewrite E. exists (S n). eexists.
    cbn [repeat session step].
    destruct (session env (S k) (repeat DoCycle n) (fst (fst (Player.cycle env k p))))
      as [[p' dn] dl].
    cbn [fst] in *.
    split; [ rewrite Nat.add_succ_r; reflexivity | ].
    intros Hnb Hpb. rewrite Hpb', Hnb', Es, Ens in Hend. apply Hend; assumption.
Qed.

(** ** C5: the read cursors *)

(** C5. A [read] moves its cursor forward by exactly the samples it
    returns; [pause()] leaves both cursors where they are; and over any
    session (passes of [play()] with [pause()], [setMixingLevel()] and
    [close()] between them) each cursor only advances, stays within its
    vector, and the bytes its source handed over are, in order, exactly the
    samples between the cursor at the start and at the end: none replayed,
    none skipped. From a cursor at 0 to the end of the stream they are the
    whole vector, once. A run of [play()] is such a session, of passes
    only, and where both requests have room for a sample it ends with both
    cursors at the end of their streams. *)
Theorem cursors_only_advance env k steps p buf maxBytes :
  player_ok p ->
  Forall is_int16 (Player.m_saw p) ->
  Forall is_int16 (NetworkReader.m_saw (Player.nr p)) ->
  0 <= maxBytes ->
  (let '(n, p1, _) := Player.read p buf maxBytes in
   0 <= n /\ Player.m_sawIndex p1 = Player.m_sawIndex p + n / 2)
  /\ (let '(n, r1, _, _) := NetworkReader.read env k (Player.nr p) buf maxBytes in
      0 <= n
      /\ NetworkReader.m_sawIndex r1 = NetworkReader.m_sawIndex (Player.nr p) + n / 2)
  /\ Player.m_sawIndex (Player.pause env k p) = Player.m_sawIndex p
  /\ NetworkReader.m_sawIndex (Player.nr (Player.pause env k p))
     = NetworkReader.m_sawIndex (Player.nr p)
  /\ (let '(p', dn, dl) := session env k steps p in
     Player.m_sawIndex p <= Player.m_sawIndex p' <= Z.of_nat (length (Player.m_saw p))
     /\ NetworkReader.m_sawIndex (Player.nr p)
        <= NetworkReader.m_sawIndex (Player.nr p')
        <= Z.of_nat (length (NetworkReader.m_saw (Player.nr p)))
     /\ samples_of_bytes dl
        = chunk (Player.m_saw p) (Player.m_sawIndex p)
                (Player.m_sawIndex p' - Player.m_sawIndex p)
     /\ samples_of_bytes dn
        = chunk (NetworkReader.m_saw (Player.nr p))
                (NetworkReader.m_sawIndex (Player.nr p))
                (NetworkReader.m_sawIndex (Player.nr p')
                 - NetworkReader.m_sawIndex (Player.nr p))
     /\ (Player.m_sawIndex p = 0 ->
         Player.m_sawIndex p' = Z.of_nat (length (Player.m_saw p)) ->
         samples_of_bytes dl = Player.m_saw p)
     /\ (NetworkReader.m_sawIndex (Player.nr p) = 0 ->
         NetworkReader.m_sawIndex (Player.nr p')
         = Z.of_nat (length (NetworkReader.m_saw (Player.nr p))) ->
         samples_of_bytes dn = NetworkReader.m_saw (Player.nr p)))
  /\ exists n tr,
       Player.play env k p
       = Some (fst (fst (session env k (repeat DoCycle n) p)), (k + n)%nat, tr)
       /\ (2 <= Player.networkBytes p -> 2 <= Player.playerBytes p ->
           Player.m_sawIndex (fst (fst (session env k (repeat DoCycle n) p)))
           = Z.of_nat (length (Player.m_saw p))
           /\ NetworkReader.m_sawIndex
                (Player.nr (fst (fst (session env k (repeat DoCycle n) p))))
              = Z.of_nat (length (NetworkReader.m_saw (Player.nr p)))).
Proof.
  intros Hok Hfs Hns Hm.
  assert (Hok2 := Hok). destruct Hok2 as (Hf & Hn & Hpb & Hnb).
  split; [ | split; [ | split; [ reflexivity | split; [ reflexivity | split ] ] ] ];
    [ | | | apply play_loop_session; [ exact Hok | lia ] ].
  - rewrite (Player_read_spec p buf maxBytes Hf Hm). cbn [Player.m_sawIndex].
    pose proof (take_bounds _ _ _ Hf Hm).
    split; [ lia | ]. f_equal. div_lia.
  - destruct (NetworkReader_read_spec env k (Player.nr p) buf maxBytes Hn Hm)
      as (tr & -> & _).
    cbn [NetworkReader.m_sawIndex].
    pose proof (take_bounds _ _ _ Hn Hm).
    split; [ lia | ]. f_equal. div_lia.
  - pose proof (session_spec env steps k p Hok) as H.
    destruct (session env k steps p) as [[p' dn] dl].
    destruct H as (Hok' & Es & Ens & Hi & Hni & -> & ->).
    destruct Hok' as ([Hf1 _] & [Hn1 _] & _). rewrite Es in Hf1. rewrite Ens in Hn1.
    rewrite !samples_of_their_bytes by (apply chunk_Forall; assumption).
    repeat split; try lia.
    + intros E0 E1. rewrite E0, E1, Z.sub_0_r. apply chunk_all.
    + intros E0 E1. rewrite E0, E1, Z.sub_0_r. apply chunk_all.
Qed.

Lemma samples_512_int16 : Forall is_int16 [512].
Proof.
  constructor; [ unfold is_int16; lia | constructor ].
Defined.

(** C5 for a pass, a pause and a second pass of the player whose sources
    each hold the sample 512. *)
Lemma cursors_only_advance_witness :
  (let '(n, p1, _) := Player.read player_512 [] 144 in
   0 <= n /\ Player.m_sawIndex p1 = Player.m_sawIndex player_512 + n / 2)
  /\ (let '(n, r1, _, _) := NetworkReader.read env_512 2 (Player.nr player_512) [] 144 in
      0 <= n
      /\ NetworkReader.m_sawIndex r1
         = NetworkReader.m_sawIndex (Player.nr player_512) + n / 2)
  /\ Player.m_sawIndex (Player.pause env_512 2 player_512) = Player.m_sawIndex player_512
  /\ NetworkReader.m_sawIndex (Player.nr (Player.pause env_512 2 player_512))
     = NetworkReader.m_sawIndex (Player.nr player_512)
  /\ (let '(p', dn, dl) := session env_512 2 [DoCycle; DoPause; DoCycle] player_512 in
     Player.m_sawIndex player_512 <= Player.m_sawIndex p'
       <= Z.of_nat (length (Player.m_saw player_512))
     /\ NetworkReader.m_sawIndex (Player.nr player_512)
        <= NetworkReader.m_sawIndex (Player.nr p')
        <= Z.of_nat (length (NetworkReader.m_saw (Player.nr player_512)))
     /\ samples_of_bytes dl
        = chunk (Player.m_saw player_512) (Player.m_sawIndex player_512)
                (Player.m_sawIndex p' - Player.m_sawIndex player_512)
     /\ samples_of_bytes dn
        = chunk (NetworkReader.m_saw (Player.nr player_512))
                (NetworkReader.m_sawIndex (Player.nr player_512))
                (NetworkReader.m_sawIndex (Player.nr p')
                 - NetworkReader.m_sawIndex (Player.nr player_512))
     /\ (Player.m_sawIndex player_512 = 0 ->
         Player.m_sawIndex p' = Z.of_nat (length (Player.m_saw player_512)) ->
         samples_of_bytes dl = Player.m_saw player_512)
     /\ (NetworkReader.m_sawIndex (Player.nr player_512) = 0 ->
         NetworkReader.m_sawIndex (Player.nr p')
         = Z.of_nat (length (NetworkReader.m_saw (Player.nr player_512))) ->
         samples_of_bytes dn = NetworkReader.m_saw (Player.nr player_512)))
  /\ exists n tr,
       Player.play env_512 2 player_512
       = Some (fst (fst (session env_512 2 (repeat DoCycle n) player_512)),
               (2 + n)%nat, tr)
       /\ (2 <= Player.networkBytes player_512 -> 2 <= Player.playerBytes player_512 ->
           Player.m_sawIndex (fst (fst (session env_512 2 (repeat DoCycle n) player_512)))
           = Z.of_nat (length (Player.m_saw player_512))
           /\ NetworkReader.m_sawIndex
                (Player.nr (fst (fst (session env_512 2 (repeat DoCycle n) player_512))))
              = Z.of_nat (length (NetworkReader.m_saw (Player.nr player_512)))).
Proof.
  refine (cursors_only_advance env_512 2 [DoCycle; DoPause; DoCycle] player_512 [] 144
            player_512_ok samples_512_int16 samples_512_int16 _).
  lia.
Defined.

(** ** C9: when [read] returns 0 *)

(** C9, counterexample. Asked for at most one byte, [read] returns 0
    bytes although a sample remains (cursor 0, length 1): it hands over
    whole samples only. The same holds of both readers. *)
Lemma read_one_byte_512 :
  Player.m_sawIndex player_512 = 0
  /\ length (Player.m_saw player_512) = 1%nat
  /\ fst (fst (Player.read player_512 (Player.playerBuffer player_512) 1)) = 0
  /\ NetworkReader.m_sawIndex (Player.nr player_512) = 0
  /\ length (NetworkReader.m_saw (Player.nr player_512)) = 1%nat
  /\ fst (fst (fst (NetworkReader.read env_512 2 (Player.nr player_512)
                                       (Player.networkBuffer player_512) 1))) = 0.
Proof.
  repeat split; vm_compute; reflexivity.
Qed.

(** At the end of its stream, a reader returns 0 and stays as it is. *)
Lemma Player_read_at_end p buf maxBytes :
  Player.m_sawIndex p = Z.of_nat (length (Player.m_saw p)) ->
  Player.read p buf maxBytes = (0, p, buf).
Proof.
  intros E. unfold Player.read. rewrite E, Z.sub_diag. reflexivity.
Qed.

Lemma NetworkReader_read_at_end env k r buf maxBytes :
  NetworkReader.m_sawIndex r = Z.of_nat (length (NetworkReader.m_saw r)) ->
  NetworkReader.read env k r buf maxBytes = (0, r, buf, []).
Proof.
  intros E. unfold NetworkReader.read. rewrite E, Z.sub_diag. reflexivity.
Qed.

Lemma Player_reads_at_end reqs :
  forall p,
    Player.m_sawIndex p = Z.of_nat (length (Player.m_saw p)) ->
    Forall (eq 0) (Player_reads p reqs).
Proof.
  induction reqs as [ | [buf maxBytes] rest IH ]; intros p E; cbn [Player_reads].
  - constructor.
  - rewrite (Player_read_at_end p buf maxBytes E). constructor; [ reflexivity | ].
    apply IH. exact E.
Qed.

Lemma NetworkReader_reads_at_end env reqs :
  forall k r,
    NetworkReader.m_sawIndex r = Z.of_nat (length (NetworkReader.m_saw r)) ->
    Forall (eq 0) (NetworkReader_reads env k r reqs).
Proof.
  induction reqs as [ | [buf maxBytes] rest IH ]; intros k r E;
    cbn [NetworkReader_reads].
  - constructor.
  - rewrite (NetworkReader_read_at_end env k r buf maxBytes E).
    constructor; [ reflexivity | ]. apply IH. exact E.
Qed.

(** C9, as amended. For every call [read(buf, maxBytes)] with
    [maxBytes >= 2] (room for one sample; the player always asks for 144),
    on either reader, the byte count returned is 0 only at the end of the
    stream, cursor = length; and at the end of the stream every read,
    whatever it asks for, returns 0 and leaves the cursor, so all the
    reads that follow return 0. *)
Theorem read_zero_at_end_of_stream env k p r buf maxBytes :
  cursor_ok (Player.m_saw p) (Player.m_sawIndex p) ->
  cursor_ok (NetworkReader.m_saw r) (NetworkReader.m_sawIndex r) ->
  2 <= maxBytes ->
  (fst (fst (Player.read p buf maxBytes)) = 0 ->
   Player.m_sawIndex p = Z.of_nat (length (Player.m_saw p)))
  /\ (fst (fst (fst (NetworkReader.read env k r buf maxBytes))) = 0 ->
      NetworkReader.m_sawIndex r = Z.of_nat (length (NetworkReader.m_saw r)))
  /\ (Player.m_sawIndex p = Z.of_nat (length (Player.m_saw p)) ->
      forall reqs, Forall (eq 0) (Player_reads p reqs))
  /\ (NetworkReader.m_sawIndex r = Z.of_nat (length (NetworkReader.m_saw r)) ->
      forall reqs, Forall (eq 0) (NetworkReader_reads env k r reqs)).
Proof.
  intros Hp Hr Hm. repeat split.
  - rewrite (Player_read_spec p buf maxBytes Hp) by lia. cbn [fst]. intros E.
    apply (take_zero_iff _ _ maxBytes Hp Hm). lia.
  - destruct (NetworkReader_read_spec env k r buf maxBytes Hr) as (tr & -> & _);
      [ lia | ].
    cbn [fst]. intros E. apply (take_zero_iff _ _ maxBytes Hr Hm). lia.
  - intros E reqs. apply Player_reads_at_end. exact E.
  - intros E reqs. apply NetworkReader_reads_at_end. exact E.
Qed.

Lemma cursor_512_ok : cursor_ok [512] 0.
Proof.
  unfold cursor_ok. cbn. lia.
Defined.

(** The amended C9 at the two readers of the player that has played both
    sources to their end, asked for 144 bytes: each read returns 0, each
    cursor is at the length of its vector, and so does every read that
    follows. *)
Lemma read_zero_at_end_of_stream_witness :
  fst (fst (Player.read played_512 [] 144)) = 0
  /\ Player.m_sawIndex played_512 = Z.of_nat (length (Player.m_saw played_512))
  /\ fst (fst (fst (NetworkReader.read env_512 4 (Player.nr played_512) [] 144))) = 0
  /\ NetworkReader.m_sawIndex (Player.nr played_512)
     = Z.of_nat (length (NetworkReader.m_saw (Player.nr played_512)))
  /\ (forall reqs, Forall (eq 0) (Player_reads played_512 reqs))
  /\ (forall reqs,
        Forall (eq 0) (NetworkReader_reads env_512 4 (Player.nr played_512) reqs)).
Proof.
  destruct (read_zero_at_end_of_stream env_512 4 played_512 (Player.nr played_512)
              [] 144 (proj1 played_512_ok) (proj1 (proj2 played_512_ok)))
    as (A & B & C & D); [ lia | ].
  split; [ reflexivity | ]. split; [ exact (A eq_refl) | ].
  split; [ reflexivity | ]. split; [ exact (B eq_refl) | ].
  split; [ exact (C eq_refl) | exact (D eq_refl) ].
Defined.

(** ** C7: [play()] runs the whole stream in the caller *)

(** C7 (the code departs from the claim, and from the note at the head of
    [player.h], "API must be async. No function is supposed to block!").
    There is one thread: the call [play()] itself sleeps in the network
    read and writes both sinks, pass after pass, and returns only at the
    end of both streams. Here, for the player whose sources each hold one
    sample, everything the call does before it returns. *)
Lemma play_runs_in_the_caller_512 :
  exists p',
    Player.play env_512 2 player_512
    = Some (p', 4%nat,
            [Sleep 1; StatsLine 2 2; SinkWrite [0; 0; 2; 2; 85; 85; 85; 85];
             StatsLine 3 2; SinkWrite []])
    /\ Player.m_sawIndex p' = 1
    /\ NetworkReader.m_sawIndex (Player.nr p') = 1.
Proof.
  eexists. split; [ vm_compute; reflexivity | split; reflexivity ].
Qed.

(** ** C8: a missing input file *)

(** C8, counterexample. With the file of the file source missing,
    [open()] does not return an error value: [init()] reports on
    [std::cerr] and ends the process with [exit(1)]. *)
Lemma open_missing_file_exits :
  files env_no_file "audio1_s16le_mono_48k.raw" = None
  /\ Player.open env_no_file 0 "audio2_s16le_mono_48k.raw" "audio1_s16le_mono_48k.raw" blank
     = Exits 1 [OpenOut "audio_output.raw"; OpenOut "realtime_stats.txt";
                OpenIn "audio1_s16le_mono_48k.raw";
                Cerr "Player reader: Couldn't open input file!"]
  /\ forall p tr,
       Player.open env_no_file 0 "audio2_s16le_mono_48k.raw" "audio1_s16le_mono_48k.raw" blank
       <> Returns p tr.
Proof.
  split; [ reflexivity | ]. split; [ reflexivity | ].
  intros p tr H. discriminate H.
Qed.

(** C8, as amended. If the file of the file source cannot be opened,
    [open()] does not return: after the calls that open the two sinks it
    reports "Player reader: Couldn't open input file!" on [std::cerr] and
    ends the process with exit status 1; so does [Player pl; pl.open(...)]
    when the network source is there. If the file of the network source
    cannot be opened, the process ends the same way (status 1, message on
    [std::cout]) when the player is constructed, before [open()], whether
    the file of the file source is there or not. *)
Theorem open_exits_on_missing_input env k networkUrl filename p junk :
  (files env "audio1_s16le_mono_48k.raw" = None ->
   Player.open env k networkUrl filename p
   = Exits 1 [OpenOut "audio_output.raw"; OpenOut "realtime_stats.txt";
              OpenIn "audio1_s16le_mono_48k.raw";
              Cerr "Player reader: Couldn't open input file!"]
   /\ forall q tr0,
        Player.new env junk = Returns q tr0 ->
        boot env networkUrl filename junk
        = Exits 1 (tr0 ++ [OpenOut "audio_output.raw"; OpenOut "realtime_stats.txt";
                           OpenIn "audio1_s16le_mono_48k.raw";
                           Cerr "Player reader: Couldn't open input file!"]))
  /\ (files env "audio2_s16le_mono_48k.raw" = None ->
      Player.new env junk
      = Exits 1 [OpenIn "audio2_s16le_mono_48k.raw";
                 Cout "NetworkReader: Couldn't open input file!"]
      /\ boot env networkUrl filename junk
         = Exits 1 [OpenIn "audio2_s16le_mono_48k.raw";
                    Cout "NetworkReader: Couldn't open input file!"]).
Proof.
  split.
  - intros H1.
    assert (E : forall q,
               Player.open env k networkUrl filename q
               = Exits 1 [OpenOut "audio_output.raw"; OpenOut "realtime_stats.txt";
                          OpenIn "audio1_s16le_mono_48k.raw";
                          Cerr "Player reader: Couldn't open input file!"]).
    { intros q. unfold Player.open, Player.init. rewrite H1. reflexivity. }
    split; [ apply E | ].
    intros q tr0 Hq. unfold boot. rewrite Hq.
    unfold Player.open, Player.init. rewrite H1. reflexivity.
  - intros H2.
    assert (E : Player.new env junk
                = Exits 1 [OpenIn "audio2_s16le_mono_48k.raw";
                           Cout "NetworkReader: Couldn't open input file!"]).
    { unfold Player.new, NetworkReader.new, NetworkReader.initWaveform.
      rewrite H2. reflexivity. }
    split; [ exact E | ]. unfold boot. rewrite E. reflexivity.
Qed.

(** The amended C8 where the file source alone is missing, and where the
    network source alone is. *)
Lemma open_exits_on_missing_input_witness :
  Player.open env_no_file 0 "a" "b" new_512
  = Exits 1 [OpenOut "audio_output.raw"; OpenOut "realtime_stats.txt";
             OpenIn "audio1_s16le_mono_48k.raw";
             Cerr "Player reader: Couldn't open input file!"]
  /\ boot env_no_file "a" "b" blank
     = Exits 1 [OpenIn "audio2_s16le_mono_48k.raw";
                OpenOut "audio_output.raw"; OpenOut "realtime_stats.txt";
                OpenIn "audio1_s16le_mono_48k.raw";
                Cerr "Player reader: Couldn't open input file!"]
  /\ Player.new env_no_network blank
     = Exits 1 [OpenIn "audio2_s16le_mono_48k.raw";
                Cout "NetworkReader: Couldn't open input file!"]
  /\ boot env_no_network "a" "b" blank
     = Exits 1 [OpenIn "audio2_s16le_mono_48k.raw";
                Cout "NetworkReader: Couldn't open input file!"].
Proof.
  destruct (open_exits_on_missing_input env_no_file 0 "a" "b" new_512 blank)
    as [A _].
  destruct (open_exits_on_missing_input env_no_network 0 "a" "b" blank blank)
    as [_ B].
  destruct (A eq_refl) as [A1 A2].
  split; [ exact A1 | ].
  split; [ exact (A2 new_512 [OpenIn "audio2_s16le_mono_48k.raw"] eq_refl) | ].
  exact (B eq_refl).
Defined.

(** ** C10: [open()] does not use its arguments *)

(** C10. Whatever [networkUrl] and [filename] are, [open()] does the
    same: two calls with different arguments give the same outcome (player
    and trace). On any player, [open()] names no input file but
    "audio1_s16le_mono_48k.raw" and no output file but "audio_output.raw"
    and "realtime_stats.txt". The [open()] of a newly constructed player
    opens the sinks on "audio_output.raw" and "realtime_stats.txt" and the
    file source on "audio1_s16le_mono_48k.raw", and the constructor the
    network source on "audio2_s16le_mono_48k.raw"; each source is loaded
    with the samples of its file (a file of an even number of bytes below
    2 GiB). *)
Theorem open_ignores_its_arguments env k url1 file1 url2 file2 p junk :
  Player.open env k url1 file1 p = Player.open env k url2 file2 p
  /\ (forall f,
        (In (OpenIn f) (trace_of (Player.open env k url1 file1 p)) ->
         f = "audio1_s16le_mono_48k.raw"%string)
        /\ (In (OpenOut f) (trace_of (Player.open env k url1 file1 p)) ->
            f = "audio_output.raw"%string \/ f = "realtime_stats.txt"%string))
  /\ (forall q tr0,
        Player.new env junk = Returns q tr0 ->
        opened_files (trace_of (Player.open env k url1 file1 q))
        = ["audio_output.raw"; "realtime_stats.txt"; "audio1_s16le_mono_48k.raw"]%string)
  /\ opened_files (trace_of (Player.new env junk)) = ["audio2_s16le_mono_48k.raw"%string]
  /\ (forall bytes,
        files env "audio1_s16le_mono_48k.raw" = Some bytes ->
        Z.of_nat (length bytes) < 2 ^ 31 ->
        Z.even (Z.of_nat (length bytes)) = true ->
        exists p' tr,
          Player.open env k url1 file1 p = Returns p' tr
          /\ Player.m_saw p' = samples_of_bytes bytes)
  /\ (forall bytes,
        files env "audio2_s16le_mono_48k.raw" = Some bytes ->
        Z.of_nat (length bytes) < 2 ^ 31 ->
        Z.even (Z.of_nat (length bytes)) = true ->
        exists p' tr,
          Player.new env junk = Returns p' tr
          /\ NetworkReader.m_saw (Player.nr p') = samples_of_bytes bytes).
Proof.
  split; [ reflexivity | ].
  split.
  { intros f. unfold Player.open, Player.init.
    destruct (files env "audio1_s16le_mono_48k.raw"); cbn [trace_of];
      split; intros H; repeat (destruct H as [ H | H ]; try discriminate H);
        try contradiction; injection H as <-; auto. }
  split.
  { intros q tr0 _. unfold Player.open, Player.init.
    destruct (files env "audio1_s16le_mono_48k.raw"); reflexivity. }
  split.
  { unfold Player.new, NetworkReader.new, NetworkReader.initWaveform.
    destruct (files env "audio2_s16le_mono_48k.raw"); reflexivity. }
  split.
  - intros bytes H _ _. unfold Player.open, Player.init. rewrite H.
    do 2 eexists. split; reflexivity.
  - intros bytes H _ _. unfold Player.new, NetworkReader.new, NetworkReader.initWaveform.
    rewrite H. do 2 eexists. split; reflexivity.
Qed.

(** C10 where both sources hold the one sample 512, for the player the
    constructor leaves. *)
Lemma open_ignores_its_arguments_witness :
  Player.open env_512 0 "a" "b" new_512 = Player.open env_512 0 "c" "d" new_512
  /\ (forall f,
        (In (OpenIn f) (trace_of (Player.open env_512 0 "a" "b" new_512)) ->
         f = "audio1_s16le_mono_48k.raw"%string)
        /\ (In (OpenOut f) (trace_of (Player.open env_512 0 "a" "b" new_512)) ->
            f = "audio_output.raw"%string \/ f = "realtime_stats.txt"%string))
  /\ opened_files (trace_of (Player.open env_512 0 "a" "b" new_512))
     = ["audio_output.raw"; "realtime_stats.txt"; "audio1_s16le_mono_48k.raw"]%string
  /\ opened_files (trace_of (Player.new env_512 blank)) = ["audio2_s16le_mono_48k.raw"%string]
  /\ (exists p' tr,
        Player.open env_512 0 "a" "b" new_512 = Returns p' tr
        /\ Player.m_saw p' = samples_of_bytes [0; 2])
  /\ (exists p' tr,
        Player.new env_512 blank = Returns p' tr
        /\ NetworkReader.m_saw (Player.nr p') = samples_of_bytes [0; 2]).
Proof.
  destruct (open_ignores_its_arguments env_512 0 "a" "b" "c" "d" new_512 blank)
    as (A & A' & B & C & D & E).
  split; [ exact A | ]. split; [ exact A' | ].
  split; [ exact (B new_512 [OpenIn "audio2_s16le_mono_48k.raw"] eq_refl) | ].
  split; [ exact C | ].
  split; [ apply (D [0; 2]); reflexivity | apply (E [0; 2]); reflexivity ].
Defined.

(** ** Binary64 rounding *)

Lemma pow2_pos n : 0 <= n -> 0 < 2 ^ n.
Proof. intros H. apply Z.pow_pos_nonneg; lia. Qed.

Lemma rne_spec x n : 0 <= n -> nearest_even (2 ^ n) x (rne x n).
Proof.
  intros Hn. pose proof (pow2_pos n Hn) as HP.
  unfold rne, nearest_even.
  pose proof (Z.div_mod x (2 ^ n) ltac:(lia)) as Hdm.
  pose proof (Z.mod_pos_bound x (2 ^ n) HP) as Hr.
  set (q := x / 2 ^ n) in *. set (r := x mod 2 ^ n) in *. set (P := 2 ^ n) in *.
  destruct (Z.ltb_spec (2 * r) P) as [H1 | H1].
  - split; [ nia | ]. intros [H | H]; nia.
  - destruct (Z.eqb_spec (2 * r) P) as [H2 | H2].
    + destruct (Z.even q) eqn:Eq.
      * split; [ nia | ]. intros _. exact Eq.
      * split; [ nia | ]. intros _. rewrite Z.even_add, Eq. reflexivity.
    + split; [ nia | ]. intros [H | H]; nia.
Qed.

Lemma nearest_even_unique P x y1 y2 :
  0 < P -> nearest_even P x y1 -> nearest_even P x y2 -> y1 = y2.
Proof.
  intros HP [B1 T1] [B2 T2].
  assert (Hd : -1 <= y1 - y2 <= 1) by nia.
  assert (Hc : y1 - y2 = -1 \/ y1 = y2 \/ y1 - y2 = 1) by lia.
  destruct Hc as [Hc | [Hc | Hc]]; [ | exact Hc | ].
  - assert (E1 : Z.even y1 = true) by (apply T1; nia).
    assert (E2 : Z.even y2 = true) by (apply T2; nia).
    replace y2 with (y1 + 1) in E2 by lia.
    rewrite Z.even_add, E1 in E2. discriminate.
  - assert (E1 : Z.even y1 = true) by (apply T1; nia).
    assert (E2 : Z.even y2 = true) by (apply T2; nia).
    replace y1 with (y2 + 1) in E1 by lia.
    rewrite Z.even_add, E2 in E1. discriminate.
Qed.

Lemma rne_unique x n y : 0 <= n -> nearest_even (2 ^ n) x y -> rne x n = y.
Proof.
  intros Hn H. apply (nearest_even_unique (2 ^ n) x); auto using pow2_pos, rne_spec.
Qed.

Lemma iter_pos_nat {A : Type} (f : A -> A) p :
  forall x, iter_pos f p x = Nat.iter (Pos.to_nat p) f x.
Proof.
  induction p as [ p IH | p IH | ]; intros x; cbn [iter_pos].
  - rewrite !IH, Pos2Nat.inj_xI.
    replace (S (2 * Pos.to_nat p))%nat with (S (Pos.to_nat p + Pos.to_nat p)) by lia.
    rewrite Nat.iter_succ_r, Nat.iter_add. reflexivity.
  - rewrite !IH, Pos2Nat.inj_xO.
    replace (2 * Pos.to_nat p)%nat with (Pos.to_nat p + Pos.to_nat p)%nat by lia.
    rewrite Nat.iter_add. reflexivity.
  - reflexivity.
Qed.

Lemma shr_1_spec m r s :
  0 <= m ->
  shr_m (shr_1 (Build_shr_record m r s)) = m / 2
  /\ shr_r (shr_1 (Build_shr_record m r s)) = Z.odd m
  /\ shr_s (shr_1 (Build_shr_record m r s)) = r || s.
Proof.
  intros Hm. destruct m as [ | p | p ]; [ | | lia ].
  - repeat split.
  - destruct p as [ p | p | ]; cbn [shr_1 shr_m shr_r shr_s]; repeat split.
    + change (Z.pos p~1) with (2 * Z.pos p + 1). div_lia.
    + change (Z.pos p~0) with (2 * Z.pos p). div_lia.
Qed.

Lemma shr_iter M j :
  0 <= M ->
  shr_m (Nat.iter j shr_1 (Build_shr_record M false false)) = M / 2 ^ Z.of_nat j
  /\ flags_ok (shr_r (Nat.iter j shr_1 (Build_shr_record M false false)))
              (shr_s (Nat.iter j shr_1 (Build_shr_record M false false)))
              (M mod 2 ^ Z.of_nat j) (2 ^ Z.of_nat j).
Proof.
  intros HM. induction j as [ | j [IHm IHf] ].
  - change (Nat.iter 0 shr_1 (Build_shr_record M false false))
      with (Build_shr_record M false false).
    cbn [shr_m shr_r shr_s flags_ok]. change (2 ^ Z.of_nat 0) with 1.
    rewrite Z.div_1_r, Z.mod_1_r. split; reflexivity.
  - rewrite !Nat.iter_succ.
    destruct (Nat.iter j shr_1 (Build_shr_record M false false)) as [m r s].
    cbn [shr_m shr_r shr_s] in IHm, IHf.
    pose proof (pow2_pos (Z.of_nat j) ltac:(lia)) as HP.
    assert (Hm : 0 <= m) by (rewrite IHm; apply Z.div_pos; lia).
    destruct (shr_1_spec m r s Hm) as (E1 & E2 & E3). rewrite E1, E2, E3.
    rewrite Nat2Z.inj_succ, Z.pow_succ_r by lia.
    assert (Hq : M / (2 * 2 ^ Z.of_nat j) = m / 2).
    { rewrite IHm, Z.div_div by lia. f_equal. lia. }
    split; [ symmetry; exact Hq | ].
    assert (Hrem : M mod (2 * 2 ^ Z.of_nat j)
                   = M mod 2 ^ Z.of_nat j + 2 ^ Z.of_nat j * (m mod 2)).
    { rewrite IHm. rewrite (Z.mul_comm 2). apply Z.rem_mul_r; lia. }
    rewrite Hrem.
    pose proof (Z.mod_pos_bound M (2 ^ Z.of_nat j) HP) as Hb.
    rewrite Zodd_mod.
    pose proof (Z.mod_pos_bound m 2 ltac:(lia)) as Hb2.
    destruct (Z.eqb_spec (m mod 2) 1) as [Ho | Ho].
    + rewrite Ho. destruct r, s; cbn [flags_ok orb] in *; nia.
    + assert (Hz : m mod 2 = 0) by lia. rewrite Hz.
      destruct r, s; cbn [flags_ok orb] in *; nia.
Qed.

Lemma round_flags q r s rem n :
  0 <= n -> 0 <= rem < 2 ^ n ->
  flags_ok r s rem (2 ^ n) ->
  round_nearest_even q (loc_of_shr_record (Build_shr_record q r s))
  = if 2 * rem <? 2 ^ n then q
    else if 2 * rem =? 2 ^ n then (if Z.even q then q else q + 1)
    else q + 1.
Proof.
  intros Hn Hrem Hf.
  destruct r, s; cbn [flags_ok loc_of_shr_record round_nearest_even] in *.
  - destruct (Z.ltb_spec (2 * rem) (2 ^ n)); [ lia | ].
    destruct (Z.eqb_spec (2 * rem) (2 ^ n)); [ lia | reflexivity ].
  - destruct (Z.ltb_spec (2 * rem) (2 ^ n)); [ lia | ].
    destruct (Z.eqb_spec (2 * rem) (2 ^ n)); [ reflexivity | lia ].
  - destruct (Z.ltb_spec (2 * rem) (2 ^ n)); [ reflexivity | lia ].
  - destruct (Z.ltb_spec (2 * rem) (2 ^ n)); [ reflexivity | ].
    pose proof (pow2_pos n Hn). lia.
Qed.

(** Shifting [M] right by [n] and rounding what the record says gives
    [rne M n]. *)
Lemma shr_rne M E n :
  0 <= M -> 0 < n ->
  snd (shr (Build_shr_record M false false) E n) = E + n
  /\ round_nearest_even
       (shr_m (fst (shr (Build_shr_record M false false) E n)))
       (loc_of_shr_record (fst (shr (Build_shr_record M false false) E n)))
     = rne M n.
Proof.
  intros HM Hn. destruct n as [ | p | p ]; [ lia | | lia ].
  cbn [shr fst snd]. split; [ reflexivity | ].
  rewrite iter_pos_nat.
  destruct (shr_iter M (Pos.to_nat p) HM) as [Em Ef].
  rewrite positive_nat_Z in Em, Ef.
  destruct (Nat.iter (Pos.to_nat p) shr_1 (Build_shr_record M false false)) as [q r s].
  cbn [shr_m shr_r shr_s] in *.
  rewrite (round_flags q r s (M mod 2 ^ Z.pos p) (Z.pos p)); [ | lia | | exact Ef ].
  - unfold rne. rewrite Em. reflexivity.
  - apply Z.mod_pos_bound. apply pow2_pos. lia.
Qed.

(** ** Digits *)

Lemma digits_bounds p :
  2 ^ (Z.pos (digits2_pos p) - 1) <= Z.pos p < 2 ^ Z.pos (digits2_pos p).
Proof.
  induction p as [ p IH | p IH | ]; cbn [digits2_pos].
  - rewrite Pos2Z.inj_succ. change (Z.pos p~1) with (2 * Z.pos p + 1).
    replace (Z.succ (Z.pos (digits2_pos p)) - 1) with (Z.succ (Z.pos (digits2_pos p) - 1)) by lia.
    rewrite !Z.pow_succ_r by lia.
    set (a := 2 ^ (Z.pos (digits2_pos p) - 1)) in *.
    set (b := 2 ^ (Z.pos (digits2_pos p))) in *. lia.
  - rewrite Pos2Z.inj_succ. change (Z.pos p~0) with (2 * Z.pos p).
    replace (Z.succ (Z.pos (digits2_pos p)) - 1) with (Z.succ (Z.pos (digits2_pos p) - 1)) by lia.
    rewrite !Z.pow_succ_r by lia.
    set (a := 2 ^ (Z.pos (digits2_pos p) - 1)) in *.
    set (b := 2 ^ (Z.pos (digits2_pos p))) in *. lia.
  - cbn. lia.
Qed.

Lemma digits_unique p d :
  2 ^ (d - 1) <= Z.pos p < 2 ^ d -> Z.pos (digits2_pos p) = d.
Proof.
  intros [Hlo Hhi]. pose proof (digits_bounds p) as [Blo Bhi].
  assert (Hd : 0 < d).
  { destruct (Z.ltb_spec 0 d) as [ H | H ]; [ exact H | ].
    destruct (Z.eqb_spec d 0) as [ -> | Hn ]; [ cbn in Hhi; lia | ].
    rewrite (Z.pow_neg_r 2 d) in Hhi by lia. lia. }
  assert (H1 : 2 ^ (d - 1) < 2 ^ Z.pos (digits2_pos p)) by lia.
  assert (H2 : 2 ^ (Z.pos (digits2_pos p) - 1) < 2 ^ d) by lia.
  apply Z.pow_lt_mono_r_iff in H1; [ | lia | lia ].
  apply Z.pow_lt_mono_r_iff in H2; [ | lia | lia ].
  lia.
Qed.

Lemma fexp_normal e : -1021 <= e -> fexp prec emax e = e - 53.
Proof.
  intros H. unfold fexp, SpecFloat.emin, prec, emax. lia.
Qed.

(** ** [binary_round_aux], no bit to round *)

Lemma binary_round_aux_exact s M E :
  Z.pos (digits2_pos M) = 53 -> -1074 <= E <= 971 ->
  binary_round_aux prec emax s (Z.pos M) E loc_Exact = S754_finite s M E.
Proof.
  intros Hd HE. unfold binary_round_aux, shr_fexp.
  cbn [Zdigits2]. rewrite Hd, fexp_normal by lia.
  replace (53 + E - 53 - E) with 0 by lia.
  cbn [shr_record_of_loc shr shr_m loc_of_shr_record round_nearest_even Zdigits2].
  rewrite Hd, fexp_normal by lia.
  replace (53 + E - 53 - E) with 0 by lia.
  cbn [shr shr_m]. 
  replace (E <=? emax - prec) with true; [ reflexivity | ].
  symmetry. apply Z.leb_le. unfold emax, prec. lia.
Qed.

Lemma rne_bounds M n :
  0 < n -> 2 ^ 52 * 2 ^ n <= M < 2 ^ 53 * 2 ^ n ->
  2 ^ 52 <= rne M n <= 2 ^ 53.
Proof.
  intros Hn HM. destruct (rne_spec M n ltac:(lia)) as [B _].
  pose proof (pow2_pos n ltac:(lia)). nia.
Qed.

(** ** [binary_round_aux], [d - 53] bits to round *)

Lemma binary_round_aux_round s M E d :
  2 ^ (d - 1) <= Z.pos M < 2 ^ d -> 53 < d ->
  -1074 <= E + d - 53 <= 970 ->
  binary_round_aux prec emax s (Z.pos M) E loc_Exact
  = if rne (Z.pos M) (d - 53) =? 2 ^ 53
    then S754_finite s (Z.to_pos (2 ^ 52)) (E + d - 52)
    else S754_finite s (Z.to_pos (rne (Z.pos M) (d - 53))) (E + d - 53).
Proof.
  intros HM Hd HE.
  pose proof (digits_unique M d HM) as Hdig.
  assert (Hb : 2 ^ 52 <= rne (Z.pos M) (d - 53) <= 2 ^ 53).
  { apply rne_bounds; [ lia | ].
    rewrite <- !Z.pow_add_r by lia.
    replace (52 + (d - 53)) with (d - 1) by lia.
    replace (53 + (d - 53)) with d by lia. exact HM. }
  unfold binary_round_aux, shr_fexp at 1.
  cbn [Zdigits2]. rewrite Hdig, fexp_normal by lia.
  replace (d + E - 53 - E) with (d - 53) by lia.
  cbn [shr_record_of_loc].
  destruct (shr_rne (Z.pos M) E (d - 53)) as [Ee Er]; [ lia | lia | ].
  destruct (shr (Build_shr_record (Z.pos M) false false) E (d - 53)) as [mrs e'].
  cbn [fst snd] in Ee, Er. subst e'. rewrite Er.
  set (r := rne (Z.pos M) (d - 53)) in *.
  destruct (Z.eqb_spec r (2 ^ 53)) as [E53 | N53].
  - rewrite E53. unfold shr_fexp.
    replace (Zdigits2 (2 ^ 53)) with 54 by (vm_compute; reflexivity).
    rewrite fexp_normal by lia.
    replace (54 + (E + (d - 53)) - 53 - (E + (d - 53))) with 1 by lia.
    change (shr (shr_record_of_loc (2 ^ 53) loc_Exact) (E + (d - 53)) 1)
      with (Build_shr_record 4503599627370496 false false, E + (d - 53) + 1).
    cbn [shr_m].
    replace (E + (d - 53) + 1 <=? emax - prec) with true.
    + f_equal. lia.
    + symmetry. apply Z.leb_le. unfold emax, prec. lia.
  - assert (Hr : 2 ^ 52 <= r < 2 ^ 53) by lia.
    destruct r as [ | pr | pr ]; [ cbn in Hr; lia | | lia ].
    unfold shr_fexp. cbn [Zdigits2].
    rewrite (digits_unique pr 53) by (change (53 - 1) with 52; exact Hr).
    rewrite fexp_normal by lia.
    replace (53 + (E + (d - 53)) - 53 - (E + (d - 53))) with 0 by lia.
    cbn [shr_record_of_loc shr shr_m].
    replace (E + (d - 53) <=? emax - prec) with true.
    + f_equal. lia.
    + symmetry. apply Z.leb_le. unfold emax, prec. lia.
Qed.

(** ** [shl_align] and [binary_round] *)

Lemma iter_xO_pow mx d : Z.pos (Pos.iter xO mx d) = Z.pos mx * 2 ^ Z.pos d.
Proof.
  change (Pos.iter xO mx d) with (shift_pos d mx).
  rewrite shift_pos_correct. change (Z.pow_pos 2 d) with (2 ^ Z.pos d). lia.
Qed.

Lemma shl_align_spec mx ex ez :
  ez <= ex ->
  Z.pos (fst (shl_align mx ex ez)) = Z.pos mx * 2 ^ (ex - ez)
  /\ snd (shl_align mx ex ez) = ez.
Proof.
  intros H. unfold shl_align.
  destruct (ez - ex) as [ | p | p ] eqn:E; [ | lia | ].
  - cbn [fst snd]. replace (ex - ez) with 0 by lia. split; lia.
  - cbn [fst snd]. rewrite iter_xO_pow. replace (ex - ez) with (Z.pos p) by lia.
    split; reflexivity.
Qed.

Lemma binary_round_spec s M E d :
  2 ^ (d - 1) <= Z.pos M < 2 ^ d -> -1074 <= E + d - 53 <= 970 ->
  binary_round prec emax s M E
  = if d <=? 53
    then S754_finite s (Z.to_pos (Z.pos M * 2 ^ (53 - d))) (E + d - 53)
    else if rne (Z.pos M) (d - 53) =? 2 ^ 53
         then S754_finite s (Z.to_pos (2 ^ 52)) (E + d - 52)
         else S754_finite s (Z.to_pos (rne (Z.pos M) (d - 53))) (E + d - 53).
Proof.
  intros HM HE. pose proof (digits_unique M d HM) as Hdig.
  unfold binary_round. rewrite Hdig, fexp_normal by lia.
  destruct (Z.leb_spec d 53) as [Hd | Hd].
  - destruct (shl_align_spec M E (d + E - 53)) as [Em Ee]; [ lia | ].
    destruct (shl_align M E (d + E - 53)) as [mz ez]. cbn [fst snd] in Em, Ee. subst ez.
    replace (E - (d + E - 53)) with (53 - d) in Em by lia.
    rewrite <- Em. cbn [Z.to_pos].
    replace (d + E - 53) with (E + d - 53) by lia.
    apply binary_round_aux_exact; [ | lia ].
    apply digits_unique. rewrite Em. change (53 - 1) with 52.
    replace (2 ^ 52) with (2 ^ (d - 1) * 2 ^ (53 - d)).
    2:{ rewrite <- Z.pow_add_r by lia. f_equal. lia. }
    replace (2 ^ 53) with (2 ^ d * 2 ^ (53 - d)).
    2:{ rewrite <- Z.pow_add_r by lia. f_equal. lia. }
    pose proof (pow2_pos (53 - d) ltac:(lia)). nia.
  - unfold shl_align.
    destruct (d + E - 53 - E) as [ | p | p ] eqn:Ep; [ lia | | lia ].
    apply binary_round_aux_round; assumption.
Qed.

(** ** Halving *)

Lemma div_eucl_div_mod a b : Z.div_eucl a b = (a / b, a mod b).
Proof.
  unfold Z.div, Z.modulo. destruct (Z.div_eucl a b). reflexivity.
Qed.

Lemma SFdiv_two s M E :
  Z.pos (digits2_pos M) = 53 -> -1000 <= E <= 971 ->
  SFdiv prec emax (S754_finite s M E) sf_two = S754_finite s M (E - 1).
Proof.
  intros Hd HE. unfold sf_two, SFdiv, SFdiv_core_binary.
  cbn [Zdigits2]. rewrite Hd.
  replace (Z.pos (digits2_pos 4503599627370496)) with 53 by (vm_compute; reflexivity).
  rewrite fexp_normal by lia.
  replace (Z.min (53 + E - (53 + -51) - 53) (E - -51)) with (E - 2) by lia.
  replace (E - -51 - (E - 2)) with 53 by lia.
  cbv iota beta.
  rewrite div_eucl_div_mod.
  rewrite Z.shiftl_mul_pow2 by lia.
  replace (Z.pos M * 2 ^ 53) with (2 * Z.pos M * 4503599627370496) by lia.
  rewrite Z.div_mul, Z.mod_mul by lia.
  change (new_location 4503599627370496 0) with loc_Exact.
  change (2 * Z.pos M) with (Z.pos M~0).
  rewrite (binary_round_aux_round (xorb s false) (M~0) (E - 2) 54).
  - assert (Hr : rne (Z.pos M~0) (54 - 53) = Z.pos M).
    { apply rne_unique; [ lia | ]. unfold nearest_even.
      change (Z.pos M~0) with (2 * Z.pos M). change (2 ^ (54 - 53)) with 2. lia. }
    rewrite Hr.
    pose proof (digits_bounds M) as Hb. rewrite Hd in Hb.
    destruct (Z.eqb_spec (Z.pos M) (2 ^ 53)) as [He | He]; [ lia | ].
    rewrite xorb_false_r. cbn [Z.to_pos]. f_equal. lia.
  - pose proof (digits_bounds M) as Hb. rewrite Hd in Hb.
    change (Z.pos M~0) with (2 * Z.pos M). change (54 - 1) with 53.
    change (2 ^ 54) with (2 * 2 ^ 53). change (2 ^ 53) with (2 * 2 ^ (53 - 1)) at 1. lia.
  - lia.
  - lia.
Qed.

(** ** Rounding sums and differences *)

Lemma rne_add_even Y x n :
  0 <= n -> Z.even Y = true -> rne (Y * 2 ^ n + x) n = Y + rne x n.
Proof.
  intros Hn HY. apply rne_unique; [ exact Hn | ].
  destruct (rne_spec x n Hn) as [B T]. unfold nearest_even.
  replace (2 * (Y * 2 ^ n + x) - 2 * (Y + rne x n) * 2 ^ n)
    with (2 * x - 2 * rne x n * 2 ^ n) by ring.
  split; [ exact B | ]. intros H. rewrite Z.even_add, HY, (T H). reflexivity.
Qed.

Lemma rne_sub_even Y x n :
  0 <= n -> Z.even Y = true -> rne (Y * 2 ^ n - x) n = Y - rne x n.
Proof.
  intros Hn HY. apply rne_unique; [ exact Hn | ].
  destruct (rne_spec x n Hn) as [B T]. unfold nearest_even.
  replace (2 * (Y * 2 ^ n - x) - 2 * (Y - rne x n) * 2 ^ n)
    with (- (2 * x - 2 * rne x n * 2 ^ n)) by ring.
  split; [ lia | ]. intros H. rewrite Z.even_sub, HY, T; [ reflexivity | lia ].
Qed.

Lemma rne_0 x : rne x 0 = x.
Proof.
  apply rne_unique; [ lia | ]. unfold nearest_even. change (2 ^ 0) with 1.
  split; [ lia | ]. intros H. lia.
Qed.

(** Rounding one bit further halves the result, up to one unit. *)
Lemma rne_next x n : 0 <= n -> -1 <= 2 * rne x (n + 1) - rne x n <= 1.
Proof.
  intros Hn. destruct (rne_spec x n Hn) as [B0 _].
  destruct (rne_spec x (n + 1) ltac:(lia)) as [B1 _].
  rewrite Z.pow_add_r in B1 by lia. change (2 ^ 1) with 2 in B1.
  pose proof (pow2_pos n Hn) as HP.
  hide_pow n. nia.
Qed.

Lemma rne_range x n B :
  0 <= n -> 0 <= x <= B * 2 ^ n -> 0 <= rne x n <= B.
Proof.
  intros Hn Hx. destruct (rne_spec x n Hn) as [B0 _].
  pose proof (pow2_pos n Hn) as HP.
  hide_pow n. nia.
Qed.

(** ** The two gains *)

Lemma one_plus_minus s m e :
  e <= -52 ->
  SFadd prec emax sf_one (S754_finite s m e)
  = binary_normalize prec emax (2 ^ (- e) + cond_Zopp s (Z.pos m)) e false
  /\ SFsub prec emax sf_one (S754_finite s m e)
     = binary_normalize prec emax (2 ^ (- e) - cond_Zopp s (Z.pos m)) e false.
Proof.
  intros He. unfold sf_one, SFadd, SFsub.
  rewrite Z.min_r by lia.
  destruct (shl_align_spec 4503599627370496 (-52) e He) as [E1 _].
  destruct (shl_align_spec m e e (Z.le_refl e)) as [E2 _].
  rewrite Z.sub_diag, Z.mul_1_r in E2.
  assert (E1' : Z.pos (fst (shl_align 4503599627370496 (-52) e)) = 2 ^ (- e)).
  { rewrite E1. change 4503599627370496 with (2 ^ 52).
    rewrite <- Z.pow_add_r by lia. f_equal. lia. }
  cbn [cond_Zopp]. rewrite E1', E2. split; reflexivity.
Qed.

Lemma sum_shape m k :
  53 <= k <= 1074 -> 1 <= Z.pos m < 2 ^ 53 ->
  exists MS ES,
    binary_normalize prec emax (2 ^ k + Z.pos m) (- k) false = S754_finite false MS ES
    /\ Z.pos (digits2_pos MS) = 53
    /\ -52 <= ES <= -51
    /\ Z.pos MS * 2 ^ (ES + 200) = (2 ^ 52 + rne (Z.pos m) (k - 52)) * 2 ^ 148
    /\ (ES = -51 -> Z.pos MS = 2 ^ 52)
    /\ (rne (Z.pos m) (k - 52) = 0 -> Z.pos MS = 2 ^ 52 /\ ES = -52).
Proof.
  intros Hk Hm.
  pose proof (pow2_pos k ltac:(lia)) as HA.
  assert (Hk1 : 2 ^ (k + 1) = 2 * 2 ^ k) by (rewrite Z.pow_add_r by lia; lia).
  assert (H53 : 2 ^ 53 <= 2 ^ k) by (apply Z.pow_le_mono_r; lia).
  assert (HA2 : 2 ^ k = 2 ^ 52 * 2 ^ (k - 52)).
  { rewrite <- Z.pow_add_r by lia. f_equal. lia. }
  assert (Hr1 : 0 <= rne (Z.pos m) (k - 52) <= 2 ^ 52).
  { apply rne_range; [ lia | ]. rewrite <- HA2. lia. }
  destruct (2 ^ k + Z.pos m) as [ | p | p ] eqn:Ep; [ lia | | lia ].
  cbn [binary_normalize].
  rewrite (binary_round_spec false p (- k) (k + 1)).
  2:{ replace (k + 1 - 1) with k by lia. rewrite Hk1. lia. }
  2:{ lia. }
  destruct (Z.leb_spec (k + 1) 53) as [ H | _ ]; [ lia | ].
  replace (k + 1 - 53) with (k - 52) by lia.
  assert (Er : rne (Z.pos p) (k - 52) = 2 ^ 52 + rne (Z.pos m) (k - 52)).
  { rewrite <- Ep, HA2. apply rne_add_even; [ lia | reflexivity ]. }
  rewrite Er.
  set (r1 := rne (Z.pos m) (k - 52)) in *. clearbody r1.
  destruct (Z.eqb_spec (2 ^ 52 + r1) (2 ^ 53)) as [He | Hne].
  - exists (Z.to_pos (2 ^ 52)), (- k + (k + 1) - 52).
    split; [ reflexivity | ].
    replace (- k + (k + 1) - 52) with (-51) by lia.
    split; [ reflexivity | ]. split; [ lia | ].
    split; [ rewrite He; reflexivity | ].
    split; [ intros _; reflexivity | ].
    intros Hz. rewrite Hz in He. cbn in He. lia.
  - exists (Z.to_pos (2 ^ 52 + r1)), (- k + (k + 1) - 53).
    split; [ reflexivity | ].
    replace (- k + (k + 1) - 53) with (-52) by lia.
    assert (Hp : Z.pos (Z.to_pos (2 ^ 52 + r1)) = 2 ^ 52 + r1) by (apply Z2Pos.id; lia).
    split; [ apply digits_unique; rewrite Hp; change (53 - 1) with 52; lia | ].
    split; [ lia | ]. rewrite Hp.
    split; [ reflexivity | ].
    split; [ intros H; lia | ].
    intros Hz. rewrite Hz. split; [ reflexivity | reflexivity ].
Qed.

Lemma diff_shape m k :
  53 <= k <= 1074 -> 1 <= Z.pos m < 2 ^ 53 ->
  exists MD ED,
    binary_normalize prec emax (2 ^ k - Z.pos m) (- k) false = S754_finite false MD ED
    /\ Z.pos (digits2_pos MD) = 53
    /\ -160 <= ED <= -52
    /\ Z.pos MD * 2 ^ (ED + 200) = (2 ^ 53 - rne (Z.pos m) (k - 53)) * 2 ^ 147
    /\ (rne (Z.pos m) (k - 53) = 0 -> Z.pos MD = 2 ^ 52 /\ ED = -52)
    /\ (rne (Z.pos m) (k - 53) <> 0 -> ED <= -53).
Proof.
  intros Hk Hm.
  pose proof (pow2_pos k ltac:(lia)) as HA.
  assert (H53 : 2 ^ 53 <= 2 ^ k) by (apply Z.pow_le_mono_r; lia).
  destruct (2 ^ k - Z.pos m) as [ | p | p ] eqn:Ep; [ lia | | lia ].
  cbn [binary_normalize].
  destruct (Z.eqb_spec k 53) as [ -> | Hk' ].
  - (* the difference is exact *)
    rewrite Z.sub_diag, rne_0. change (Z.opp 53) with (-53).
    pose proof (digits_bounds p) as Hb.
    set (d := Z.pos (digits2_pos p)) in *.
    assert (Hd : 1 <= d <= 53).
    { split; [ unfold d; lia | ].
      destruct (Z.leb_spec d 53) as [ H | H ]; [ exact H | ].
      assert (2 ^ 53 <= 2 ^ (d - 1)) by (apply Z.pow_le_mono_r; lia). lia. }
    rewrite (binary_round_spec false p (- 53) d Hb) by lia.
    destruct (Z.leb_spec d 53) as [ _ | H ]; [ | lia ].
    pose proof (pow2_pos (53 - d) ltac:(lia)) as Hc.
    assert (Hlo : 2 ^ 52 = 2 ^ (d - 1) * 2 ^ (53 - d)).
    { rewrite <- Z.pow_add_r by lia. f_equal. lia. }
    assert (Hhi : 2 ^ 53 = 2 ^ d * 2 ^ (53 - d)).
    { rewrite <- Z.pow_add_r by lia. f_equal. lia. }
    assert (Hp : Z.pos (Z.to_pos (Z.pos p * 2 ^ (53 - d))) = Z.pos p * 2 ^ (53 - d))
      by (apply Z2Pos.id; nia).
    exists (Z.to_pos (Z.pos p * 2 ^ (53 - d))), (- 53 + d - 53).
    split; [ reflexivity | ].
    split.
    { apply digits_unique. rewrite Hp. change (53 - 1) with 52.
      rewrite Hlo, Hhi.
      hide_pow (53 - d).
      destruct Hb as [Hb1 Hb2]. split; nia. }
    split; [ lia | ]. rewrite Hp.
    split.
    { rewrite Ep. rewrite <- Z.mul_assoc, <- Z.pow_add_r by lia.
      f_equal. f_equal. lia. }
    split; [ intros H; lia | intros _; lia ].
  - (* the difference is rounded to 53 bits *)
    assert (Hk1 : 2 ^ k = 2 * 2 ^ (k - 1)).
    { replace k with (k - 1 + 1) at 1 by lia. rewrite Z.pow_add_r by lia. lia. }
    assert (H54 : 2 ^ 53 <= 2 ^ (k - 1)) by (apply Z.pow_le_mono_r; lia).
    assert (HA2 : 2 ^ k = 2 ^ 53 * 2 ^ (k - 53)).
    { rewrite <- Z.pow_add_r by lia. f_equal. lia. }
    assert (HA3 : 2 ^ (k - 1) = 2 ^ 52 * 2 ^ (k - 53)).
    { rewrite <- Z.pow_add_r by lia. f_equal. lia. }
    assert (Hr0 : 0 <= rne (Z.pos m) (k - 53) <= 2 ^ 52).
    { apply rne_range; [ lia | ]. rewrite <- HA3. lia. }
    rewrite (binary_round_spec false p (- k) k) by lia.
    destruct (Z.leb_spec k 53) as [ H | _ ]; [ lia | ].
    assert (Er : rne (Z.pos p) (k - 53) = 2 ^ 53 - rne (Z.pos m) (k - 53)).
    { rewrite <- Ep, HA2. apply rne_sub_even; [ lia | reflexivity ]. }
    rewrite Er.
    set (r0 := rne (Z.pos m) (k - 53)) in *. clearbody r0.
    destruct (Z.eqb_spec (2 ^ 53 - r0) (2 ^ 53)) as [He | Hne].
    + exists (Z.to_pos (2 ^ 52)), (- k + k - 52).
      split; [ reflexivity | ].
      replace (- k + k - 52) with (-52) by lia.
      split; [ reflexivity | ]. split; [ lia | ].
      split; [ rewrite He; reflexivity | ].
      split; [ intros _; split; reflexivity | ].
      intros Hnz. lia.
    + exists (Z.to_pos (2 ^ 53 - r0)), (- k + k - 53).
      split; [ reflexivity | ].
      replace (- k + k - 53) with (-53) by lia.
      assert (Hp : Z.pos (Z.to_pos (2 ^ 53 - r0)) = 2 ^ 53 - r0) by (apply Z2Pos.id; lia).
      split; [ apply digits_unique; rewrite Hp; change (53 - 1) with 52; lia | ].
      split; [ lia | ]. rewrite Hp.
      split; [ reflexivity | ].
      split; [ intros Hz; lia | intros _; lia ].
Qed.

(** ** The sum of the two gains *)

Lemma final_add M1 E1 M2 E2 delta :
  -200 <= E1 <= 0 -> -200 <= E2 <= 0 -> Z.min E1 E2 <= -54 ->
  -1 <= delta <= 1 ->
  Z.pos M1 * 2 ^ (E1 + 200) + Z.pos M2 * 2 ^ (E2 + 200) = (2 ^ 54 + delta) * 2 ^ 146 ->
  SFadd prec emax (S754_finite false M1 E1) (S754_finite false M2 E2) = sf_one.
Proof.
  intros HE1 HE2 Hmin Hdelta Hval. unfold SFadd.
  set (ez := Z.min E1 E2) in *.
  destruct (shl_align_spec M1 E1 ez ltac:(unfold ez; lia)) as [A1 _].
  destruct (shl_align_spec M2 E2 ez ltac:(unfold ez; lia)) as [A2 _].
  set (a := fst (shl_align M1 E1 ez)) in *. set (b := fst (shl_align M2 E2 ez)) in *.
  cbn [cond_Zopp Z.add binary_normalize].
  set (c := -54 - ez).
  assert (Hc : 0 <= c) by (unfold c; lia).
  assert (Hsum : Z.pos (a + b) = (2 ^ 54 + delta) * 2 ^ c).
  { rewrite Pos2Z.inj_add, A1, A2.
    apply (Z.mul_reg_r _ _ (2 ^ (ez + 200))).
    { pose proof (pow2_pos (ez + 200) ltac:(unfold ez; lia)). lia. }
    rewrite Z.mul_add_distr_r, <- !Z.mul_assoc, <- !Z.pow_add_r by (unfold ez, c; lia).
    replace (E1 - ez + (ez + 200)) with (E1 + 200) by lia.
    replace (E2 - ez + (ez + 200)) with (E2 + 200) by lia.
    replace (c + (ez + 200)) with 146 by (unfold c; lia).
    exact Hval. }
  pose proof (pow2_pos c Hc) as HP.
  destruct (Z.eqb_spec delta (-1)) as [ -> | Hd ].
  - rewrite (binary_round_spec false (a + b) ez (54 + c)).
    + destruct (Z.leb_spec (54 + c) 53) as [ H | _ ]; [ lia | ].
      replace (54 + c - 53) with (c + 1) by lia.
      assert (Er : rne (Z.pos (a + b)) (c + 1) = 2 ^ 53).
      { apply rne_unique; [ lia | ]. rewrite Hsum. unfold nearest_even.
        rewrite Z.pow_add_r by lia. change (2 ^ 1) with 2.
        hide_pow c. split; [ lia | ]. intros _. reflexivity. }
      rewrite Er. cbn [Z.eqb]. rewrite Z.eqb_refl.
      unfold sf_one. f_equal. unfold c. lia.
    + rewrite Hsum. replace (54 + c - 1) with (53 + c) by lia.
      rewrite !Z.pow_add_r by lia.
      hide_pow c. lia.
    + unfold c. lia.
  - assert (Hd01 : delta = 0 \/ delta = 1) by lia. clear Hd Hdelta Hval.
    rewrite (binary_round_spec false (a + b) ez (55 + c)).
    + destruct (Z.leb_spec (55 + c) 53) as [ H | _ ]; [ lia | ].
      replace (55 + c - 53) with (c + 2) by lia.
      assert (Er : rne (Z.pos (a + b)) (c + 2) = 2 ^ 52).
      { apply rne_unique; [ lia | ]. rewrite Hsum. unfold nearest_even.
        rewrite Z.pow_add_r by lia. change (2 ^ 2) with 4.
        hide_pow c.
        split; [ destruct Hd01 as [ -> | -> ]; lia | ]. intros _. reflexivity. }
      rewrite Er.
      destruct (Z.eqb_spec (2 ^ 52) (2 ^ 53)) as [ H | _ ]; [ cbn in H; lia | ].
      unfold sf_one. f_equal. unfold c. lia.
    + rewrite Hsum. replace (55 + c - 1) with (54 + c) by lia.
      rewrite !Z.pow_add_r by lia.
      hide_pow c. destruct Hd01 as [ -> | -> ]; lia.
    + unfold c. lia.
Qed.

Lemma half_le_one M E :
  E <= -53 \/ (E = -52 /\ Z.pos M = 2 ^ 52) ->
  SFleb (S754_zero false) (S754_finite false M E) = true
  /\ SFleb (S754_finite false M E) sf_one = true.
Proof.
  intros H. split; [ reflexivity | ].
  unfold SFleb, SFcompare, sf_one.
  destruct H as [ H | [-> HM] ].
  - destruct (Z.compare_spec E (-52)); [ lia | reflexivity | lia ].
  - cbn [Z.compare]. cbn [Pos.compare]. change (2 ^ 52) with (Z.pos 4503599627370496) in HM.
    injection HM as ->. reflexivity.
Qed.

(** For a finite level [m 2^e] of either sign, with [e <= -53], the
    gains add up to one and lie between zero and one. *)
Lemma gains_finite s m e :
  -1074 <= e <= -53 -> 1 <= Z.pos m < 2 ^ 53 ->
  let x := S754_finite s m e in
  let ng := SFdiv prec emax (SFsub prec emax sf_one x) sf_two in
  let lg := SFdiv prec emax (SFadd prec emax sf_one x) sf_two in
  SFadd prec emax ng lg = sf_one
  /\ SFleb (S754_zero false) ng = true /\ SFleb ng sf_one = true
  /\ SFleb (S754_zero false) lg = true /\ SFleb lg sf_one = true.
Proof.
  intros He Hm. cbv zeta.
  destruct (one_plus_minus s m e ltac:(lia)) as [Ea Es]. rewrite Ea, Es.
  set (k := - e). assert (Hk : 53 <= k <= 1074) by (unfold k; lia).
  replace e with (- k) by (unfold k; lia).
  replace (- - k) with k by lia.
  destruct (sum_shape m k Hk Hm) as (MS & ES & ESx & HdS & HES & HvS & HS51 & HS0).
  destruct (diff_shape m k Hk Hm) as (MD & ED & EDx & HdD & HED & HvD & HD0 & HDn).
  replace (k - 52) with (k - 53 + 1) in HvS, HS0 by lia.
  pose proof (rne_next (Z.pos m) (k - 53) ltac:(lia)) as Hnext.
  set (r0 := rne (Z.pos m) (k - 53)) in *.
  set (r1 := rne (Z.pos m) (k - 53 + 1)) in *.
  assert (HhS : SFdiv prec emax (S754_finite false MS ES) sf_two
                = S754_finite false MS (ES - 1)) by (apply SFdiv_two; lia).
  assert (HhD : SFdiv prec emax (S754_finite false MD ED) sf_two
                = S754_finite false MD (ED - 1)) by (apply SFdiv_two; lia).
  assert (HbS : SFleb (S754_zero false) (S754_finite false MS (ES - 1)) = true
                /\ SFleb (S754_finite false MS (ES - 1)) sf_one = true).
  { apply half_le_one.
    destruct (Z.eqb_spec ES (-51)) as [ E51 | N51 ]; [ right | left; lia ].
    split; [ lia | apply HS51; exact E51 ]. }
  assert (HbD : SFleb (S754_zero false) (S754_finite false MD (ED - 1)) = true
                /\ SFleb (S754_finite false MD (ED - 1)) sf_one = true).
  { apply half_le_one. left. lia. }
  assert (Hsum : SFadd prec emax (S754_finite false MD (ED - 1))
                       (S754_finite false MS (ES - 1)) = sf_one
                 /\ SFadd prec emax (S754_finite false MS (ES - 1))
                          (S754_finite false MD (ED - 1)) = sf_one).
  { destruct (Z.eqb_spec r0 0) as [ Hz | Hnz ].
    - destruct (HD0 Hz) as [HMD HED']. assert (Hz1 : r1 = 0) by lia.
      destruct (HS0 Hz1) as [HMS HES'].
      change (2 ^ 52) with (Z.pos 4503599627370496) in HMD, HMS.
      injection HMD as ->. injection HMS as ->. subst ED ES.
      split; vm_compute; reflexivity.
    - specialize (HDn Hnz).
      assert (V1 : Z.pos MD * 2 ^ (ED - 1 + 200) = (2 ^ 53 - r0) * 2 ^ 146).
      { replace (ED + 200) with (ED - 1 + 200 + 1) in HvD by lia.
        rewrite Z.pow_add_r in HvD by lia.
        change (2 ^ 1) with 2 in HvD. change (2 ^ 147) with (2 ^ 146 * 2) in HvD.
        hide_pow (ED - 1 + 200). lia. }
      assert (V2 : Z.pos MS * 2 ^ (ES - 1 + 200) = (2 ^ 52 + r1) * 2 ^ 147).
      { replace (ES + 200) with (ES - 1 + 200 + 1) in HvS by lia.
        rewrite Z.pow_add_r in HvS by lia.
        change (2 ^ 1) with 2 in HvS. change (2 ^ 148) with (2 ^ 147 * 2) in HvS.
        hide_pow (ES - 1 + 200). lia. }
      split.
      + apply (final_add MD (ED - 1) MS (ES - 1) (2 * r1 - r0)); lia.
      + apply (final_add MS (ES - 1) MD (ED - 1) (2 * r1 - r0)); lia. }
  destruct s; cbn [cond_Zopp].
  - replace (2 ^ k - - Z.pos m) with (2 ^ k + Z.pos m) by lia.
    replace (2 ^ k + - Z.pos m) with (2 ^ k - Z.pos m) by lia.
    rewrite ESx, EDx, HhS, HhD.
    split; [ apply Hsum | ]. split; [ apply HbS | ]. split; [ apply HbS | ].
    split; [ apply HbD | apply HbD ].
  - rewrite ESx, EDx, HhS, HhD.
    split; [ apply Hsum | ]. split; [ apply HbD | ]. split; [ apply HbD | ].
    split; [ apply HbS | apply HbS ].
Qed.

(** ** Comparisons *)

Lemma pos_compare_antisym p q :
  Pos.compare_cont Eq p q = CompOpp (Pos.compare_cont Eq q p).
Proof. rewrite Pos.compare_cont_antisym. reflexivity. Qed.

Lemma SFcompare_antisym x y :
  SFcompare y x = option_map CompOpp (SFcompare x y).
Proof.
  destruct x as [ sx | sx | | sx mx ex ], y as [ sy | sy | | sy my ey ];
    try reflexivity;
    try (destruct sx; reflexivity); try (destruct sy; reflexivity);
    try (destruct sx, sy; reflexivity).
  cbn [SFcompare option_map].
  rewrite (Z.compare_antisym ex ey), (pos_compare_antisym my mx).
  destruct sx, sy; try reflexivity;
    destruct (ex ?= ey); cbn [CompOpp]; try reflexivity;
    destruct (Pos.compare_cont Eq mx my); reflexivity.
Qed.

(** Two numbers of which neither is at most the other: one is a NaN. *)
Lemma SFleb_total x y :
  SFleb x y = false -> SFcompare x x <> None -> SFcompare y y <> None ->
  SFleb y x = true.
Proof.
  unfold SFleb. rewrite (SFcompare_antisym x y).
  destruct x as [ sx | sx | | sx mx ex ], y as [ sy | sy | | sy my ey ];
    cbn [SFcompare option_map]; intros H Hx Hy; try congruence;
    try (destruct sx; cbn in *; congruence);
    try (destruct sy; cbn in *; congruence);
    try (destruct sx, sy; cbn in *; congruence).
  revert H.
  destruct sx, sy; cbn [CompOpp]; try congruence;
    destruct (ex ?= ey); cbn [CompOpp]; try congruence;
    destruct (Pos.compare_cont Eq mx my); cbn [CompOpp]; congruence.
Qed.

Lemma SFleb_finite_pos m e K E :
  SFleb (S754_finite false m e) (S754_finite false K E) = true ->
  e < E \/ (e = E /\ Z.pos m <= Z.pos K).
Proof.
  unfold SFleb, SFcompare.
  destruct (Z.compare_spec e E) as [ H | H | H ]; intros L.
  - right. split; [ exact H | ].
    destruct (Pos.compare_cont Eq m K) eqn:C; [ | | discriminate ].
    + apply (proj1 (Pos.compare_eq_iff m K)) in C. subst. lia.
    + apply (proj1 (Pos.compare_lt_iff m K)) in C. lia.
  - left. exact H.
  - discriminate.
Qed.

Lemma SFleb_finite_neg m e K E :
  SFleb (S754_finite true K E) (S754_finite true m e) = true ->
  e < E \/ (e = E /\ Z.pos m <= Z.pos K).
Proof.
  unfold SFleb, SFcompare.
  destruct (Z.compare_spec E e) as [ H | H | H ]; intros L.
  - right. split; [ symmetry; exact H | ].
    destruct (Pos.compare_cont Eq K m) eqn:C; cbn [CompOpp] in L; [ | discriminate | ].
    + apply (proj1 (Pos.compare_eq_iff K m)) in C. subst. lia.
    + apply (proj1 (Pos.compare_gt_iff K m)) in C. lia.
  - discriminate.
  - left. exact H.
Qed.

(** A valid number between -1 and 1 is a zero, plus or minus one, or
    below one in magnitude with exponent at most -53. *)
Lemma level_cases x :
  valid_binary x = true -> SFleb sf_mone x = true -> SFleb x sf_one = true ->
  (exists s, x = S754_zero s)
  \/ x = sf_one \/ x = sf_mone
  \/ exists s m e, x = S754_finite s m e /\ -1074 <= e <= -53 /\ 1 <= Z.pos m < 2 ^ 53.
Proof.
  intros Hv Hlo Hhi. destruct x as [ s | s | | s m e ].
  - left. eauto.
  - destruct s; [ discriminate Hlo | discriminate Hhi ].
  - discriminate Hlo.
  - right.
    cbn [valid_binary] in Hv. unfold bounded, canonical_mantissa in Hv.
    apply andb_true_iff in Hv. destruct Hv as [Hc _]. apply Z.eqb_eq in Hc.
    unfold fexp, SpecFloat.emin, prec, emax in Hc.
    pose proof (digits_bounds m) as Hb.
    set (d := Z.pos (digits2_pos m)) in *.
    assert (Hd1 : 1 <= d) by (unfold d; lia).
    assert (He : e < -52 \/ (e = -52 /\ Z.pos m <= Z.pos 4503599627370496)).
    { destruct s.
      - apply SFleb_finite_neg. exact Hlo.
      - apply SFleb_finite_pos. exact Hhi. }
    destruct He as [ He | [He Hm] ].
    + right. right. exists s, m, e. split; [ reflexivity | ].
      assert (Hd : d <= 53) by lia.
      assert (2 ^ d <= 2 ^ 53) by (apply Z.pow_le_mono_r; lia).
      lia.
    + assert (Hd : d = 53) by lia.
      rewrite Hd in Hb.
      assert (Em : m = 4503599627370496%positive).
      { apply Pos2Z.inj. change (Z.pos 4503599627370496) with (2 ^ (53 - 1)). lia. }
      subst m e. destruct s; [ right; left | left ]; reflexivity.
Qed.

(** The gain law on binary64 numbers: for every level between -1 and 1
    the two gains add up to exactly one, and each lies between zero and
    one. *)
Lemma gains_spec x :
  valid_binary x = true -> SFleb sf_mone x = true -> SFleb x sf_one = true ->
  let ng := SFdiv prec emax (SFsub prec emax sf_one x) sf_two in
  let lg := SFdiv prec emax (SFadd prec emax sf_one x) sf_two in
  SFadd prec emax ng lg = sf_one
  /\ SFleb (S754_zero false) ng = true /\ SFleb ng sf_one = true
  /\ SFleb (S754_zero false) lg = true /\ SFleb lg sf_one = true.
Proof.
  intros Hv Hlo Hhi.
  destruct (level_cases x Hv Hlo Hhi)
    as [ [s ->] | [ -> | [ -> | (s & m & e & -> & He & Hm) ] ] ].
  - destruct s; vm_compute; repeat split.
  - vm_compute; repeat split.
  - vm_compute; repeat split.
  - apply gains_finite; assumption.
Qed.

(** ** C3: the gain law *)

Lemma Prim2SF_not_nan x : PrimFloat.is_nan x = false -> SFcompare (Prim2SF x) (Prim2SF x) <> None.
Proof.
  unfold PrimFloat.is_nan. intros H. apply negb_false_iff in H.
  rewrite eqb_spec in H. unfold SFeqb in H.
  destruct (SFcompare (Prim2SF x) (Prim2SF x)); [ discriminate | discriminate H ].
Qed.

Lemma SFcompare_Eq_finite x s K E :
  SFcompare x (S754_finite s K E) = Some Eq -> x = S754_finite s K E.
Proof.
  destruct x as [ sx | sx | | sx m e ]; cbn [SFcompare].
  - destruct s; discriminate.
  - destruct sx; discriminate.
  - discriminate.
  - destruct sx, s; try discriminate;
      destruct (Z.compare_spec e E) as [ He | He | He ]; try discriminate;
      destruct (Pos.compare_cont Eq m K) eqn:C; try discriminate;
      intros _; apply (proj1 (Pos.compare_eq_iff m K)) in C; subst; reflexivity.
Qed.

(** Two numbers each at most the other, the second finite: they are the
    same number. *)
Lemma SFleb_antisym_finite x s K E :
  SFleb x (S754_finite s K E) = true -> SFleb (S754_finite s K E) x = true ->
  x = S754_finite s K E.
Proof.
  unfold SFleb. rewrite (SFcompare_antisym x (S754_finite s K E)).
  destruct (SFcompare x (S754_finite s K E)) as [ [ | | ] | ] eqn:C;
    cbn [option_map CompOpp]; try discriminate.
  intros _ _. apply SFcompare_Eq_finite. exact C.
Qed.

Lemma Prim2SF_one : Prim2SF 1 = sf_one.
Proof. vm_compute. reflexivity. Qed.

Lemma Prim2SF_mone : Prim2SF (-1) = sf_mone.
Proof. vm_compute. reflexivity. Qed.

Lemma Prim2SF_two : Prim2SF 2 = sf_two.
Proof. vm_compute. reflexivity. Qed.

Lemma Prim2SF_zero : Prim2SF 0 = S754_zero false.
Proof. vm_compute. reflexivity. Qed.

Lemma clamped_range level :
  PrimFloat.is_nan level = false ->
  (-1 <=? clamped level)%float = true /\ (clamped level <=? 1)%float = true.
Proof.
  intros Hn. unfold clamped.
  destruct (level <=? -1)%float eqn:E1.
  - split; reflexivity.
  - destruct (1 <=? level)%float eqn:E2.
    + split; reflexivity.
    + pose proof (Prim2SF_not_nan level Hn) as Hx.
      rewrite leb_spec in E1, E2. rewrite !leb_spec.
      split.
      * apply SFleb_total; [ exact E1 | exact Hx | ].
        rewrite Prim2SF_mone. discriminate.
      * apply SFleb_total; [ exact E2 | | exact Hx ].
        rewrite Prim2SF_one. discriminate.
Qed.

Lemma clamped_within level :
  (-1 <=? level)%float = true -> (level <=? 1)%float = true -> clamped level = level.
Proof.
  intros Hlo Hhi. unfold clamped.
  destruct (level <=? -1)%float eqn:E1.
  - assert (E : level = (-1)%float).
    { apply Prim2SF_inj. rewrite Prim2SF_mone.
      rewrite leb_spec, Prim2SF_mone in Hlo, E1.
      apply SFleb_antisym_finite; assumption. }
    rewrite E. reflexivity.
  - destruct (1 <=? level)%float eqn:E2; [ | reflexivity ].
    apply Prim2SF_inj. rewrite Prim2SF_one.
    rewrite leb_spec, Prim2SF_one in Hhi, E2.
    symmetry. apply SFleb_antisym_finite; assumption.
Qed.

(** The gain law on [double]s. *)
Lemma gains_of_level c :
  (-1 <=? c)%float = true -> (c <=? 1)%float = true ->
  ((1 - c) / 2 + (1 + c) / 2 = 1
   /\ (0 <=? (1 - c) / 2) = true /\ ((1 - c) / 2 <=? 1) = true
   /\ (0 <=? (1 + c) / 2) = true /\ ((1 + c) / 2 <=? 1) = true)%float.
Proof.
  intros Hlo Hhi.
  rewrite leb_spec, Prim2SF_mone in Hlo. rewrite leb_spec, Prim2SF_one in Hhi.
  destruct (gains_spec (Prim2SF c) (Prim2SF_valid c) Hlo Hhi)
    as (Hsum & H1 & H2 & H3 & H4).
  assert (En : Prim2SF ((1 - c) / 2)
               = SFdiv prec emax (SFsub prec emax sf_one (Prim2SF c)) sf_two).
  { rewrite div_spec, sub_spec, Prim2SF_one, Prim2SF_two. reflexivity. }
  assert (El : Prim2SF ((1 + c) / 2)
               = SFdiv prec emax (SFadd prec emax sf_one (Prim2SF c)) sf_two).
  { rewrite div_spec, add_spec, Prim2SF_one, Prim2SF_two. reflexivity. }
  split.
  { apply Prim2SF_inj. rewrite add_spec, En, El, Prim2SF_one. exact Hsum. }
  rewrite !leb_spec, En, El, Prim2SF_zero, Prim2SF_one.
  repeat split; assumption.
Qed.

(** C3, counterexample. A NaN passed to [setMixingLevel] fails both
    comparisons and is not clamped: the level kept is not within [-1, 1],
    both gains are NaN, neither lies in [0, 1], and their sum is not 1. *)
Lemma setMixingLevel_nan :
  (-1 <=? clamped nan)%float = false
  /\ (clamped nan <=? 1)%float = false
  /\ PrimFloat.is_nan (Player.networkLevel (Player.setMixingLevel nan blank)) = true
  /\ PrimFloat.is_nan (Player.playerLevel (Player.setMixingLevel nan blank)) = true
  /\ (0 <=? Player.networkLevel (Player.setMixingLevel nan blank))%float = false
  /\ (Player.playerLevel (Player.setMixingLevel nan blank) <=? 1)%float = false
  /\ (Player.networkLevel (Player.setMixingLevel nan blank)
      + Player.playerLevel (Player.setMixingLevel nan blank) =? 1)%float = false.
Proof.
  repeat split; reflexivity.
Qed.

(** C3, as amended. For every value passed to [setMixingLevel] other than
    a NaN, the level is clamped to [-1, 1] (a level within the range is
    kept as it is) and never rejected; the gains are
    [networkLevel = (1 - clamped) / 2] and [playerLevel = (1 + clamped) / 2];
    they add up to exactly 1 in binary64 arithmetic and both lie in [0, 1].
    At level -1 [playerLevel] is 0, at level 1 [networkLevel] is 0, and at
    level 0 both are 0.5. *)
Theorem setMixingLevel_gains level p :
  PrimFloat.is_nan level = false ->
  ((-1 <=? clamped level) = true /\ (clamped level <=? 1) = true
   /\ ((-1 <=? level) = true -> (level <=? 1) = true -> clamped level = level)
   /\ Player.networkLevel (Player.setMixingLevel level p) = (1 - clamped level) / 2
   /\ Player.playerLevel (Player.setMixingLevel level p) = (1 + clamped level) / 2
   /\ Player.networkLevel (Player.setMixingLevel level p)
      + Player.playerLevel (Player.setMixingLevel level p) = 1
   /\ (0 <=? Player.networkLevel (Player.setMixingLevel level p)) = true
   /\ (Player.networkLevel (Player.setMixingLevel level p) <=? 1) = true
   /\ (0 <=? Player.playerLevel (Player.setMixingLevel level p)) = true
   /\ (Player.playerLevel (Player.setMixingLevel level p) <=? 1) = true
   /\ Player.playerLevel (Player.setMixingLevel (-1) p) = 0
   /\ Player.networkLevel (Player.setMixingLevel 1 p) = 0
   /\ Player.networkLevel (Player.setMixingLevel 0 p) = 0.5
   /\ Player.playerLevel (Player.setMixingLevel 0 p) = 0.5)%float.
Proof.
  intros Hn.
  destruct (clamped_range level Hn) as [Hlo Hhi].
  destruct (gains_of_level (clamped level) Hlo Hhi) as (Hs & H1 & H2 & H3 & H4).
  split; [ exact Hlo | ]. split; [ exact Hhi | ].
  split; [ apply clamped_within | ].
  split; [ reflexivity | ]. split; [ reflexivity | ].
  change (Player.networkLevel (Player.setMixingLevel level p))
    with ((1 - clamped level) / 2)%float.
  change (Player.playerLevel (Player.setMixingLevel level p))
    with ((1 + clamped level) / 2)%float.
  split; [ exact Hs | ]. split; [ exact H1 | ]. split; [ exact H2 | ].
  split; [ exact H3 | ]. split; [ exact H4 | ].
  repeat split; reflexivity.
Qed.

(** The amended C3 at level 0.25. *)
Lemma setMixingLevel_gains_witness :
  ((-1 <=? clamped 0.25) = true /\ (clamped 0.25 <=? 1) = true
   /\ ((-1 <=? 0.25) = true -> (0.25 <=? 1) = true -> clamped 0.25 = 0.25)
   /\ Player.networkLevel (Player.setMixingLevel 0.25 blank) = (1 - clamped 0.25) / 2
   /\ Player.playerLevel (Player.setMixingLevel 0.25 blank) = (1 + clamped 0.25) / 2
   /\ Player.networkLevel (Player.setMixingLevel 0.25 blank)
      + Player.playerLevel (Player.setMixingLevel 0.25 blank) = 1
   /\ (0 <=? Player.networkLevel (Player.setMixingLevel 0.25 blank)) = true
   /\ (Player.networkLevel (Player.setMixingLevel 0.25 blank) <=? 1) = true
   /\ (0 <=? Player.playerLevel (Player.setMixingLevel 0.25 blank)) = true
   /\ (Player.playerLevel (Player.setMixingLevel 0.25 blank) <=? 1) = true
   /\ Player.playerLevel (Player.setMixingLevel (-1) blank) = 0
   /\ Player.networkLevel (Player.setMixingLevel 1 blank) = 0
   /\ Player.networkLevel (Player.setMixingLevel 0 blank) = 0.5
   /\ Player.playerLevel (Player.setMixingLevel 0 blank) = 0.5)%float.
Proof.
  exact (setMixingLevel_gains 0.25 blank eq_refl).
Defined.

(** * Further properties of the code *)

(** ** The two [read]s and the destination buffer *)

Lemma copy_onto_length src dst :
  (length src <= length dst)%nat -> length (copy_onto src dst) = length dst.
Proof.
  intros H. unfold copy_onto. rewrite length_app, length_skipn. lia.
Qed.

Lemma skipn_copy_onto src dst :
  skipn (length src) (copy_onto src dst) = skipn (length src) dst.
Proof.
  unfold copy_onto. rewrite skipn_app, Nat.sub_diag, skipn_all. reflexivity.
Qed.

Lemma delivered_length saw idx maxBytes :
  cursor_ok saw idx -> 0 <= maxBytes ->
  length (bytes_of_samples (chunk saw idx (take saw idx maxBytes)))
  = Z.to_nat (2 * take saw idx maxBytes).
Proof.
  intros Hc Hm. pose proof (take_bounds _ _ _ Hc Hm) as Hb.
  rewrite bytes_of_samples_length, chunk_length by (destruct Hc; lia). lia.
Qed.

(** What a read of at most [maxBytes] bytes into [buf] returns: the count
    [n], and the buffer. *)
Lemma read_result saw idx maxBytes buf :
  cursor_ok saw idx -> 0 <= maxBytes <= Z.of_nat (length buf) ->
  let n := 2 * take saw idx maxBytes in
  let buf' := copy_onto (bytes_of_samples (chunk saw idx (take saw idx maxBytes))) buf in
  0 <= n <= Z.min maxBytes 32768
  /\ n mod 2 = 0
  /\ n <= 2 * (Z.of_nat (length saw) - idx)
  /\ length buf' = length buf
  /\ skipn (Z.to_nat n) buf' = skipn (Z.to_nat n) buf.
Proof.
  intros Hc Hm. cbv zeta.
  pose proof (take_bounds saw idx maxBytes Hc (proj1 Hm)) as Hb.
  pose proof (delivered_length saw idx maxBytes Hc (proj1 Hm)) as Hl.
  split; [ lia | ]. split; [ div_lia | ]. split; [ lia | ]. split.
  - apply copy_onto_length. lia.
  - rewrite <- Hl. apply skipn_copy_onto.
Qed.

(** The network read sleeps once, unless its cursor is at the end. *)
Lemma NetworkReader_read_sleeps env k r buf maxBytes :
  cursor_ok (NetworkReader.m_saw r) (NetworkReader.m_sawIndex r) ->
  (NetworkReader.m_sawIndex r = Z.of_nat (length (NetworkReader.m_saw r)) ->
   snd (NetworkReader.read env k r buf maxBytes) = [])
  /\ (NetworkReader.m_sawIndex r <> Z.of_nat (length (NetworkReader.m_saw r)) ->
      exists dt, snd (NetworkReader.read env k r buf maxBytes) = [Sleep dt]).
Proof.
  intros [Hi Hl]. unfold NetworkReader.read.
  rewrite (to_size_t_small (Z.of_nat (length (NetworkReader.m_saw r))
                            - NetworkReader.m_sawIndex r))
    by (change (2 ^ 64) with (4 * 2 ^ 62); lia).
  destruct (Z.eqb_spec (Z.of_nat (length (NetworkReader.m_saw r))
                        - NetworkReader.m_sawIndex r) 0) as [Hz | Hz];
    cbn [snd]; split; intros H; try lia; eauto.
Qed.

(** X1. A [read], of the file source or of the network source, that is
    given a buffer of at least [maxBytes] bytes returns an even count that
    is at most [maxBytes], at most the block size 32768, and at most the
    bytes of the samples that remain; it keeps the length of the buffer and
    every byte of it from the count on. The network read sleeps once,
    unless its cursor is at the end. *)
Theorem read_stays_within_the_buffer env k p r buf maxBytes :
  cursor_ok (Player.m_saw p) (Player.m_sawIndex p) ->
  cursor_ok (NetworkReader.m_saw r) (NetworkReader.m_sawIndex r) ->
  0 <= maxBytes <= Z.of_nat (length buf) ->
  (let '(n, _, buf') := Player.read p buf maxBytes in
   0 <= n <= Z.min maxBytes 32768
   /\ n mod 2 = 0
   /\ n <= 2 * (Z.of_nat (length (Player.m_saw p)) - Player.m_sawIndex p)
   /\ length buf' = length buf
   /\ skipn (Z.to_nat n) buf' = skipn (Z.to_nat n) buf)
  /\ (let '(n, _, buf', tr) := NetworkReader.read env k r buf maxBytes in
      0 <= n <= Z.min maxBytes 32768
      /\ n mod 2 = 0
      /\ n <= 2 * (Z.of_nat (length (NetworkReader.m_saw r)) - NetworkReader.m_sawIndex r)
      /\ length buf' = length buf
      /\ skipn (Z.to_nat n) buf' = skipn (Z.to_nat n) buf
      /\ (NetworkReader.m_sawIndex r = Z.of_nat (length (NetworkReader.m_saw r)) -> tr = [])
      /\ (NetworkReader.m_sawIndex r <> Z.of_nat (length (NetworkReader.m_saw r)) ->
          exists dt, tr = [Sleep dt])).
Proof.
  intros Hp Hr Hm. split.
  - rewrite (Player_read_spec p buf maxBytes Hp (proj1 Hm)).
    exact (read_result _ _ _ _ Hp Hm).
  - pose proof (read_result _ _ _ _ Hr Hm) as (H1 & H2 & H3 & H4 & H5).
    pose proof (NetworkReader_read_sleeps env k r buf maxBytes Hr) as Hs.
    destruct (NetworkReader_read_spec env k r buf maxBytes Hr (proj1 Hm)) as (tr & E & _).
    rewrite E in Hs |- *. cbn [snd] in Hs.
    split; [ exact H1 | ]. split; [ exact H2 | ]. split; [ exact H3 | ].
    split; [ exact H4 | ]. split; [ exact H5 | ]. exact Hs.
Qed.

Lemma read_stays_within_the_buffer_witness :
  (let '(n, _, buf') := Player.read player_512 (repeat 85 144) 144 in
   0 <= n <= Z.min 144 32768
   /\ n mod 2 = 0
   /\ n <= 2 * (Z.of_nat (length (Player.m_saw player_512)) - Player.m_sawIndex player_512)
   /\ length buf' = length (repeat 85 144)
   /\ skipn (Z.to_nat n) buf' = skipn (Z.to_nat n) (repeat 85 144))
  /\ (let '(n, _, buf', tr) :=
        NetworkReader.read env_512 2 (NetworkReader.mk [512] 0) (repeat 85 144) 144 in
      0 <= n <= Z.min 144 32768
      /\ n mod 2 = 0
      /\ n <= 2 * (Z.of_nat (length [512]) - 0)
      /\ length buf' = length (repeat 85 144)
      /\ skipn (Z.to_nat n) buf' = skipn (Z.to_nat n) (repeat 85 144)
      /\ (0 = Z.of_nat (length [512]) -> tr = [])
      /\ (0 <> Z.of_nat (length [512]) -> exists dt, tr = [Sleep dt])).
Proof.
  apply (read_stays_within_the_buffer env_512 2 player_512 (NetworkReader.mk [512] 0)
           (repeat 85 144) 144).
  - exact cursor_512_ok.
  - exact cursor_512_ok.
  - vm_compute. split; discriminate.
Defined.

(** ** The bytes of a pass that no loop stores *)

Lemma cycle_sink env k p :
  player_ok p -> sink_bytes (snd (fst (Player.cycle env k p))) = cycle_mix env k p.
Proof.
  intros Hok. destruct (cycle_spec env k p Hok) as (trn & Htr & _ & Ec).
  rewrite Ec. cbn [fst snd]. unfold sink_bytes. rewrite flat_map_app.
  destruct Htr as [-> | [dt ->]]; simpl; apply app_nil_r.
Qed.

Lemma new_chars_nth env k n j :
  (j < Z.to_nat n)%nat -> nth j (new_chars env k n) 0 = to_char (heap env k j).
Proof.
  intros H. unfold new_chars.
  set (f := fun j : nat => to_char (heap env k j)).
  rewrite (nth_indep _ 0 (f O)) by (rewrite length_map, length_seq; exact H).
  rewrite map_nth, seq_nth by exact H. reflexivity.
Qed.

(** Beyond twice the longer read the mixing buffer is as [new] left it;
    between twice the network read and twice the file read the second loop
    has added its term to what [new] left. *)
Lemma cycle_mix_fresh env k p :
  player_ok p ->
  (forall j : nat,
      4 * Z.max (net_take p) (file_take p) <= Z.of_nat j
                                           < 4 * (net_take p + file_take p) ->
      nth j (cycle_mix env k p) 0 = to_char (heap env k j))
  /\ (forall i : nat,
         2 * net_take p <= Z.of_nat i < 2 * file_take p ->
         nth (2 * i) (cycle_mix env k p) 0
         = to_char (to_char (heap env k (2 * i))
                    + scaled (Player.playerLevel p) (file_buf p) i)
         /\ nth (2 * i + 1) (cycle_mix env k p) 0
            = to_char (to_char (heap env k (2 * i + 1))
                       + scaled (Player.playerLevel p) (file_buf p) i)).
Proof.
  intros Hok. destruct (takes_bounds p Hok) as [Hn Hf].
  unfold cycle_mix.
  set (m0 := new_chars env k (Player.mix_length (2 * net_take p) (2 * file_take p))).
  assert (Hl0 : length m0 = Z.to_nat (4 * (net_take p + file_take p))).
  { unfold m0. rewrite new_chars_length, mix_length_small by lia. f_equal. lia. }
  assert (H0 : forall j : nat, Z.of_nat j < 4 * (net_take p + file_take p) ->
                               nth j m0 0 = to_char (heap env k j)).
  { intros j Hj. unfold m0. apply new_chars_nth.
    rewrite mix_length_small by lia. lia. }
  set (m1 := Player.mix_assign (Player.networkLevel p) (net_buf p)
               (Z.to_nat (2 * net_take p)) 0 0 m0).
  assert (Hl1 : length m1 = length m0) by apply mix_assign_length.
  split.
  - intros j Hj. rewrite mix_add_outside by lia.
    unfold m1. rewrite mix_assign_outside by lia. apply H0. lia.
  - intros i Hi.
    destruct (mix_add_inside (Player.playerLevel p) (file_buf p)
                (Z.to_nat (2 * file_take p)) 0 0 m1 i) as [B1 B2]; [ lia | lia | ].
    cbn [Nat.add] in B1, B2. rewrite B1, B2.
    unfold m1. rewrite !mix_assign_outside by lia.
    rewrite !H0 by lia. split; reflexivity.
Qed.

(** X2. The sink receives memory that was never written. In a pass whose
    reads returned [nR] and [pR] bytes, the array handed to the sink has
    [2 (nR + pR)] bytes; those from [2 max(nR, pR)] on are as [new char[]]
    left them, and where the file read returned more than the network read,
    the bytes between [2 nR] and [2 pR] are what [new char[]] left with the
    file term added to it. *)
Theorem cycle_writes_fresh_memory env k p :
  player_ok p ->
  (forall j : nat,
      2 * Z.max (network_read_bytes env k p) (player_read_bytes p) <= Z.of_nat j
      < 2 * (network_read_bytes env k p + player_read_bytes p) ->
      nth j (sink_bytes (snd (fst (Player.cycle env k p)))) 0 = to_char (heap env k j))
  /\ (forall i : nat,
         network_read_bytes env k p <= Z.of_nat i < player_read_bytes p ->
         nth (2 * i) (sink_bytes (snd (fst (Player.cycle env k p)))) 0
         = to_char (to_char (heap env k (2 * i))
                    + char_of_double
                        (Player.playerLevel p
                         * double_of_char (nth i (player_delivery p) 0%Z)))
         /\ nth (2 * i + 1) (sink_bytes (snd (fst (Player.cycle env k p)))) 0
            = to_char (to_char (heap env k (2 * i + 1))
                       + char_of_double
                           (Player.playerLevel p
                            * double_of_char (nth i (player_delivery p) 0%Z)))).
Proof.
  intros Hok.
  destruct (read_bytes_spec env k p Hok) as [Rn Rp].
  destruct (cycle_mix_fresh env k p Hok) as [F1 F2].
  rewrite (cycle_sink env k p Hok), Rn, Rp. split.
  - intros j Hj. apply F1. lia.
  - intros i Hi. destruct (F2 i Hi) as [A B]. rewrite A, B.
    unfold scaled.
    assert (E : nth i (player_delivery p) 0 = nth i (file_buf p) 0).
    { rewrite (player_delivery_spec p Hok), <- (file_buf_firstn p Hok).
      rewrite nth_firstn.
      destruct (Nat.ltb_spec i (Z.to_nat (2 * file_take p))); [ reflexivity | lia ]. }
    rewrite E. split; reflexivity.
Qed.

Lemma cycle_writes_fresh_memory_witness :
  (forall j : nat,
      2 * Z.max (network_read_bytes env_10_6 2 player_10_6) (player_read_bytes player_10_6)
      <= Z.of_nat j
      < 2 * (network_read_bytes env_10_6 2 player_10_6 + player_read_bytes player_10_6) ->
      nth j (sink_bytes (snd (fst (Player.cycle env_10_6 2 player_10_6)))) 0
      = to_char (heap env_10_6 2 j))
  /\ (forall i : nat,
         network_read_bytes env_10_6 2 player_10_6 <= Z.of_nat i
         < player_read_bytes player_10_6 ->
         nth (2 * i) (sink_bytes (snd (fst (Player.cycle env_10_6 2 player_10_6)))) 0
         = to_char (to_char (heap env_10_6 2 (2 * i))
                    + char_of_double
                        (Player.playerLevel player_10_6
                         * double_of_char (nth i (player_delivery player_10_6) 0%Z)))
         /\ nth (2 * i + 1) (sink_bytes (snd (fst (Player.cycle env_10_6 2 player_10_6)))) 0
            = to_char (to_char (heap env_10_6 2 (2 * i + 1))
                       + char_of_double
                           (Player.playerLevel player_10_6
                            * double_of_char (nth i (player_delivery player_10_6) 0%Z)))).
Proof.
  exact (cycle_writes_fresh_memory env_10_6 2 player_10_6 player_10_6_ok).
Defined.

(** ** The mixing level at its two ends *)

(** A gain of 1 hands a byte through, a gain of 0 silences it. *)
Lemma unit_gain b : is_char b -> char_of_double (1 * double_of_char b) = b.
Proof.
  intros Hb.
  assert (Hall : forallb (fun c => char_of_double (1 * double_of_char c) =? c)
                         (map (fun n => Z.of_nat n - 128) (seq 0 256)) = true)
    by (vm_compute; reflexivity).
  rewrite forallb_forall in Hall. apply Z.eqb_eq. apply Hall.
  apply in_map_iff. exists (Z.to_nat (b + 128)). unfold is_char in Hb.
  split; [ lia | apply in_seq; lia ].
Qed.

Lemma zero_gain b : is_char b -> char_of_double (0 * double_of_char b) = 0.
Proof.
  intros Hb.
  assert (Hall : forallb (fun c => char_of_double (0 * double_of_char c) =? 0)
                         (map (fun n => Z.of_nat n - 128) (seq 0 256)) = true)
    by (vm_compute; reflexivity).
  rewrite forallb_forall in Hall. apply Z.eqb_eq. apply Hall.
  apply in_map_iff. exists (Z.to_nat (b + 128)). unfold is_char in Hb.
  split; [ lia | apply in_seq; lia ].
Qed.

Lemma bytes_of_samples_chars l : Forall is_char (bytes_of_samples l).
Proof.
  induction l as [ | s l IH ]; [ constructor | ].
  cbn [bytes_of_samples flat_map bytes_of_sample app].
  repeat constructor; try apply to_char_range. exact IH.
Qed.

Lemma nth_is_char l i : Forall is_char l -> is_char (nth i l 0).
Proof.
  intros H. destruct (Nat.lt_ge_cases i (length l)) as [Hi | Hi].
  - rewrite Forall_forall in H. apply H. apply nth_In. exact Hi.
  - rewrite nth_overflow by exact Hi. unfold is_char. lia.
Qed.

(** The bytes a source handed over, as the loops find them in its
    buffer. *)
Lemma net_buf_delivery env k p i :
  player_ok p -> Z.of_nat i < 2 * net_take p ->
  nth i (net_buf p) 0 = nth i (network_delivery env k p) 0
  /\ is_char (nth i (net_buf p) 0).
Proof.
  intros Hok Hi.
  assert (E : nth i (network_delivery env k p) 0 = nth i (net_buf p) 0).
  { rewrite (network_delivery_spec env k p Hok), <- (net_buf_firstn p Hok).
    rewrite nth_firstn.
    destruct (Nat.ltb_spec i (Z.to_nat (2 * net_take p))); [ reflexivity | lia ]. }
  split; [ symmetry; exact E | ].
  rewrite <- E, (network_delivery_spec env k p Hok).
  apply nth_is_char, bytes_of_samples_chars.
Qed.

Lemma file_buf_delivery p i :
  player_ok p -> Z.of_nat i < 2 * file_take p ->
  nth i (file_buf p) 0 = nth i (player_delivery p) 0
  /\ is_char (nth i (file_buf p) 0).
Proof.
  intros Hok Hi.
  assert (E : nth i (player_delivery p) 0 = nth i (file_buf p) 0).
  { rewrite (player_delivery_spec p Hok), <- (file_buf_firstn p Hok).
    rewrite nth_firstn.
    destruct (Nat.ltb_spec i (Z.to_nat (2 * file_take p))); [ reflexivity | lia ]. }
  split; [ symmetry; exact E | ].
  rewrite <- E, (player_delivery_spec p Hok).
  apply nth_is_char, bytes_of_samples_chars.
Qed.

(** No [double] is both at most -1 and at least 1. *)
Lemma leb_exclusive level :
  (level <=? -1)%float = true -> (1 <=? level)%float = false.
Proof.
  rewrite !leb_spec, Prim2SF_one, Prim2SF_mone.
  destruct (Prim2SF level) as [ s | s | | s m e ]; try destruct s;
    cbv beta iota delta [SFleb SFcompare sf_one sf_mone];
    try reflexivity; try discriminate.
Qed.

Lemma setMixingLevel_low level p :
  (level <=? -1)%float = true ->
  Player.networkLevel (Player.setMixingLevel level p) = 1%float
  /\ Player.playerLevel (Player.setMixingLevel level p) = 0%float.
Proof.
  intros H. unfold Player.setMixingLevel. rewrite H. cbn.
  split; vm_compute; reflexivity.
Qed.

Lemma setMixingLevel_high level p :
  (1 <=? level)%float = true ->
  Player.networkLevel (Player.setMixingLevel level p) = 0%float
  /\ Player.playerLevel (Player.setMixingLevel level p) = 1%float.
Proof.
  intros H. unfold Player.setMixingLevel.
  destruct (level <=? -1)%float eqn:E.
  - apply leb_exclusive in E. congruence.
  - rewrite H. cbn. split; vm_compute; reflexivity.
Qed.

Lemma setMixingLevel_ok level p : player_ok p -> player_ok (Player.setMixingLevel level p).
Proof. intros H. exact H. Qed.

(** X3. The two ends of the mixing level, as the comment of
    [setMixingLevel] has them. After [setMixingLevel(level)] with [level] at
    or below -1, a pass hands the sink, at [2 i] and [2 i + 1], the byte [i]
    of the network read unchanged, for every [i] below its count: only the
    network source. With [level] at or above 1 it hands over the byte [i] of
    the file read unchanged, where both reads returned a byte [i], and 0
    where only the network read did. *)
Theorem mixing_level_ends env k p level i :
  player_ok p ->
  Z.of_nat i < network_read_bytes env k p ->
  ((level <=? -1)%float = true ->
   nth (2 * i) (sink_bytes (snd (fst (Player.cycle env k (Player.setMixingLevel level p))))) 0
   = nth i (network_delivery env k p) 0
   /\ nth (2 * i + 1)
          (sink_bytes (snd (fst (Player.cycle env k (Player.setMixingLevel level p))))) 0
      = nth i (network_delivery env k p) 0)
  /\ ((1 <=? level)%float = true ->
      nth (2 * i) (sink_bytes (snd (fst (Player.cycle env k (Player.setMixingLevel level p))))) 0
      = (if Z.of_nat i <? player_read_bytes p then nth i (player_delivery p) 0 else 0)
      /\ nth (2 * i + 1)
             (sink_bytes (snd (fst (Player.cycle env k (Player.setMixingLevel level p))))) 0
         = (if Z.of_nat i <? player_read_bytes p then nth i (player_delivery p) 0 else 0)).
Proof.
  intros Hok Hi.
  destruct (read_bytes_spec env k p Hok) as [Rn Rp]. rewrite Rn in Hi. rewrite Rp.
  set (q := Player.setMixingLevel level p).
  assert (Hq : player_ok q) by exact Hok.
  rewrite (cycle_sink env k q Hq).
  destruct (cycle_mix_nth env k q i Hq Hi) as [A B]. cbv zeta in A, B.
  change (file_take q) with (file_take p) in A, B.
  change (net_buf q) with (net_buf p) in A, B.
  change (file_buf q) with (file_buf p) in A, B.
  rewrite A, B. clear A B. subst q.
  destruct (net_buf_delivery env k p i Hok Hi) as [En Cn].
  unfold scaled. split; intros Hl.
  - destruct (setMixingLevel_low level p Hl) as [-> ->].
    rewrite (unit_gain _ Cn), En.
    assert (Hc : is_char (nth i (network_delivery env k p) 0)) by (rewrite <- En; exact Cn).
    destruct (Z.ltb_spec (Z.of_nat i) (2 * file_take p)) as [Hlt | Hge].
    + destruct (file_buf_delivery p i Hok Hlt) as [Ef Cf].
      rewrite (zero_gain _ Cf), Z.add_0_r, (to_char_small _ Hc). split; reflexivity.
    + split; reflexivity.
  - destruct (setMixingLevel_high level p Hl) as [-> ->].
    rewrite (zero_gain _ Cn).
    destruct (Z.ltb_spec (Z.of_nat i) (2 * file_take p)) as [Hlt | Hge].
    + destruct (file_buf_delivery p i Hok Hlt) as [Ef Cf].
      rewrite (unit_gain _ Cf), Z.add_0_l, (to_char_small _ Cf), Ef. split; reflexivity.
    + split; reflexivity.
Qed.

Lemma mixing_level_ends_witness :
  ((-2 <=? -1)%float = true ->
   nth (2 * 1) (sink_bytes (snd (fst (Player.cycle env_512 2
                                          (Player.setMixingLevel (-2) player_512))))) 0
   = nth 1 (network_delivery env_512 2 player_512) 0
   /\ nth (2 * 1 + 1)
          (sink_bytes (snd (fst (Player.cycle env_512 2
                                   (Player.setMixingLevel (-2) player_512))))) 0
      = nth 1 (network_delivery env_512 2 player_512) 0)
  /\ ((1 <=? -2)%float = true ->
      nth (2 * 1) (sink_bytes (snd (fst (Player.cycle env_512 2
                                             (Player.setMixingLevel (-2) player_512))))) 0
      = (if Z.of_nat 1 <? player_read_bytes player_512
         then nth 1 (player_delivery player_512) 0 else 0)
      /\ nth (2 * 1 + 1)
             (sink_bytes (snd (fst (Player.cycle env_512 2
                                      (Player.setMixingLevel (-2) player_512))))) 0
         = (if Z.of_nat 1 <? player_read_bytes player_512
            then nth 1 (player_delivery player_512) 0 else 0)).
Proof.
  apply (mixing_level_ends env_512 2 player_512 (-2)%float 1 player_512_ok).
  vm_compute. reflexivity.
Defined.

(** ** [setMixingLevel] out of range, and called again *)

Lemma clamped_idempotent level : clamped (clamped level) = clamped level.
Proof.
  unfold clamped at 2 3.
  destruct (level <=? -1)%float eqn:E1.
  - replace (1 <=? -1)%float with false by (vm_compute; reflexivity).
    vm_compute. reflexivity.
  - destruct (1 <=? level)%float eqn:E2.
    + vm_compute. reflexivity.
    + unfold clamped. rewrite E1, E2. reflexivity.
Qed.

(** X4. [setMixingLevel] saturates and keeps nothing of earlier calls. A
    level at or below -1, minus infinity too, gives the gains (1, 0), a
    level at or above 1 the gains (0, 1); the level is only used through
    its clamped value, clamping twice being clamping once; and of two calls
    in a row the second alone decides the gains. *)
Theorem setMixingLevel_saturates level level' p :
  ((level <=? -1)%float = true ->
   Player.networkLevel (Player.setMixingLevel level p) = 1%float
   /\ Player.playerLevel (Player.setMixingLevel level p) = 0%float)
  /\ ((1 <=? level)%float = true ->
      Player.networkLevel (Player.setMixingLevel level p) = 0%float
      /\ Player.playerLevel (Player.setMixingLevel level p) = 1%float)
  /\ Player.setMixingLevel (clamped level) p = Player.setMixingLevel level p
  /\ Player.setMixingLevel level' (Player.setMixingLevel level p)
     = Player.setMixingLevel level' p
  /\ Player.setMixingLevel neg_infinity p = Player.setMixingLevel (-1) p
  /\ Player.setMixingLevel infinity p = Player.setMixingLevel 1 p.
Proof.
  split; [ apply setMixingLevel_low | ].
  split; [ apply setMixingLevel_high | ].
  split.
  - pose proof (clamped_idempotent level) as H.
    unfold Player.setMixingLevel. fold (clamped (clamped level)). fold (clamped level).
    rewrite H. reflexivity.
  - split; [ reflexivity | ].
    split; unfold Player.setMixingLevel; f_equal; vm_compute; reflexivity.
Qed.

(** ** A whole run of [play()] *)

Lemma sink_bytes_app a b : sink_bytes (a ++ b) = sink_bytes a ++ sink_bytes b.
Proof. apply flat_map_app. Qed.

Lemma to_int_range z : - 2 ^ 31 <= to_int z < 2 ^ 31.
Proof.
  unfold to_int.
  pose proof (Z.mod_pos_bound (z + 2147483648) 4294967296 ltac:(lia)).
  change (2 ^ 31) with 2147483648. lia.
Qed.

(** The player a pass leaves. *)
Lemma cycle_state env k p :
  player_ok p ->
  fst (fst (Player.cycle env k p))
  = Player.mk (Player.networkLevel p) (Player.playerLevel p)
      (NetworkReader.mk (NetworkReader.m_saw (Player.nr p))
                        (NetworkReader.m_sawIndex (Player.nr p) + net_take p))
      (file_buf p) (net_buf p) (cycle_mix env k p)
      (Player.playerBytes p) (Player.networkBytes p) (cycle_written p)
      (Player.m_saw p) (Player.m_sawIndex p + file_take p)
      (Player.timePaused p) (Player.pausedSample p) false.
Proof.
  intros Hok. destruct (cycle_spec env k p Hok) as (trn & _ & _ & Ec).
  rewrite Ec. reflexivity.
Qed.

(** Whether a pass is the last one. *)
Lemma cycle_eos_takes env k p :
  player_ok p ->
  snd (Player.cycle env k p) = true <-> net_take p = 0 /\ file_take p = 0.
Proof.
  intros Hok. rewrite cycle_eos.
  destruct (read_bytes_spec env k p Hok) as [-> ->].
  rewrite andb_true_iff, !Z.eqb_eq. lia.
Qed.

(** The trace of a pass ends with the stats line of the counter it leaves,
    and the array it hands to the sink. *)
Lemma cycle_trace env k p :
  player_ok p ->
  exists trn,
    (trn = [] \/ exists dt, trn = [Sleep dt])
    /\ snd (fst (Player.cycle env k p))
       = trn ++ [StatsLine (clock_ms env k)
                           (Player.writtenSamples (fst (fst (Player.cycle env k p))));
                 SinkWrite (cycle_mix env k p)].
Proof.
  intros Hok. destruct (cycle_spec env k p Hok) as (trn & Htr & _ & Ec).
  exists trn. split; [ exact Htr | ]. rewrite Ec. reflexivity.
Qed.

Lemma length_zero_nil (l : list Z) : Z.of_nat (length l) = 0 -> l = [].
Proof. destruct l; [ reflexivity | cbn [length]; lia ]. Qed.

(** What a run of [play_loop] with enough fuel leaves and writes. *)
Lemma play_loop_totals env fuel :
  forall k p,
    player_ok p -> (Player.remaining p < fuel)%nat ->
    exists p' k' tr tr0 t,
      Player.play_loop fuel env k p = Some (p', k', tr)
      /\ player_ok p'
      /\ Player.m_saw p' = Player.m_saw p
      /\ NetworkReader.m_saw (Player.nr p') = NetworkReader.m_saw (Player.nr p)
      /\ Player.playerBytes p' = Player.playerBytes p
      /\ Player.networkBytes p' = Player.networkBytes p
      /\ Z.of_nat (length (sink_bytes tr))
         = 4 * (Z.of_nat (Player.remaining p) - Z.of_nat (Player.remaining p'))
      /\ (2 <= Player.networkBytes p -> 2 <= Player.playerBytes p ->
          Player.remaining p' = O)
      /\ - 2 ^ 31 <= Player.writtenSamples p' < 2 ^ 31
      /\ tr = tr0 ++ [StatsLine t (Player.writtenSamples p'); SinkWrite []]
      /\ (counter_ok p ->
          Player.writtenSamples p'
          = Player.writtenSamples p
            + (Z.of_nat (Player.remaining p) - Z.of_nat (Player.remaining p'))).
Proof.
  induction fuel as [ | fuel IH ]; intros k p Hok Hf; [ lia | ].
  rewrite play_loop_step.
  destruct (cycle_ok env k p Hok) as (Hok1 & Hpb1 & Hnb1).
  pose proof (cycle_remaining env k p Hok) as Hr.
  pose proof (cycle_state env k p Hok) as Est.
  destruct (cycle_trace env k p Hok) as (trn & Htrn & Etr).
  pose proof (cycle_mix_length env k p Hok) as Hml.
  pose proof (cycle_sink env k p Hok) as Hsk.
  destruct (takes_bounds p Hok) as [Hn Hp].
  assert (Hws : Player.writtenSamples (fst (fst (Player.cycle env k p))) = cycle_written p)
    by (rewrite Est; reflexivity).
  destruct (snd (Player.cycle env k p)) eqn:Eeos.
  - apply (cycle_eos_takes env k p Hok) in Eeos. destruct Eeos as [Zn Zp].
    assert (Emix : cycle_mix env k p = []) by (apply length_zero_nil; lia).
    exists (fst (fst (Player.cycle env k p))), (S k), (snd (fst (Player.cycle env k p))),
      trn, (clock_ms env k).
    split; [ reflexivity | ]. split; [ exact Hok1 | ].
    split; [ rewrite Est; reflexivity | ]. split; [ rewrite Est; reflexivity | ].
    split; [ exact Hpb1 | ]. split; [ exact Hnb1 | ].
    split; [ rewrite Hsk; lia | ].
    split.
    { intros Hnb Hpb. pose proof (remaining_spec p Hok) as Hr0.
      destruct Hok as (Hcf & Hcn & _).
      pose proof (proj1 (take_zero_iff _ _ _ Hcf Hpb) Zp).
      pose proof (proj1 (take_zero_iff _ _ _ Hcn Hnb) Zn). lia. }
    split; [ rewrite Hws; apply to_int_range | ].
    split; [ rewrite Etr, Emix; reflexivity | ].
    intros Hc. rewrite Hws, (cycle_written_spec p Hok Hc). lia.
  - assert (Hlt : (Player.remaining (fst (fst (Player.cycle env k p))) < fuel)%nat).
    { assert (~ (net_take p = 0 /\ file_take p = 0)).
      { intros H. apply (cycle_eos_takes env k p Hok) in H. congruence. }
      lia. }
    destruct (IH (S k) (fst (fst (Player.cycle env k p))) Hok1 Hlt)
      as (p' & k' & tr & tr0 & t & E & Hok' & Es & Ens & Epb & Enb & Hlen & Hend
          & Hrg & Elast & Hcnt).
    rewrite E.
    exists p', k', (snd (fst (Player.cycle env k p)) ++ tr),
      (snd (fst (Player.cycle env k p)) ++ tr0), t.
    split; [ reflexivity | ]. split; [ exact Hok' | ].
    split; [ rewrite Es, Est; reflexivity | ].
    split; [ rewrite Ens, Est; reflexivity | ].
    split; [ lia | ]. split; [ lia | ].
    split; [ rewrite sink_bytes_app, length_app, Hsk; lia | ].
    split; [ intros Hnb Hpb; apply Hend; lia | ].
    split; [ exact Hrg | ].
    split; [ rewrite Elast; apply app_assoc | ].
    intros Hc. destruct (cycle_counter_ok env k p Hok Hc) as (Hc1 & _ & _).
    rewrite (Hcnt Hc1), Hws, (cycle_written_spec p Hok Hc). lia.
Qed.

(** X5. The size of the output of a run. When both requests have room
    for a sample, [play()] returns having handed the sink four bytes for
    every sample that remained in the file source and four for every sample
    that remained in the network source: the sum of the two, not the longer
    of them. *)
Theorem play_output_size env k p :
  player_ok p -> 2 <= Player.networkBytes p -> 2 <= Player.playerBytes p ->
  exists p' k' tr,
    Player.play env k p = Some (p', k', tr)
    /\ Z.of_nat (length (sink_bytes tr))
       = 4 * ((Z.of_nat (length (Player.m_saw p)) - Player.m_sawIndex p)
              + (Z.of_nat (length (NetworkReader.m_saw (Player.nr p)))
                 - NetworkReader.m_sawIndex (Player.nr p)))
    /\ Player.m_sawIndex p' = Z.of_nat (length (Player.m_saw p))
    /\ NetworkReader.m_sawIndex (Player.nr p')
       = Z.of_nat (length (NetworkReader.m_saw (Player.nr p))).
Proof.
  intros Hok Hnb Hpb.
  destruct (play_loop_totals env (S (Player.remaining p)) k p Hok)
    as (p' & k' & tr & tr0 & t & E & Hok' & Es & Ens & _ & _ & Hlen & Hend & _);
    [ lia | ].
  exists p', k', tr. split; [ exact E | ].
  specialize (Hend Hnb Hpb).
  pose proof (remaining_spec p Hok) as Hr.
  pose proof (remaining_spec p' Hok') as Hr'.
  rewrite Es, Ens in Hr'.
  destruct Hok' as ([Hf1 Hf2] & [Hn1 Hn2] & _). rewrite Es in Hf1. rewrite Ens in Hn1.
  repeat split; lia.
Qed.

Lemma play_output_size_witness :
  exists p' k' tr,
    Player.play env_10_6 2 player_10_6 = Some (p', k', tr)
    /\ Z.of_nat (length (sink_bytes tr))
       = 4 * ((Z.of_nat (length (Player.m_saw player_10_6)) - Player.m_sawIndex player_10_6)
              + (Z.of_nat (length (NetworkReader.m_saw (Player.nr player_10_6)))
                 - NetworkReader.m_sawIndex (Player.nr player_10_6)))
    /\ Player.m_sawIndex p' = Z.of_nat (length (Player.m_saw player_10_6))
    /\ NetworkReader.m_sawIndex (Player.nr p')
       = Z.of_nat (length (NetworkReader.m_saw (Player.nr player_10_6))).
Proof.
  apply (play_output_size env_10_6 2 player_10_6 player_10_6_ok);
    vm_compute; discriminate.
Defined.

(** X6. The counter at the end of a run. With a counter that the samples
    to come do not carry past [INT_MAX], [play()] returns with
    [writtenSamples] grown by the samples that remained in the two sources
    together, and the last line of the stats file carries that count. *)
Theorem play_final_count env k p :
  player_ok p -> counter_ok p ->
  2 <= Player.networkBytes p -> 2 <= Player.playerBytes p ->
  exists p' k' tr0 t,
    Player.play env k p
    = Some (p', k', tr0 ++ [StatsLine t (Player.writtenSamples p'); SinkWrite []])
    /\ Player.writtenSamples p'
       = Player.writtenSamples p
         + (Z.of_nat (length (Player.m_saw p)) - Player.m_sawIndex p)
         + (Z.of_nat (length (NetworkReader.m_saw (Player.nr p)))
            - NetworkReader.m_sawIndex (Player.nr p)).
Proof.
  intros Hok Hc Hnb Hpb.
  destruct (play_loop_totals env (S (Player.remaining p)) k p Hok)
    as (p' & k' & tr & tr0 & t & E & Hok' & Es & Ens & _ & _ & _ & Hend & _ & Elast & Hcnt);
    [ lia | ].
  exists p', k', tr0, t. rewrite <- Elast. split; [ exact E | ].
  specialize (Hend Hnb Hpb). rewrite (Hcnt Hc), Hend.
  pose proof (remaining_spec p Hok) as Hr. lia.
Qed.

Lemma play_final_count_witness :
  exists p' k' tr0 t,
    Player.play env_512 2 player_512
    = Some (p', k', tr0 ++ [StatsLine t (Player.writtenSamples p'); SinkWrite []])
    /\ Player.writtenSamples p'
       = Player.writtenSamples player_512
         + (Z.of_nat (length (Player.m_saw player_512)) - Player.m_sawIndex player_512)
         + (Z.of_nat (length (NetworkReader.m_saw (Player.nr player_512)))
            - NetworkReader.m_sawIndex (Player.nr player_512)).
Proof.
  apply (play_final_count env_512 2 player_512 player_512_ok player_512_counter_ok);
    vm_compute; discriminate.
Defined.

(** ** The depth of the recursion of [play()] *)

Lemma take_72 saw idx : take saw idx 144 = Z.min 72 (Z.of_nat (length saw) - idx).
Proof. reflexivity. Qed.

Lemma longest_step env k p :
  player_ok p -> Player.networkBytes p = 144 -> Player.playerBytes p = 144 ->
  0 <= longest p
  /\ (snd (Player.cycle env k p) = true <-> longest p = 0)
  /\ longest (fst (fst (Player.cycle env k p))) = Z.max 0 (longest p - 72).
Proof.
  intros Hok Hnb Hpb.
  pose proof (cycle_eos_takes env k p Hok) as Heos.
  rewrite (cycle_state env k p Hok).
  unfold net_take, file_take in *. rewrite Hnb, Hpb, !take_72 in *.
  destruct Hok as ([Hf1 Hf2] & [Hn1 Hn2] & _).
  unfold longest. cbn [Player.m_saw Player.m_sawIndex Player.nr
                       NetworkReader.m_saw NetworkReader.m_sawIndex].
  split; [ lia | ]. split; [ rewrite Heos; lia | lia ].
Qed.

Lemma passes_step p :
  0 < longest p ->
  Z.to_nat ((Z.max 0 (longest p - 72) + 71) / 72 + 1) = Nat.pred (passes p)
  /\ (2 <= passes p)%nat.
Proof.
  intros H. unfold passes.
  assert ((Z.max 0 (longest p - 72) + 71) / 72 + 1 = (longest p + 71) / 72
          /\ 1 <= (longest p + 71) / 72) by div_lia.
  lia.
Qed.

Lemma play_loop_depth env fuel :
  forall k p,
    player_ok p -> Player.networkBytes p = 144 -> Player.playerBytes p = 144 ->
    ((fuel < passes p)%nat -> Player.play_loop fuel env k p = None)
    /\ ((passes p <= fuel)%nat ->
        exists p' tr,
          Player.play_loop fuel env k p = Some (p', (k + passes p)%nat, tr)
          /\ length (stats_records tr) = passes p).
Proof.
  induction fuel as [ | fuel IH ]; intros k p Hok Hnb Hpb.
  - split; [ reflexivity | ].
    unfold passes. destruct (longest_step env k p Hok Hnb Hpb) as (H0 & _).
    assert (0 <= (longest p + 71) / 72) by div_lia. lia.
  - rewrite play_loop_step.
    destruct (longest_step env k p Hok Hnb Hpb) as (H0 & Heos & Hl).
    destruct (cycle_ok env k p Hok) as (Hok1 & Hpb1 & Hnb1).
    pose proof (cycle_stats env k p Hok) as Hs.
    destruct (snd (Player.cycle env k p)) eqn:Eeos.
    + assert (Hz : longest p = 0) by (apply Heos; reflexivity).
      assert (Hp : passes p = 1%nat) by (unfold passes; rewrite Hz; reflexivity).
      rewrite Hp. split; [ lia | ]. intros _.
      do 2 eexists. rewrite Nat.add_1_r. split; [ reflexivity | ].
      rewrite Hs. reflexivity.
    + assert (Hpos : 0 < longest p).
      { destruct (Z.eq_dec (longest p) 0) as [Hz | Hz]; [ | lia ].
        apply Heos in Hz. discriminate. }
      destruct (passes_step p Hpos) as (Hpred & Hge).
      destruct (IH (S k) (fst (fst (Player.cycle env k p))) Hok1) as [Hnone Hsome];
        [ lia | lia | ].
      assert (Hp1 : passes (fst (fst (Player.cycle env k p))) = Nat.pred (passes p)).
      { unfold passes at 1. rewrite Hl. exact Hpred. }
      rewrite Hp1 in Hnone, Hsome. split.
      * intros Hlt. rewrite Hnone by lia. reflexivity.
      * intros Hle. destruct Hsome as (p' & tr & E & Hlen); [ lia | ].
        rewrite E. do 2 eexists. split.
        -- f_equal. f_equal. f_equal. lia.
        -- rewrite stats_records_app, length_app, Hs, Hlen. cbn [length]. lia.
Qed.

(** X7. The passes of a run, and the depth of its recursion. With the
    requests of 72 samples that [open()] sets, [play()] makes one pass for
    every 72 samples, begun or full, of the source that has more samples
    left, and one more that finds both at their end; each pass is one call
    of [play()] inside the previous one and writes one stats line. A
    recursion cut below that depth does not return. *)
Theorem play_depth env k p fuel :
  player_ok p -> Player.networkBytes p = 144 -> Player.playerBytes p = 144 ->
  passes p = Z.to_nat ((longest p + 71) / 72 + 1)
  /\ ((fuel < passes p)%nat -> Player.play_loop fuel env k p = None)
  /\ ((passes p <= fuel)%nat ->
      exists p' tr,
        Player.play_loop fuel env k p = Some (p', (k + passes p)%nat, tr)
        /\ length (stats_records tr) = passes p)
  /\ exists p' tr,
       Player.play env k p = Some (p', (k + passes p)%nat, tr)
       /\ length (stats_records tr) = passes p.
Proof.
  intros Hok Hnb Hpb. split; [ reflexivity | ].
  destruct (play_loop_depth env fuel k p Hok Hnb Hpb) as [Hnone Hsome].
  split; [ exact Hnone | ]. split; [ exact Hsome | ].
  destruct (play_loop_depth env (S (Player.remaining p)) k p Hok Hnb Hpb) as [Hn Hs].
  destruct (play_loop_returns env (S (Player.remaining p)) k p Hok) as (p' & k' & tr & E);
    [ lia | ].
  apply Hs.
  destruct (Nat.le_gt_cases (passes p) (S (Player.remaining p))) as [H | H];
    [ exact H | ].
  unfold Player.play in *. rewrite (Hn H) in E. discriminate.
Qed.

Lemma play_depth_witness :
  passes player_10_6 = Z.to_nat ((longest player_10_6 + 71) / 72 + 1)
  /\ ((1 < passes player_10_6)%nat -> Player.play_loop 1 env_10_6 2 player_10_6 = None)
  /\ ((passes player_10_6 <= 1)%nat ->
      exists p' tr,
        Player.play_loop 1 env_10_6 2 player_10_6
        = Some (p', (2 + passes player_10_6)%nat, tr)
        /\ length (stats_records tr) = passes player_10_6)
  /\ exists p' tr,
       Player.play env_10_6 2 player_10_6 = Some (p', (2 + passes player_10_6)%nat, tr)
       /\ length (stats_records tr) = passes player_10_6.
Proof.
  apply (play_depth env_10_6 2 player_10_6 1%nat player_10_6_ok); reflexivity.
Defined.

(** ** [play()] once the sources are exhausted *)

(** A pass that starts with both cursors at the end. *)
Lemma cycle_at_end env k q :
  Player.m_sawIndex q = Z.of_nat (length (Player.m_saw q)) ->
  NetworkReader.m_sawIndex (Player.nr q)
  = Z.of_nat (length (NetworkReader.m_saw (Player.nr q))) ->
  - 2 ^ 31 <= Player.writtenSamples q < 2 ^ 31 ->
  Player.cycle env k q
  = (Player.mk (Player.networkLevel q) (Player.playerLevel q) (Player.nr q)
               (Player.playerBuffer q) (Player.networkBuffer q) []
               (Player.playerBytes q) (Player.networkBytes q) (Player.writtenSamples q)
               (Player.m_saw q) (Player.m_sawIndex q)
               (Player.timePaused q) (Player.pausedSample q) false,
     [StatsLine (clock_ms env k) (Player.writtenSamples q); SinkWrite []],
     true).
Proof.
  intros Hf Hn Hw. unfold Player.cycle.
  rewrite (NetworkReader_read_at_end env k (Player.nr q) _ _ Hn).
  rewrite (Player_read_at_end q _ _ Hf).
  change (Player.mix_length 0 0) with 0.
  change (new_chars env k 0) with (@nil Z).
  change (Z.to_nat 0) with O. cbn [Player.mix_assign Player.mix_add app].
  change (to_int16 (to_size_t (0 / sizeof_int16 + 0 / sizeof_int16))) with 0.
  rewrite Z.add_0_r, (to_int_small _ Hw). reflexivity.
Qed.

(** A session keeps the counter an [int] value. *)
Lemma session_counter_range env steps :
  forall k p,
    player_ok p -> - 2 ^ 31 <= Player.writtenSamples p < 2 ^ 31 ->
    - 2 ^ 31 <= Player.writtenSamples (fst (fst (session env k steps p))) < 2 ^ 31.
Proof.
  induction steps as [ | s rest IH ]; intros k p Hok Hw; [ exact Hw | ].
  cbn [session].
  destruct (step_spec env k s p Hok) as (Hok1 & _).
  specialize (IH (S k) (step env k s p) Hok1).
  destruct (session env (S k) rest (step env k s p)) as [[p' dn] dl].
  assert (Hw1 : - 2 ^ 31 <= Player.writtenSamples (step env k s p) < 2 ^ 31).
  { destruct s; cbn [step]; try exact Hw.
    rewrite (cycle_state env k p Hok). apply to_int_range. }
  specialize (IH Hw1). destruct s; exact IH.
Qed.

(** ** C4: what follows the end of both streams *)

(** A run that returns leaves [paused] false. *)
Lemma play_loop_paused env fuel :
  forall k p p' k' tr,
    Player.play_loop fuel env k p = Some (p', k', tr) -> Player.paused p' = false.
Proof.
  induction fuel as [ | fuel IH ]; intros k p p' k' tr H; [ discriminate | ].
  rewrite play_loop_step in H.
  destruct (snd (Player.cycle env k p)).
  - injection H as <- _ _. apply cycle_paused.
  - destruct (Player.play_loop fuel env (S k) (fst (fst (Player.cycle env k p))))
      as [[[p'' k''] tr''] | ] eqn:E; [ | discriminate ].
    injection H as <- _ _. exact (IH _ _ _ _ _ E).
Qed.

(** C4, counterexample. A player constructed and opened as [main] does,
    both sources holding one sample. In the second pass of [play()] both
    reads return 0 bytes and the call returns; [paused] is false then, as
    every pass sets it: no state records that playback has stopped. After
    [pause()], the second [play()] of [main] runs one more pass and
    appends one more record to the stats sink. *)
Lemma play_after_end_of_stream_512 :
  boot env_512 "audio2_s16le_mono_48k.raw" "audio1_s16le_mono_48k.raw" blank
  = Returns player_512
      [OpenIn "audio2_s16le_mono_48k.raw"; OpenOut "audio_output.raw";
       OpenOut "realtime_stats.txt"; OpenIn "audio1_s16le_mono_48k.raw"]
  /\ Player.play env_512 2 player_512
     = Some (played_512, 4%nat,
             [Sleep 1; StatsLine 2 2; SinkWrite [0; 0; 2; 2; 85; 85; 85; 85];
              StatsLine 3 2; SinkWrite []])
  /\ network_read_bytes env_512 3 (fst (fst (Player.cycle env_512 2 player_512))) = 0
  /\ player_read_bytes (fst (fst (Player.cycle env_512 2 player_512))) = 0
  /\ Player.paused played_512 = false
  /\ exists q tr,
       Player.play env_512 5 (Player.pause env_512 4 played_512) = Some (q, 6%nat, tr)
       /\ tr = [StatsLine 5 2; SinkWrite []]
       /\ stats_records tr = [(5, 2)]
       /\ Player.paused q = false.
Proof.
  split; [ vm_compute; reflexivity | ].
  split; [ vm_compute; reflexivity | ].
  split; [ vm_compute; reflexivity | ].
  split; [ vm_compute; reflexivity | ].
  split; [ reflexivity | ].
  do 2 eexists. split; [ vm_compute; reflexivity | ].
  split; [ reflexivity | ]. split; reflexivity.
Qed.

(** C4, as amended. [play()] returns, with [paused] false (the code keeps
    no playback state: the loop being left is [play()] having returned).
    The pass in which both reads return 0 bytes is the last one of the
    call: it still appends its own stats line and hands the sink an empty
    array, and then the call returns, so the trace of the call ends there.
    A later [play()], called at once or after [pause()], is one more pass:
    it hands the sink an empty array again, and appends one more stats
    line. *)
Theorem play_ends_at_end_of_stream env k p :
  player_ok p ->
  (exists p' k' tr0 t n,
      Player.play env k p = Some (p', k', tr0 ++ [StatsLine t n; SinkWrite []])
      /\ Player.paused p' = false)
  /\ (forall fuel,
        network_read_bytes env k p = 0 -> player_read_bytes p = 0 ->
        Player.play_loop (S fuel) env k p
        = Some (fst (fst (Player.cycle env k p)), S k, snd (fst (Player.cycle env k p)))
        /\ sink_bytes (snd (fst (Player.cycle env k p))) = []
        /\ exists n,
             stats_records (snd (fst (Player.cycle env k p))) = [(clock_ms env k, n)])
  /\ (2 <= Player.networkBytes p -> 2 <= Player.playerBytes p ->
      forall p1 k1 tr1 j k2,
        Player.play env k p = Some (p1, k1, tr1) ->
        (exists q,
            Player.play env k2 p1
            = Some (q, S k2,
                    [StatsLine (clock_ms env k2) (Player.writtenSamples p1);
                     SinkWrite []]))
        /\ (exists q,
               Player.play env k2 (Player.pause env j p1)
               = Some (q, S k2,
                       [StatsLine (clock_ms env k2) (Player.writtenSamples p1);
                        SinkWrite []]))).
Proof.
  intros Hok. split; [ | split ].
  - destruct (play_loop_returns env (S (Player.remaining p)) k p Hok)
      as (p' & k' & tr & E); [ lia | ].
    pose proof (play_loop_paused env _ _ _ _ _ _ E) as Hp.
    destruct (play_loop_last env _ _ _ _ _ _ E) as (tr0 & t & n & ->).
    exists p', k', tr0, t, n. split; [ exact E | exact Hp ].
  - intros fuel Hn Hp.
    assert (Eeos : snd (Player.cycle env k p) = true).
    { rewrite cycle_eos, Hn, Hp. reflexivity. }
    rewrite play_loop_step, Eeos.
    destruct (cycle_eos_trace env k p Eeos) as (trn & n & _ & Es & Er).
    split; [ reflexivity | ]. split; [ exact Es | ]. exists n. exact Er.
  - intros Hnb Hpb p1 k1 tr1 j k2 E1.
    destruct (play_loop_totals env (S (Player.remaining p)) k p Hok)
      as (p1' & k1' & tr1' & tr0 & t & E & Hok1 & _ & _ & _ & _ & _ & Hend & Hrg & _);
      [ lia | ].
    unfold Player.play in E1. rewrite E in E1. injection E1 as <- _ _.
    specialize (Hend Hnb Hpb).
    pose proof (remaining_spec p1' Hok1) as Hr1.
    assert (Hcur : Player.m_sawIndex p1' = Z.of_nat (length (Player.m_saw p1'))
                   /\ NetworkReader.m_sawIndex (Player.nr p1')
                      = Z.of_nat (length (NetworkReader.m_saw (Player.nr p1')))).
    { destruct Hok1 as ([Hf3 Hf4] & [Hn3 Hn4] & _). lia. }
    destruct Hcur as [Hcf Hcn].
    split; eexists; unfold Player.play; rewrite play_loop_step.
    + rewrite (cycle_at_end env k2 p1' Hcf Hcn Hrg). reflexivity.
    + rewrite (cycle_at_end env k2 (Player.pause env j p1') Hcf Hcn Hrg). reflexivity.
Qed.

(** The amended C4 at the player whose sources each hold one sample, and,
    for the pass in which both reads return 0, at that player after its
    run. *)
Lemma play_ends_at_end_of_stream_witness :
  (exists p' k' tr0 t n,
      Player.play env_512 2 player_512
      = Some (p', k', tr0 ++ [StatsLine t n; SinkWrite []])
      /\ Player.paused p' = false)
  /\ (forall fuel,
        Player.play_loop (S fuel) env_512 4 played_512
        = Some (fst (fst (Player.cycle env_512 4 played_512)), 5%nat,
                snd (fst (Player.cycle env_512 4 played_512)))
        /\ sink_bytes (snd (fst (Player.cycle env_512 4 played_512))) = []
        /\ exists n,
             stats_records (snd (fst (Player.cycle env_512 4 played_512)))
             = [(clock_ms env_512 4, n)])
  /\ (forall j k2,
        (exists q,
            Player.play env_512 k2 played_512
            = Some (q, S k2,
                    [StatsLine (clock_ms env_512 k2) (Player.writtenSamples played_512);
                     SinkWrite []]))
        /\ (exists q,
               Player.play env_512 k2 (Player.pause env_512 j played_512)
               = Some (q, S k2,
                       [StatsLine (clock_ms env_512 k2)
                                  (Player.writtenSamples played_512);
                        SinkWrite []]))).
Proof.
  destruct (play_ends_at_end_of_stream env_512 2 player_512 player_512_ok)
    as (A & _ & C).
  destruct (play_ends_at_end_of_stream env_512 4 played_512 played_512_ok)
    as (_ & B & _).
  split; [ exact A | ]. split.
  - intros fuel. apply (B fuel); reflexivity.
  - intros j k2.
    refine (C _ _ played_512 4%nat
              [Sleep 1; StatsLine 2 2; SinkWrite [0; 0; 2; 2; 85; 85; 85; 85];
               StatsLine 3 2; SinkWrite []] j k2 _);
      [ vm_compute; discriminate | vm_compute; discriminate | vm_compute; reflexivity ].
Defined.

(** ** [play()] after [play()] *)

(** X8. [play()] after [play()]. When a run of [play()] has returned,
    whatever of [pause()], [setMixingLevel()] and further passes is called
    next, with the streams left open, a later [play()] is a single pass: it
    hands the sink no byte, does not sleep, writes one stats line that
    repeats the count, and leaves the counter and both cursors where they
    were. What [main] resumes after its pause is a stream already played to
    its end. *)
Theorem play_again_is_silent env k p steps k2 :
  player_ok p -> 2 <= Player.networkBytes p -> 2 <= Player.playerBytes p ->
  ~ In DoClose steps ->
  exists p1 k1 tr1 q',
    Player.play env k p = Some (p1, k1, tr1)
    /\ Player.play env k2 (fst (fst (session env k1 steps p1)))
       = Some (q', S k2,
               [StatsLine (clock_ms env k2)
                          (Player.writtenSamples (fst (fst (session env k1 steps p1))));
                SinkWrite []])
    /\ Player.writtenSamples q'
       = Player.writtenSamples (fst (fst (session env k1 steps p1)))
    /\ Player.m_sawIndex q' = Z.of_nat (length (Player.m_saw p))
    /\ NetworkReader.m_sawIndex (Player.nr q')
       = Z.of_nat (length (NetworkReader.m_saw (Player.nr p))).
Proof.
  intros Hok Hnb Hpb _.
  destruct (play_loop_totals env (S (Player.remaining p)) k p Hok)
    as (p1 & k1 & tr1 & tr0 & t & E & Hok1 & Es & Ens & _ & _ & _ & Hend & Hrg & _);
    [ lia | ].
  specialize (Hend Hnb Hpb).
  pose proof (remaining_spec p1 Hok1) as Hr1.
  pose proof (session_counter_range env steps k1 p1 Hok1 Hrg) as Hw.
  pose proof (session_spec env steps k1 p1 Hok1) as Hs.
  exists p1, k1, tr1.
  destruct (session env k1 steps p1) as [[q dn] dl]. cbn [fst] in *.
  destruct Hs as (Hokq & Eqs & Eqns & Hi & Hni & _).
  assert (Hcur : Player.m_sawIndex q = Z.of_nat (length (Player.m_saw q))
                 /\ NetworkReader.m_sawIndex (Player.nr q)
                    = Z.of_nat (length (NetworkReader.m_saw (Player.nr q)))).
  { destruct Hokq as ([Hf1 Hf2] & [Hn1 Hn2] & _).
    destruct Hok1 as ([Hf3 Hf4] & [Hn3 Hn4] & _).
    rewrite Eqs, Eqns in *. lia. }
  destruct Hcur as [Hcf Hcn].
  eexists.
  split; [ exact E | ].
  unfold Player.play. rewrite play_loop_step.
  rewrite (cycle_at_end env k2 q Hcf Hcn Hw). cbn [fst snd].
  split; [ reflexivity | ]. split; [ reflexivity | ].
  cbn [Player.m_sawIndex Player.nr].
  rewrite Hcf, Hcn, Eqs, Eqns, Es, Ens. split; reflexivity.
Qed.

Lemma play_again_is_silent_witness :
  exists p1 k1 tr1 q',
    Player.play env_512 2 player_512 = Some (p1, k1, tr1)
    /\ Player.play env_512 9 (fst (fst (session env_512 k1 [DoPause] p1)))
       = Some (q', 10%nat,
               [StatsLine (clock_ms env_512 9)
                          (Player.writtenSamples (fst (fst (session env_512 k1 [DoPause] p1))));
                SinkWrite []])
    /\ Player.writtenSamples q'
       = Player.writtenSamples (fst (fst (session env_512 k1 [DoPause] p1)))
    /\ Player.m_sawIndex q' = Z.of_nat (length (Player.m_saw player_512))
    /\ NetworkReader.m_sawIndex (Player.nr q')
       = Z.of_nat (length (NetworkReader.m_saw (Player.nr player_512))).
Proof.
  apply (play_again_is_silent env_512 2 player_512 [DoPause] 9 player_512_ok);
    [ vm_compute; discriminate | vm_compute; discriminate | ].
  intros [ H | [] ]. discriminate H.
Defined.

(** ** [pause()] and [play()] *)

Lemma read_with_pause t n b p buf maxBytes :
  Player.read (with_pause t n b p) buf maxBytes
  = (fst (fst (Player.read p buf maxBytes)),
     with_pause t n b (snd (fst (Player.read p buf maxBytes))),
     snd (Player.read p buf maxBytes)).
Proof.
  unfold Player.read, with_pause.
  cbn [Player.m_saw Player.m_sawIndex Player.networkLevel Player.playerLevel Player.nr
       Player.playerBuffer Player.networkBuffer Player.mix Player.playerBytes
       Player.networkBytes Player.writtenSamples Player.timePaused Player.pausedSample
       Player.paused].
  destruct (to_size_t (Z.of_nat (length (Player.m_saw p)) - Player.m_sawIndex p) =? 0);
    reflexivity.
Qed.

Lemma cycle_with_pause env k t n b p :
  Player.cycle env k (with_pause t n b p)
  = (with_pause t n false (fst (fst (Player.cycle env k p))),
     snd (fst (Player.cycle env k p)),
     snd (Player.cycle env k p)).
Proof.
  unfold Player.cycle. rewrite read_with_pause.
  change (Player.nr (with_pause t n b p)) with (Player.nr p).
  change (Player.networkBuffer (with_pause t n b p)) with (Player.networkBuffer p).
  change (Player.networkBytes (with_pause t n b p)) with (Player.networkBytes p).
  change (Player.playerBuffer (with_pause t n b p)) with (Player.playerBuffer p).
  change (Player.playerBytes (with_pause t n b p)) with (Player.playerBytes p).
  destruct (NetworkReader.read env k (Player.nr p) (Player.networkBuffer p)
              (Player.networkBytes p)) as [[[nread r] nbuf] trn].
  destruct (Player.read p (Player.playerBuffer p) (Player.playerBytes p))
    as [[pread p1] pbuf].
  reflexivity.
Qed.

Lemma play_loop_with_pause env fuel :
  forall k t n b p,
    Player.play_loop fuel env k (with_pause t n b p)
    = match Player.play_loop fuel env k p with
      | Some (p', k', tr) => Some (with_pause t n false p', k', tr)
      | None => None
      end.
Proof.
  induction fuel as [ | fuel IH ]; intros k t n b p; [ reflexivity | ].
  rewrite !play_loop_step, cycle_with_pause. cbn [fst snd].
  destruct (snd (Player.cycle env k p)); [ reflexivity | ].
  rewrite IH.
  destruct (Player.play_loop fuel env (S k) (fst (fst (Player.cycle env k p))))
    as [[[p' k'] tr] | ]; reflexivity.
Qed.

(** X9. [pause()] does not hold [play()] back. A call of [pause()] before
    [play()] changes nothing of the run: the same passes at the same world
    steps and the same trace, the same player at the end but for the time
    and the count [pause()] noted; [play()] clears the flag before anything
    reads it. *)
Theorem pause_does_not_hold_play env j k p :
  Player.pause env j p = with_pause (clock_ms env j) (Player.writtenSamples p) true p
  /\ Player.play env k (Player.pause env j p)
     = match Player.play env k p with
       | Some (p', k', tr) =>
           Some (with_pause (clock_ms env j) (Player.writtenSamples p) false p', k', tr)
       | None => None
       end.
Proof.
  split; [ reflexivity | ].
  unfold Player.play.
  change (Player.pause env j p)
    with (with_pause (clock_ms env j) (Player.writtenSamples p) true p).
  change (Player.remaining (with_pause (clock_ms env j) (Player.writtenSamples p) true p))
    with (Player.remaining p).
  apply play_loop_with_pause.
Qed.

(** ** The bytes of a file and the samples of a vector *)

(** Induction over a list of bytes two by two, as [samples_of_bytes] reads
    it. *)
Lemma pairs_ind (P : list Z -> Prop) :
  P [] -> (forall x, P [x]) ->
  (forall lo hi rest, P rest -> P (lo :: hi :: rest)) ->
  forall l, P l.
Proof.
  intros H0 H1 H2.
  assert (H : forall l, P l /\ forall x, P (x :: l)).
  { induction l as [ | y l [IH1 IH2] ]; split; auto. }
  intros l. apply H.
Qed.

Lemma samples_of_bytes_length bs :
  Z.of_nat (length (samples_of_bytes bs)) = Z.of_nat (length bs) / 2.
Proof.
  induction bs as [ | x | lo hi rest IH ] using pairs_ind; [ reflexivity | reflexivity | ].
  cbn [samples_of_bytes length]. rewrite !Nat2Z.inj_succ, IH. div_lia.
Qed.

(** The two bytes of the sample two [char]s make are those [char]s. *)
Lemma bytes_of_their_sample lo hi :
  is_char lo -> is_char hi -> bytes_of_sample (lo mod 256 + 256 * to_char hi) = [lo; hi].
Proof.
  unfold is_char. intros Hlo Hhi. unfold bytes_of_sample.
  rewrite (to_char_small hi) by exact Hhi.
  assert (E1 : to_char (lo mod 256 + 256 * hi) = lo).
  { unfold to_char.
    replace (lo mod 256 + 256 * hi + 128) with (lo mod 256 + 128 + hi * 256) by lia.
    rewrite Z.mod_add by lia. div_lia. }
  assert (E2 : (lo mod 256 + 256 * hi) / 256 = hi) by div_lia.
  rewrite E1, E2, (to_char_small hi) by exact Hhi. reflexivity.
Qed.

(** The bytes of the first [n] samples of a file are its first [2 n]
    bytes, and the samples from the [n]-th on are those of its bytes from
    the [2 n]-th on. *)
Lemma bytes_of_first_samples n :
  forall bs,
    Forall is_char bs -> (2 * n <= length bs)%nat ->
    bytes_of_samples (firstn n (samples_of_bytes bs)) = firstn (2 * n) bs.
Proof.
  induction n as [ | n IH ]; intros bs Hc Hl; [ reflexivity | ].
  destruct bs as [ | lo [ | hi rest ] ]; cbn [length] in Hl; try lia.
  inversion Hc as [ | ? ? Hlo Hc1 ]; subst. inversion Hc1 as [ | ? ? Hhi Hc2 ]; subst.
  replace (2 * S n)%nat with (S (S (2 * n))) by lia.
  cbn [samples_of_bytes firstn bytes_of_samples flat_map].
  rewrite (bytes_of_their_sample lo hi Hlo Hhi).
  fold (bytes_of_samples (firstn n (samples_of_bytes rest))).
  rewrite IH by (try assumption; lia). reflexivity.
Qed.

Lemma samples_of_later_bytes n :
  forall bs, skipn n (samples_of_bytes bs) = samples_of_bytes (skipn (2 * n) bs).
Proof.
  induction n as [ | n IH ]; intros bs; [ reflexivity | ].
  replace (2 * S n)%nat with (S (S (2 * n))) by lia.
  destruct bs as [ | lo [ | hi rest ] ]; try reflexivity.
  cbn [samples_of_bytes skipn]. apply IH.
Qed.

Lemma Forall_skipn (P : Z -> Prop) n l : Forall P l -> Forall P (skipn n l).
Proof.
  intros H. rewrite <- (firstn_skipn n l) in H. apply Forall_app in H. apply H.
Qed.

(** The bytes of the samples from cursor [idx] to cursor [idx'] are the
    bytes of the file from [2 idx] to [2 idx']. *)
Lemma chunk_of_file bs idx idx' :
  Forall is_char bs ->
  0 <= idx <= idx' -> idx' <= Z.of_nat (length (samples_of_bytes bs)) ->
  bytes_of_samples (chunk (samples_of_bytes bs) idx (idx' - idx))
  = firstn (Z.to_nat (2 * (idx' - idx))) (skipn (Z.to_nat (2 * idx)) bs).
Proof.
  intros Hc Hi Hl. unfold chunk.
  rewrite samples_of_later_bytes.
  replace (2 * Z.to_nat idx)%nat with (Z.to_nat (2 * idx)) by lia.
  replace (Z.to_nat (2 * (idx' - idx))) with (2 * Z.to_nat (idx' - idx))%nat by lia.
  apply bytes_of_first_samples; [ apply Forall_skipn; exact Hc | ].
  rewrite length_skipn. rewrite samples_of_bytes_length in Hl.
  assert (2 * idx' <= Z.of_nat (length bs)) by div_lia. lia.
Qed.

(** X10. What the sources hand over is the content of the two files. The
    sample vectors are only containers: over any session, the bytes the
    file source handed over are the bytes of its file from twice the cursor
    at the start to twice the cursor at the end, unchanged and in order,
    and so for the network source. *)
Theorem sources_hand_over_the_files env k steps p fileBytes netBytes :
  player_ok p -> Forall is_char fileBytes -> Forall is_char netBytes ->
  Player.m_saw p = samples_of_bytes fileBytes ->
  NetworkReader.m_saw (Player.nr p) = samples_of_bytes netBytes ->
  let '(p', dn, dl) := session env k steps p in
  dl = firstn (Z.to_nat (2 * (Player.m_sawIndex p' - Player.m_sawIndex p)))
              (skipn (Z.to_nat (2 * Player.m_sawIndex p)) fileBytes)
  /\ dn = firstn (Z.to_nat (2 * (NetworkReader.m_sawIndex (Player.nr p')
                                 - NetworkReader.m_sawIndex (Player.nr p))))
                 (skipn (Z.to_nat (2 * NetworkReader.m_sawIndex (Player.nr p))) netBytes).
Proof.
  intros Hok Hcf Hcn Ef En.
  pose proof (session_spec env steps k p Hok) as Hs.
  destruct (session env k steps p) as [[p' dn] dl].
  destruct Hs as (Hok' & Es & Ens & Hi & Hni & -> & ->).
  destruct Hok as ([[Hf0 Hf1] Hf2] & [[Hn0 Hn1] Hn2] & _).
  destruct Hok' as ([[Hf3 Hf4] Hf5] & [[Hn3 Hn4] Hn5] & _).
  rewrite Es in Hf4. rewrite Ens in Hn4. rewrite Ef in *. rewrite En in *.
  split; apply chunk_of_file; try assumption; lia.
Qed.

Lemma sources_hand_over_the_files_witness :
  let '(p', dn, dl) := session env_512 2 [DoCycle] player_512 in
  dl = firstn (Z.to_nat (2 * (Player.m_sawIndex p' - Player.m_sawIndex player_512)))
              (skipn (Z.to_nat (2 * Player.m_sawIndex player_512)) [0; 2])
  /\ dn = firstn (Z.to_nat (2 * (NetworkReader.m_sawIndex (Player.nr p')
                                 - NetworkReader.m_sawIndex (Player.nr player_512))))
                 (skipn (Z.to_nat (2 * NetworkReader.m_sawIndex (Player.nr player_512)))
                        [0; 2]).
Proof.
  apply (sources_hand_over_the_files env_512 2 [DoCycle] player_512 [0; 2] [0; 2]
           player_512_ok).
  - repeat constructor; vm_compute; discriminate.
  - repeat constructor; vm_compute; discriminate.
  - reflexivity.
  - reflexivity.
Defined.

(** ** The constructor and [open()] *)

Lemma loaded_cursor_ok bytes :
  Z.of_nat (length bytes) < 2 ^ 31 -> cursor_ok (samples_of_bytes bytes) 0.
Proof.
  intros H. unfold cursor_ok. rewrite samples_of_bytes_length.
  assert (0 <= Z.of_nat (length bytes) / 2 <= Z.of_nat (length bytes)) by div_lia.
  assert (2 ^ 31 < 2 ^ 62) by (vm_compute; reflexivity). lia.
Qed.

Lemma setMixingLevel_zero p :
  Player.setMixingLevel 0 p
  = Player.mk 0.5 0.5 (Player.nr p) (Player.playerBuffer p) (Player.networkBuffer p)
              (Player.mix p) (Player.playerBytes p) (Player.networkBytes p)
              (Player.writtenSamples p) (Player.m_saw p) (Player.m_sawIndex p)
              (Player.timePaused p) (Player.pausedSample p) (Player.paused p).
Proof.
  unfold Player.setMixingLevel.
  replace ((1 - (if (1 <=? (if (0 <=? -1) then -1 else 0)) then 1
                 else if (0 <=? -1) then -1 else 0)) / 2)%float
    with 0.5%float by (vm_compute; reflexivity).
  replace ((1 + (if (1 <=? (if (0 <=? -1) then -1 else 0)) then 1
                 else if (0 <=? -1) then -1 else 0)) / 2)%float
    with 0.5%float by (vm_compute; reflexivity).
  reflexivity.
Qed.

(** The state [Player pl; pl.open(...)] leaves. *)
Lemma boot_spec env networkUrl filename junk fileBytes netBytes :
  files env "audio1_s16le_mono_48k.raw" = Some fileBytes ->
  files env "audio2_s16le_mono_48k.raw" = Some netBytes ->
  boot env networkUrl filename junk
  = Returns
      (Player.mk 0.5 0.5 (NetworkReader.mk (samples_of_bytes netBytes) 0)
                 (new_chars env 1 144) (new_chars env 0 144) (Player.mix junk)
                 144 144 (Player.writtenSamples junk)
                 (samples_of_bytes fileBytes) 0
                 (Player.timePaused junk) (Player.pausedSample junk) (Player.paused junk))
      [OpenIn "audio2_s16le_mono_48k.raw"; OpenOut "audio_output.raw";
       OpenOut "realtime_stats.txt"; OpenIn "audio1_s16le_mono_48k.raw"].
Proof.
  intros Hf Hn.
  unfold boot, Player.new, NetworkReader.new, NetworkReader.initWaveform.
  rewrite Hn. unfold Player.open, Player.init. rewrite Hf.
  rewrite setMixingLevel_zero. reflexivity.
Qed.

(** X11. The constructor and [open()] establish the state every pass
    relies on, and every call keeps it. With both input files there, each
    of an even number of bytes below 2 GiB (what [int length] holds and the
    resized vector has room for), [Player pl; pl.open(...)] returns with
    both cursors at 0
    within their vectors, one sample for every two bytes of each file,
    requests and buffers of 144 bytes and both gains 0.5; [writtenSamples]
    is still what it was before the constructor ran, no statement assigns
    it. The state is well-formed, and stays so over every session. *)
Theorem open_establishes_the_state env networkUrl filename junk fileBytes netBytes k steps :
  files env "audio1_s16le_mono_48k.raw" = Some fileBytes ->
  files env "audio2_s16le_mono_48k.raw" = Some netBytes ->
  Z.of_nat (length fileBytes) < 2 ^ 31 ->
  Z.of_nat (length netBytes) < 2 ^ 31 ->
  Z.even (Z.of_nat (length fileBytes)) = true ->
  Z.even (Z.of_nat (length netBytes)) = true ->
  exists p,
    boot env networkUrl filename junk
    = Returns p [OpenIn "audio2_s16le_mono_48k.raw"; OpenOut "audio_output.raw";
                 OpenOut "realtime_stats.txt"; OpenIn "audio1_s16le_mono_48k.raw"]
    /\ player_ok p
    /\ Player.m_sawIndex p = 0
    /\ NetworkReader.m_sawIndex (Player.nr p) = 0
    /\ Z.of_nat (length (Player.m_saw p)) = Z.of_nat (length fileBytes) / 2
    /\ Z.of_nat (length (NetworkReader.m_saw (Player.nr p)))
       = Z.of_nat (length netBytes) / 2
    /\ Player.playerBytes p = 144 /\ Player.networkBytes p = 144
    /\ length (Player.playerBuffer p) = 144%nat
    /\ length (Player.networkBuffer p) = 144%nat
    /\ Player.networkLevel p = 0.5%float /\ Player.playerLevel p = 0.5%float
    /\ Player.writtenSamples p = Player.writtenSamples junk
    /\ player_ok (fst (fst (session env k steps p))).
Proof.
  intros Hf Hn Hlf Hln _ _.
  eexists. split; [ apply (boot_spec env _ _ _ _ _ Hf Hn) | ].
  match goal with |- player_ok ?q /\ _ => set (p := q) end.
  assert (Hok : player_ok p).
  { unfold player_ok, p. cbn.
    split; [ apply loaded_cursor_ok; exact Hlf | ].
    split; [ apply loaded_cursor_ok; exact Hln | lia ]. }
  split; [ exact Hok | ].
  split; [ reflexivity | ]. split; [ reflexivity | ].
  split; [ apply samples_of_bytes_length | ].
  split; [ apply samples_of_bytes_length | ].
  split; [ reflexivity | ]. split; [ reflexivity | ].
  split; [ apply new_chars_length | ]. split; [ apply new_chars_length | ].
  split; [ reflexivity | ]. split; [ reflexivity | ]. split; [ reflexivity | ].
  pose proof (session_spec env steps k p Hok) as Hs.
  destruct (session env k steps p) as [[p' dn] dl]. apply Hs.
Qed.

Lemma open_establishes_the_state_witness :
  exists p,
    boot env_512 "a" "b" blank
    = Returns p [OpenIn "audio2_s16le_mono_48k.raw"; OpenOut "audio_output.raw";
                 OpenOut "realtime_stats.txt"; OpenIn "audio1_s16le_mono_48k.raw"]
    /\ player_ok p
    /\ Player.m_sawIndex p = 0
    /\ NetworkReader.m_sawIndex (Player.nr p) = 0
    /\ Z.of_nat (length (Player.m_saw p)) = Z.of_nat (length [0; 2]) / 2
    /\ Z.of_nat (length (NetworkReader.m_saw (Player.nr p))) = Z.of_nat (length [0; 2]) / 2
    /\ Player.playerBytes p = 144 /\ Player.networkBytes p = 144
    /\ length (Player.playerBuffer p) = 144%nat
    /\ length (Player.networkBuffer p) = 144%nat
    /\ Player.networkLevel p = 0.5%float /\ Player.playerLevel p = 0.5%float
    /\ Player.writtenSamples p = Player.writtenSamples blank
    /\ player_ok (fst (fst (session env_512 2 [DoCycle; DoPause; DoCycle; DoClose] p))).
Proof.
  apply (open_establishes_the_state env_512 "a" "b" blank [0; 2] [0; 2] 2
           [DoCycle; DoPause; DoCycle; DoClose]);
    try reflexivity; vm_compute; reflexivity.
Defined.

(** A pass that starts with both cursors at the end hands the sink an
    empty array and leaves the cursors. *)
Lemma cycle_at_end_sink env k q :
  Player.m_sawIndex q = Z.of_nat (length (Player.m_saw q)) ->
  NetworkReader.m_sawIndex (Player.nr q)
  = Z.of_nat (length (NetworkReader.m_saw (Player.nr q))) ->
  snd (Player.cycle env k q) = true
  /\ sink_bytes (snd (fst (Player.cycle env k q))) = []
  /\ Player.m_sawIndex (fst (fst (Player.cycle env k q))) = Player.m_sawIndex q
  /\ Player.nr (fst (fst (Player.cycle env k q))) = Player.nr q.
Proof.
  intros Hf Hn. unfold Player.cycle.
  rewrite (NetworkReader_read_at_end env k (Player.nr q) _ _ Hn).
  rewrite (Player_read_at_end q _ _ Hf).
  change (Player.mix_length 0 0) with 0.
  change (new_chars env k 0) with (@nil Z).
  change (Z.to_nat 0) with O. cbn [Player.mix_assign Player.mix_add app].
  repeat split; reflexivity.
Qed.

(** X12. [open()] does not rewind. Called on a player that has been
    opened before, with the input file there (of an even number of bytes
    below 2 GiB), [open()] reloads the file source, allocates the buffers
    anew and sets the gains back to 0.5, so that a level set before it is
    lost; it leaves the file cursor, the network reader and the counter as
    they are. A player that has played both sources to the end and is
    opened again is still at the end: [play()] then makes a single pass,
    hands the sink no byte and leaves both cursors at the end. *)
Theorem open_does_not_rewind env k k2 networkUrl filename level p bytes :
  files env "audio1_s16le_mono_48k.raw" = Some bytes ->
  Z.of_nat (length bytes) < 2 ^ 31 ->
  Z.even (Z.of_nat (length bytes)) = true ->
  exists p' tr,
    Player.open env k networkUrl filename p = Returns p' tr
    /\ Player.open env k networkUrl filename (Player.setMixingLevel level p) = Returns p' tr
    /\ Player.m_saw p' = samples_of_bytes bytes
    /\ Player.m_sawIndex p' = Player.m_sawIndex p
    /\ Player.nr p' = Player.nr p
    /\ Player.writtenSamples p' = Player.writtenSamples p
    /\ Player.networkLevel p' = 0.5%float /\ Player.playerLevel p' = 0.5%float
    /\ (Player.m_sawIndex p = Z.of_nat (length (samples_of_bytes bytes)) ->
        NetworkReader.m_sawIndex (Player.nr p)
        = Z.of_nat (length (NetworkReader.m_saw (Player.nr p))) ->
        exists q tr2,
          Player.play env k2 p' = Some (q, S k2, tr2)
          /\ sink_bytes tr2 = []
          /\ Player.m_sawIndex q = Z.of_nat (length (Player.m_saw q))
          /\ NetworkReader.m_sawIndex (Player.nr q)
             = Z.of_nat (length (NetworkReader.m_saw (Player.nr q)))).
Proof.
  intros Hf _ _. unfold Player.open, Player.init. rewrite Hf.
  rewrite !setMixingLevel_zero.
  do 2 eexists. split; [ reflexivity | ].
  split; [ reflexivity | ]. split; [ reflexivity | ]. split; [ reflexivity | ].
  split; [ reflexivity | ]. split; [ reflexivity | ].
  split; [ reflexivity | ]. split; [ reflexivity | ].
  intros Hcf Hcn.
  match goal with |- exists q tr2, Player.play env k2 ?P = _ /\ _ => set (p' := P) end.
  destruct (cycle_at_end_sink env k2 p' Hcf Hcn) as (Eeos & Es & Ei & En).
  exists (fst (fst (Player.cycle env k2 p'))), (snd (fst (Player.cycle env k2 p'))).
  split; [ unfold Player.play; rewrite play_loop_step, Eeos; reflexivity | ].
  split; [ exact Es | ].
  assert (Em : Player.m_saw (fst (fst (Player.cycle env k2 p'))) = Player.m_saw p').
  { unfold Player.cycle.
    rewrite (NetworkReader_read_at_end env k2 (Player.nr p') _ _ Hcn).
    rewrite (Player_read_at_end p' _ _ Hcf). reflexivity. }
  rewrite Ei, En, Em. split; [ exact Hcf | exact Hcn ].
Qed.

(** X12 at the player that has played both sources to their end. *)
Lemma open_does_not_rewind_witness :
  exists p' tr,
    Player.open env_512 5 "a" "b" played_512 = Returns p' tr
    /\ Player.open env_512 5 "a" "b" (Player.setMixingLevel 1 played_512) = Returns p' tr
    /\ Player.m_saw p' = samples_of_bytes [0; 2]
    /\ Player.m_sawIndex p' = Player.m_sawIndex played_512
    /\ Player.nr p' = Player.nr played_512
    /\ Player.writtenSamples p' = Player.writtenSamples played_512
    /\ Player.networkLevel p' = 0.5%float /\ Player.playerLevel p' = 0.5%float
    /\ exists q tr2,
         Player.play env_512 7 p' = Some (q, 8%nat, tr2)
         /\ sink_bytes tr2 = []
         /\ Player.m_sawIndex q = Z.of_nat (length (Player.m_saw q))
         /\ NetworkReader.m_sawIndex (Player.nr q)
            = Z.of_nat (length (NetworkReader.m_saw (Player.nr q))).
Proof.
  destruct (open_does_not_rewind env_512 5 7 "a" "b" 1%float played_512 [0; 2]
              eq_refl eq_refl eq_refl)
    as (p' & tr & A & B & C & D & E & F & G & H & I).
  exists p', tr.
  repeat (split; [ assumption | ]).
  apply I; reflexivity.
Defined.

(** ** The transfer rate profile *)

Lemma initProfileCurve_length dis :
  length (initProfileCurve dis m_maxTime) = 100%nat.
Proof. unfold initProfileCurve. rewrite length_map, length_seq. reflexivity. Qed.

Lemma initProfileCurve_nth dis i :
  (i < 100)%nat -> nth_error (initProfileCurve dis m_maxTime) i = Some (dis i).
Proof.
  intros H. unfold initProfileCurve.
  change (Z.to_nat (Z.quot m_maxTime 1000)) with 100%nat.
  rewrite nth_error_map, nth_error_seq.
  destruct (Nat.ltb_spec i 100); [ reflexivity | lia ].
Qed.

Lemma initProfileCurve_past dis i :
  (100 <= i)%nat -> nth_error (initProfileCurve dis m_maxTime) i = None.
Proof.
  intros H. apply nth_error_None. rewrite initProfileCurve_length. exact H.
Qed.

(** The second of the period a time falls in. *)
Lemma profile_second time :
  0 <= time ->
  Z.quot (Z.rem time m_maxTime) 1000 = time mod 100000 / 1000
  /\ 0 <= time mod 100000 / 1000 < 100.
Proof.
  intros H. unfold m_maxTime. change (100 * 1000) with 100000.
  rewrite Z.rem_mod_nonneg by lia.
  rewrite Z.quot_div_nonneg by (try lia; apply Z.mod_pos_bound; lia).
  split; [ reflexivity | div_lia ].
Qed.

Lemma getProfileValueAt_spec cos dis time :
  0 <= time ->
  getProfileValueAt cos (initProfileCurve dis m_maxTime) time
  = if time mod 100000 <? 99000
    then Some (cosineInterpolate cos
                 (dis (Z.to_nat (time mod 100000 / 1000)))
                 (dis (S (Z.to_nat (time mod 100000 / 1000))))
                 (double_of_int64 time / 1000
                  - double_of_int64 (time mod 100000 / 1000))%float)
    else None.
Proof.
  intros H. destruct (profile_second time H) as [Es Hs].
  unfold getProfileValueAt. rewrite Es.
  destruct (Z.ltb_spec (time mod 100000 / 1000) 0) as [Hneg | _]; [ lia | ].
  rewrite (initProfileCurve_nth dis (Z.to_nat (time mod 100000 / 1000))) by lia.
  destruct (Z.ltb_spec (time mod 100000) 99000) as [Hin | Hout].
  - assert (time mod 100000 / 1000 < 99) by div_lia.
    replace (Z.to_nat (time mod 100000 / 1000 + 1))
      with (S (Z.to_nat (time mod 100000 / 1000))) by lia.
    rewrite initProfileCurve_nth by lia. reflexivity.
  - assert (99 <= time mod 100000 / 1000) by div_lia.
    rewrite initProfileCurve_past by lia. reflexivity.
Qed.

(** X13. The profile lookup runs past the end of the profile. The
    constructor gives [m_profile] 100 elements, one for each second of the
    period of 100 s. [getProfileValueAt] reads the element of the second the
    time falls in and the next one: in the last second of every period the
    next one is [m_profile[100]], not an element of the vector, and earlier
    in the period both are. [NetworkReader::read] looks the profile up
    before anything else, so every read made in that second, at the end of
    the stream too, indexes the vector out of range. *)
Theorem profile_lookup_past_the_end cos dis time env k r buf maxBytes :
  0 <= time -> clock_ms env k = time ->
  length (initProfileCurve dis m_maxTime) = 100%nat
  /\ (getProfileValueAt cos (initProfileCurve dis m_maxTime) time = None
      <-> 99000 <= time mod 100000)
  /\ (time mod 100000 < 99000 ->
      getProfileValueAt cos (initProfileCurve dis m_maxTime) time
      = Some (cosineInterpolate cos
                (dis (Z.to_nat (time mod 100000 / 1000)))
                (dis (S (Z.to_nat (time mod 100000 / 1000))))
                (double_of_int64 time / 1000
                 - double_of_int64 (time mod 100000 / 1000))%float))
  /\ (timed_read cos (initProfileCurve dis m_maxTime) env k r buf maxBytes = None
      <-> 99000 <= time mod 100000).
Proof.
  intros H Hclock. pose proof (getProfileValueAt_spec cos dis time H) as E.
  split; [ apply initProfileCurve_length | ].
  unfold timed_read. rewrite Hclock, E.
  destruct (Z.ltb_spec (time mod 100000) 99000) as [Hin | Hout].
  - split; [ split; [ discriminate | lia ] | ].
    split; [ reflexivity | ]. split; [ discriminate | lia ].
  - split; [ split; [ lia | reflexivity ] | ].
    split; [ lia | ]. split; [ lia | reflexivity ].
Qed.

Lemma profile_lookup_past_the_end_witness :
  length (initProfileCurve (fun _ => 96000%float) m_maxTime) = 100%nat
  /\ (getProfileValueAt (fun x => x) (initProfileCurve (fun _ => 96000%float) m_maxTime)
        199500 = None
      <-> 99000 <= 199500 mod 100000)
  /\ (199500 mod 100000 < 99000 ->
      getProfileValueAt (fun x => x) (initProfileCurve (fun _ => 96000%float) m_maxTime)
        199500
      = Some (cosineInterpolate (fun x => x)
                ((fun _ => 96000%float) (Z.to_nat (199500 mod 100000 / 1000)))
                ((fun _ => 96000%float) (S (Z.to_nat (199500 mod 100000 / 1000))))
                (double_of_int64 199500 / 1000
                 - double_of_int64 (199500 mod 100000 / 1000))%float))
  /\ (timed_read (fun x => x) (initProfileCurve (fun _ => 96000%float) m_maxTime)
        (mkEnv (fun _ => None) (fun _ => 199500) (fun _ _ => 0) (fun _ _ => 0))
        0 (NetworkReader.mk [] 0) [] 144 = None
      <-> 99000 <= 199500 mod 100000).
Proof.
  apply (profile_lookup_past_the_end (fun x => x) (fun _ => 96000%float) 199500
           (mkEnv (fun _ => None) (fun _ => 199500) (fun _ _ => 0) (fun _ _ => 0))
           0 (NetworkReader.mk [] 0) [] 144).
  - lia.
  - reflexivity.
Defined.

(** ** [main] *)

Lemma new_spec env junk netBytes :
  files env "audio2_s16le_mono_48k.raw" = Some netBytes ->
  Player.new env junk
  = Returns
      (Player.mk (Player.networkLevel junk) (Player.playerLevel junk)
                 (NetworkReader.mk (samples_of_bytes netBytes) 0)
                 (Player.playerBuffer junk) (Player.networkBuffer junk) (Player.mix junk)
                 (Player.playerBytes junk) (Player.networkBytes junk)
                 (Player.writtenSamples junk) [] 0
                 (Player.timePaused junk) (Player.pausedSample junk) (Player.paused junk))
      [OpenIn "audio2_s16le_mono_48k.raw"].
Proof.
  intros Hn. unfold Player.new, NetworkReader.new, NetworkReader.initWaveform.
  rewrite Hn. reflexivity.
Qed.

Lemma open_spec env k networkUrl filename p fileBytes :
  files env "audio1_s16le_mono_48k.raw" = Some fileBytes ->
  Player.open env k networkUrl filename p
  = Returns
      (Player.mk 0.5 0.5 (Player.nr p)
                 (new_chars env (S k) 144) (new_chars env k 144) (Player.mix p)
                 144 144 (Player.writtenSamples p)
                 (samples_of_bytes fileBytes) (Player.m_sawIndex p)
                 (Player.timePaused p) (Player.pausedSample p) (Player.paused p))
      [OpenOut "audio_output.raw"; OpenOut "realtime_stats.txt";
       OpenIn "audio1_s16le_mono_48k.raw"].
Proof.
  intros Hf. unfold Player.open, Player.init. rewrite Hf, setMixingLevel_zero.
  reflexivity.
Qed.

(** X14. [main], with both input files there, each of an even number of
    bytes below 2 GiB. [main] returns 0. All the
    audio is written by the first [play()], before [main] sleeps: four
    bytes for every sample of the one input and of the other, in one pass
    for every 72 samples of the longer input and one more. [pause()] and the
    second [play()], which follow the first sleep, add one stats line that
    repeats the last count, and no audio. *)
Theorem main_plays_before_it_sleeps env junk fileBytes netBytes :
  files env "audio1_s16le_mono_48k.raw" = Some fileBytes ->
  files env "audio2_s16le_mono_48k.raw" = Some netBytes ->
  Z.of_nat (length fileBytes) < 2 ^ 31 ->
  Z.of_nat (length netBytes) < 2 ^ 31 ->
  Z.even (Z.of_nat (length fileBytes)) = true ->
  Z.even (Z.of_nat (length netBytes)) = true ->
  exists played tr0 t0 t n,
    main env junk
    = Some (Returns 0
              ([OpenIn "audio2_s16le_mono_48k.raw"; OpenOut "audio_output.raw";
                OpenOut "realtime_stats.txt"; OpenIn "audio1_s16le_mono_48k.raw"]
               ++ played
               ++ [Sleep 3000; Sleep 10000; StatsLine t n; SinkWrite [];
                   CloseSink; CloseStats]))
    /\ played = tr0 ++ [StatsLine t0 n; SinkWrite []]
    /\ Z.of_nat (length (sink_bytes played))
       = 4 * (Z.of_nat (length fileBytes) / 2 + Z.of_nat (length netBytes) / 2)
    /\ Z.of_nat (length (stats_records played))
       = (Z.max (Z.of_nat (length fileBytes) / 2) (Z.of_nat (length netBytes) / 2) + 71)
         / 72 + 1.
Proof.
  intros Hf Hn Hlf Hln _ _. unfold main.
  rewrite (new_spec env junk netBytes Hn).
  rewrite (open_spec env 0 _ _ _ fileBytes Hf).
  cbn [Player.nr Player.mix Player.writtenSamples Player.m_sawIndex Player.timePaused
       Player.pausedSample Player.paused].
  match goal with
  | |- context [Player.play env 2 ?q] => set (p := q)
  end.
  assert (Hok : player_ok p).
  { unfold player_ok, p. cbn.
    split; [ apply loaded_cursor_ok; exact Hlf | ].
    split; [ apply loaded_cursor_ok; exact Hln | lia ]. }
  assert (Hnb : Player.networkBytes p = 144) by reflexivity.
  assert (Hpb : Player.playerBytes p = 144) by reflexivity.
  assert (Hrem : Z.of_nat (Player.remaining p)
                 = Z.of_nat (length fileBytes) / 2 + Z.of_nat (length netBytes) / 2).
  { rewrite (remaining_spec p Hok). unfold p. cbn.
    rewrite !samples_of_bytes_length. lia. }
  assert (Hlong : longest p
                  = Z.max (Z.of_nat (length fileBytes) / 2) (Z.of_nat (length netBytes) / 2)).
  { unfold longest, p. cbn. rewrite !samples_of_bytes_length. lia. }
  destruct (play_loop_totals env (S (Player.remaining p)) 2 p Hok)
    as (p1 & k1 & tr1 & tr0 & t0 & E & Hok1 & Es & Ens & _ & _ & Hlen & Hend & Hrg
        & Elast & _); [ lia | ].
  destruct (play_loop_depth env (S (Player.remaining p)) 2 p Hok Hnb Hpb) as [Hnone Hsome].
  assert (Hdepth : length (stats_records tr1) = passes p).
  { destruct (Nat.le_gt_cases (passes p) (S (Player.remaining p))) as [H | H].
    - destruct (Hsome H) as (p1' & tr1' & E' & Hl'). rewrite E in E'.
      injection E' as _ _ <-. exact Hl'.
    - rewrite (Hnone H) in E. discriminate. }
  unfold Player.play at 1. rewrite E.
  specialize (Hend ltac:(rewrite Hnb; lia) ltac:(rewrite Hpb; lia)).
  pose proof (remaining_spec p1 Hok1) as Hr1.
  assert (Hcur : Player.m_sawIndex p1 = Z.of_nat (length (Player.m_saw p1))
                 /\ NetworkReader.m_sawIndex (Player.nr p1)
                    = Z.of_nat (length (NetworkReader.m_saw (Player.nr p1)))).
  { destruct Hok1 as ([Hf1 Hf2] & [Hn1 Hn2] & _). lia. }
  destruct Hcur as [Hcf Hcn].
  unfold Player.play. rewrite play_loop_step.
  rewrite (cycle_at_end env (S k1) (Player.pause env k1 p1) Hcf Hcn Hrg).
  cbn [fst snd Player.close].
  exists tr1, tr0, t0, (clock_ms env (S k1)), (Player.writtenSamples p1).
  split; [ reflexivity | ]. split; [ exact Elast | ].
  split; [ lia | ].
  rewrite Hdepth. unfold passes. rewrite Hlong.
  assert (0 <= (Z.max (Z.of_nat (length fileBytes) / 2)
                      (Z.of_nat (length netBytes) / 2) + 71) / 72) by div_lia.
  lia.
Qed.

Lemma main_plays_before_it_sleeps_witness :
  exists played tr0 t0 t n,
    main env_10_6 blank
    = Some (Returns 0
              ([OpenIn "audio2_s16le_mono_48k.raw"; OpenOut "audio_output.raw";
                OpenOut "realtime_stats.txt"; OpenIn "audio1_s16le_mono_48k.raw"]
               ++ played
               ++ [Sleep 3000; Sleep 10000; StatsLine t n; SinkWrite [];
                   CloseSink; CloseStats]))
    /\ played = tr0 ++ [StatsLine t0 n; SinkWrite []]
    /\ Z.of_nat (length (sink_bytes played))
       = 4 * (Z.of_nat (length [1; 0; 2; 0; 3; 0; 4; 0; 5; 0; 6; 0]) / 2
              + Z.of_nat (length [10; 0; 20; 0; 30; 0; 40; 0; 50; 0; 60; 0; 70; 0; 80; 0;
                                  90; 0; 100; 0]) / 2)
    /\ Z.of_nat (length (stats_records played))
       = (Z.max (Z.of_nat (length [1; 0; 2; 0; 3; 0; 4; 0; 5; 0; 6; 0]) / 2)
                (Z.of_nat (length [10; 0; 20; 0; 30; 0; 40; 0; 50; 0; 60; 0; 70; 0; 80; 0;
                                   90; 0; 100; 0]) / 2) + 71)
         / 72 + 1.
Proof.
  apply (main_plays_before_it_sleeps env_10_6 blank
           [1; 0; 2; 0; 3; 0; 4; 0; 5; 0; 6; 0]
           [10; 0; 20; 0; 30; 0; 40; 0; 50; 0; 60; 0; 70; 0; 80; 0; 90; 0; 100; 0]);
    vm_compute; reflexivity.
Defined.

(** X15. [main], with an input file missing. Without the network input
    the process ends with status 1 in the constructor of the player, before
    any file is created. With the network input (of an even number of bytes
    below 2 GiB) but without the file input it ends with status 1 inside
    [open()], after both output files have been opened, that is truncated;
    nothing is played in either case. *)
Theorem main_without_an_input env junk :
  (files env "audio2_s16le_mono_48k.raw" = None ->
   main env junk
   = Some (Exits 1 [OpenIn "audio2_s16le_mono_48k.raw";
                    Cout "NetworkReader: Couldn't open input file!"]))
  /\ (forall netBytes,
        files env "audio2_s16le_mono_48k.raw" = Some netBytes ->
        Z.of_nat (length netBytes) < 2 ^ 31 ->
        Z.even (Z.of_nat (length netBytes)) = true ->
        files env "audio1_s16le_mono_48k.raw" = None ->
        main env junk
        = Some (Exits 1 [OpenIn "audio2_s16le_mono_48k.raw"; OpenOut "audio_output.raw";
                         OpenOut "realtime_stats.txt"; OpenIn "audio1_s16le_mono_48k.raw";
                         Cerr "Player reader: Couldn't open input file!"])).
Proof.
  unfold main, Player.new, NetworkReader.new, NetworkReader.initWaveform. split.
  - intros Hn. rewrite Hn. reflexivity.
  - intros netBytes Hn _ _ Hf. rewrite Hn.
    unfold Player.open, Player.init. rewrite Hf. reflexivity.
Qed.

(** ** The stats file of a run *)

Lemma play_loop_records env fuel :
  forall k p,
    player_ok p -> counter_ok p ->
    Player.networkBytes p = 144 -> Player.playerBytes p = 144 ->
    (passes p <= fuel)%nat ->
    exists p' tr,
      Player.play_loop fuel env k p = Some (p', (k + passes p)%nat, tr)
      /\ stats_records tr
         = map (fun i : nat =>
                  (clock_ms env (k + i),
                   Player.writtenSamples p
                   + Z.min (72 * (Z.of_nat i + 1))
                           (Z.of_nat (length (Player.m_saw p)) - Player.m_sawIndex p)
                   + Z.min (72 * (Z.of_nat i + 1))
                           (Z.of_nat (length (NetworkReader.m_saw (Player.nr p)))
                            - NetworkReader.m_sawIndex (Player.nr p))))
               (seq 0 (passes p)).
Proof.
  induction fuel as [ | fuel IH ]; intros k p Hok Hc Hnb Hpb Hfuel.
  - unfold passes in Hfuel. destruct (longest_step env k p Hok Hnb Hpb) as (H0 & _).
    assert (0 <= (longest p + 71) / 72) by div_lia. lia.
  - rewrite play_loop_step.
    destruct (longest_step env k p Hok Hnb Hpb) as (H0 & Heos & Hl).
    destruct (cycle_ok env k p Hok) as (Hok1 & Hpb1 & Hnb1).
    destruct (cycle_counter_ok env k p Hok Hc) as (Hc1 & Hws1 & _).
    pose proof (cycle_stats env k p Hok) as Hs.
    pose proof (cycle_written_spec p Hok Hc) as Hw.
    pose proof (cycle_state env k p Hok) as Est.
    assert (Hnt : net_take p
                  = Z.min 72 (Z.of_nat (length (NetworkReader.m_saw (Player.nr p)))
                              - NetworkReader.m_sawIndex (Player.nr p)))
      by (unfold net_take; rewrite Hnb; apply take_72).
    assert (Hft : file_take p
                  = Z.min 72 (Z.of_nat (length (Player.m_saw p)) - Player.m_sawIndex p))
      by (unfold file_take; rewrite Hpb; apply take_72).
    assert (Hcur : 0 <= Z.of_nat (length (Player.m_saw p)) - Player.m_sawIndex p
                   /\ 0 <= Z.of_nat (length (NetworkReader.m_saw (Player.nr p)))
                           - NetworkReader.m_sawIndex (Player.nr p)).
    { destruct Hok as ([[? ?] ?] & [[? ?] ?] & _). lia. }
    destruct (snd (Player.cycle env k p)) eqn:Eeos.
    + assert (Hz : longest p = 0) by (apply Heos; reflexivity).
      assert (Hp : passes p = 1%nat) by (unfold passes; rewrite Hz; reflexivity).
      rewrite Hp. do 2 eexists. rewrite Nat.add_1_r. split; [ reflexivity | ].
      rewrite Hs, Hw. cbn [seq map]. rewrite Nat.add_0_r.
      unfold longest in Hz. f_equal. f_equal. change (Z.of_nat 0) with 0. lia.
    + assert (Hpos : 0 < longest p).
      { destruct (Z.eq_dec (longest p) 0) as [Hz | Hz]; [ | lia ].
        apply Heos in Hz. discriminate. }
      destruct (passes_step p Hpos) as (Hpred & Hge).
      assert (Hp1 : passes (fst (fst (Player.cycle env k p))) = Nat.pred (passes p)).
      { unfold passes at 1. rewrite Hl. exact Hpred. }
      destruct (IH (S k) (fst (fst (Player.cycle env k p))) Hok1 Hc1) as (p' & tr & E & Hr);
        [ lia | lia | lia | ].
      rewrite E. do 2 eexists. split.
      * f_equal. f_equal. f_equal. lia.
      * rewrite stats_records_app, Hs, Hr, Hp1, Hws1, Hw.
        replace (passes p) with (S (Nat.pred (passes p))) at 2 by lia.
        cbn [seq map app]. rewrite Nat.add_0_r. f_equal.
        { f_equal. change (Z.of_nat 0) with 0. lia. }
        rewrite <- seq_shift, map_map. apply map_ext. intros i.
        rewrite Est.
        cbn [Player.m_saw Player.m_sawIndex Player.nr
             NetworkReader.m_saw NetworkReader.m_sawIndex].
        f_equal; [ f_equal; lia | ]. lia.
Qed.

(** X16. The stats file of a run. With the requests of 72 samples that
    [open()] sets and a counter that stays within [int], the records
    [play()] writes are, pass [i] counted from 0: the clock reading of that
    pass, and the count the run started from plus the samples each source
    has delivered by then, 72 for each pass until the source is at its
    end. *)
Theorem stats_of_a_run env k p :
  player_ok p -> counter_ok p ->
  Player.networkBytes p = 144 -> Player.playerBytes p = 144 ->
  exists p' tr,
    Player.play env k p = Some (p', (k + passes p)%nat, tr)
    /\ stats_records tr
       = map (fun i : nat =>
                (clock_ms env (k + i),
                 Player.writtenSamples p
                 + Z.min (72 * (Z.of_nat i + 1))
                         (Z.of_nat (length (Player.m_saw p)) - Player.m_sawIndex p)
                 + Z.min (72 * (Z.of_nat i + 1))
                         (Z.of_nat (length (NetworkReader.m_saw (Player.nr p)))
                          - NetworkReader.m_sawIndex (Player.nr p))))
             (seq 0 (passes p)).
Proof.
  intros Hok Hc Hnb Hpb.
  apply play_loop_records; try assumption.
  destruct (play_loop_depth env (S (Player.remaining p)) k p Hok Hnb Hpb) as [Hn _].
  destruct (play_loop_returns env (S (Player.remaining p)) k p Hok) as (p' & k' & tr & E);
    [ lia | ].
  destruct (Nat.le_gt_cases (passes p) (S (Player.remaining p))) as [H | H];
    [ exact H | ].
  rewrite (Hn H) in E. discriminate.
Qed.

Lemma stats_of_a_run_witness :
  exists p' tr,
    Player.play env_10_6 2 player_10_6 = Some (p', (2 + passes player_10_6)%nat, tr)
    /\ stats_records tr
       = map (fun i : nat =>
                (clock_ms env_10_6 (2 + i),
                 Player.writtenSamples player_10_6
                 + Z.min (72 * (Z.of_nat i + 1))
                         (Z.of_nat (length (Player.m_saw player_10_6))
                          - Player.m_sawIndex player_10_6)
                 + Z.min (72 * (Z.of_nat i + 1))
                         (Z.of_nat (length (NetworkReader.m_saw (Player.nr player_10_6)))
                          - NetworkReader.m_sawIndex (Player.nr player_10_6))))
             (seq 0 (passes player_10_6)).
Proof.
  apply (stats_of_a_run env_10_6 2 player_10_6 player_10_6_ok).
  - unfold counter_ok. vm_compute. repeat split; discriminate.
  - reflexivity.
  - reflexivity.
Defined.

(** ** The products of the mixing loops *)

(** The two gains as binary64 numbers, for a level strictly between -1 and
    1 that is not a zero: both are normal numbers, and their values add up
    to 1 within [2 ^ -54]. *)
Lemma gains_values s m e :
  -1074 <= e <= -53 -> 1 <= Z.pos m < 2 ^ 53 ->
  exists M1 E1 M2 E2 delta,
    SFdiv prec emax (SFsub prec emax sf_one (S754_finite s m e)) sf_two
    = S754_finite false M1 E1
    /\ SFdiv prec emax (SFadd prec emax sf_one (S754_finite s m e)) sf_two
       = S754_finite false M2 E2
    /\ Z.pos (digits2_pos M1) = 53 /\ Z.pos (digits2_pos M2) = 53
    /\ -161 <= E1 <= -52 /\ -161 <= E2 <= -52
    /\ -1 <= delta <= 1
    /\ Z.pos M1 * 2 ^ (E1 + 200) + Z.pos M2 * 2 ^ (E2 + 200) = (2 ^ 54 + delta) * 2 ^ 146.
Proof.
  intros He Hm.
  destruct (one_plus_minus s m e ltac:(lia)) as [Ea Es]. rewrite Ea, Es.
  set (k := - e). assert (Hk : 53 <= k <= 1074) by (unfold k; lia).
  replace e with (- k) by (unfold k; lia).
  replace (- - k) with k by lia.
  destruct (sum_shape m k Hk Hm) as (MS & ES & ESx & HdS & HES & HvS & HS51 & HS0).
  destruct (diff_shape m k Hk Hm) as (MD & ED & EDx & HdD & HED & HvD & HD0 & HDn).
  replace (k - 52) with (k - 53 + 1) in HvS, HS0 by lia.
  pose proof (rne_next (Z.pos m) (k - 53) ltac:(lia)) as Hnext.
  set (r0 := rne (Z.pos m) (k - 53)) in *.
  set (r1 := rne (Z.pos m) (k - 53 + 1)) in *.
  assert (HhS : SFdiv prec emax (S754_finite false MS ES) sf_two
                = S754_finite false MS (ES - 1)) by (apply SFdiv_two; lia).
  assert (HhD : SFdiv prec emax (S754_finite false MD ED) sf_two
                = S754_finite false MD (ED - 1)) by (apply SFdiv_two; lia).
  assert (V1 : Z.pos MD * 2 ^ (ED - 1 + 200) = (2 ^ 53 - r0) * 2 ^ 146).
  { replace (ED + 200) with (ED - 1 + 200 + 1) in HvD by lia.
    rewrite Z.pow_add_r in HvD by lia.
    change (2 ^ 1) with 2 in HvD. change (2 ^ 147) with (2 ^ 146 * 2) in HvD.
    hide_pow (ED - 1 + 200). lia. }
  assert (V2 : Z.pos MS * 2 ^ (ES - 1 + 200) = (2 ^ 52 + r1) * 2 ^ 147).
  { replace (ES + 200) with (ES - 1 + 200 + 1) in HvS by lia.
    rewrite Z.pow_add_r in HvS by lia.
    change (2 ^ 1) with 2 in HvS. change (2 ^ 148) with (2 ^ 147 * 2) in HvS.
    hide_pow (ES - 1 + 200). lia. }
  destruct s; cbn [cond_Zopp].
  - replace (2 ^ k - - Z.pos m) with (2 ^ k + Z.pos m) by lia.
    replace (2 ^ k + - Z.pos m) with (2 ^ k - Z.pos m) by lia.
    rewrite ESx, EDx, HhS, HhD.
    exists MS, (ES - 1), MD, (ED - 1), (2 * r1 - r0).
    repeat split; try reflexivity; try assumption; try lia.
  - rewrite ESx, EDx, HhS, HhD.
    exists MD, (ED - 1), MS, (ES - 1), (2 * r1 - r0).
    repeat split; try reflexivity; try assumption; try lia.
Qed.

(** The gains of every level between -1 and 1: one of them is 0 and the
    other 1, or both are as above. *)
Lemma gains_cases x :
  valid_binary x = true -> SFleb sf_mone x = true -> SFleb x sf_one = true ->
  let ng := SFdiv prec emax (SFsub prec emax sf_one x) sf_two in
  let lg := SFdiv prec emax (SFadd prec emax sf_one x) sf_two in
  (ng = S754_zero false /\ lg = sf_one)
  \/ (ng = sf_one /\ lg = S754_zero false)
  \/ exists M1 E1 M2 E2 delta,
       ng = S754_finite false M1 E1 /\ lg = S754_finite false M2 E2
       /\ Z.pos (digits2_pos M1) = 53 /\ Z.pos (digits2_pos M2) = 53
       /\ -161 <= E1 <= -52 /\ -161 <= E2 <= -52
       /\ -1 <= delta <= 1
       /\ Z.pos M1 * 2 ^ (E1 + 200) + Z.pos M2 * 2 ^ (E2 + 200)
          = (2 ^ 54 + delta) * 2 ^ 146.
Proof.
  intros Hv Hlo Hhi. cbv zeta.
  destruct (level_cases x Hv Hlo Hhi)
    as [ [s ->] | [ -> | [ -> | (s & m & e & -> & He & Hm) ] ] ].
  - right. right.
    exists 4503599627370496%positive, (-53), 4503599627370496%positive, (-53), 0.
    destruct s; vm_compute; repeat split; discriminate.
  - left. vm_compute. split; reflexivity.
  - right. left. vm_compute. split; reflexivity.
  - right. right. apply gains_values; assumption.
Qed.

(** A [char] as a [double]: a zero, or a normal number of the sign of the
    [char] whose mantissa is its magnitude, shifted. *)
Lemma double_of_char_shape c :
  is_char c -> c <> 0 ->
  exists mb eb,
    Prim2SF (double_of_char c) = S754_finite (c <? 0) mb eb
    /\ Z.pos (digits2_pos mb) = 53
    /\ -52 <= eb <= -45
    /\ Z.pos mb = Z.abs c * 2 ^ (- eb).
Proof.
  intros Hc Hnz.
  assert (Hall :
            forallb
              (fun c =>
                 (c =? 0)
                 || match Prim2SF (double_of_char c) with
                    | S754_finite s mb eb =>
                        Bool.eqb s (c <? 0)
                        && (Z.pos (digits2_pos mb) =? 53)
                        && (-52 <=? eb) && (eb <=? -45)
                        && (Z.pos mb =? Z.abs c * 2 ^ (- eb))
                    | _ => false
                    end)
              (map (fun n => Z.of_nat n - 128) (seq 0 256)) = true)
    by (vm_compute; reflexivity).
  rewrite forallb_forall in Hall.
  specialize (Hall c).
  assert (Hin : In c (map (fun n => Z.of_nat n - 128) (seq 0 256))).
  { apply in_map_iff. exists (Z.to_nat (c + 128)). unfold is_char in Hc.
    split; [ lia | apply in_seq; lia ]. }
  specialize (Hall Hin).
  destruct (Z.eqb_spec c 0) as [ Hz | _ ]; [ contradiction | ].
  cbn [orb] in Hall.
  destruct (Prim2SF (double_of_char c)) as [ | | | s mb eb ]; try discriminate.
  rewrite !andb_true_iff in Hall.
  destruct Hall as ((((Hs & Hd) & Hlo) & Hhi) & Hm).
  apply Bool.eqb_prop in Hs. apply Z.eqb_eq in Hd, Hm. apply Z.leb_le in Hlo, Hhi.
  exists mb, eb. subst s. repeat split; assumption.
Qed.

Lemma double_of_char_zero : Prim2SF (double_of_char 0) = S754_zero false.
Proof. vm_compute. reflexivity. Qed.

(** The integer part of a number below [2 ^ 53] in magnitude, in units of
    [2 ^ -200]. *)
Lemma trunc_units s M E :
  -200 <= E < 0 ->
  exists t,
    cond_Zopp s (Z.shiftl (Z.pos M) E) = cond_Zopp s t
    /\ 0 <= t /\ t * 2 ^ 200 <= Z.pos M * 2 ^ (E + 200).
Proof.
  intros HE. exists (Z.pos M / 2 ^ (- E)).
  split.
  { rewrite <- (Z.opp_involutive E) at 1.
    rewrite Z.shiftl_opp_r, Z.shiftr_div_pow2 by lia. reflexivity. }
  pose proof (pow2_pos (- E) ltac:(lia)) as Hp.
  pose proof (pow2_pos (E + 200) ltac:(lia)) as Hq.
  assert (E200 : 2 ^ 200 = 2 ^ (- E) * 2 ^ (E + 200)).
  { rewrite <- Z.pow_add_r by lia. f_equal. lia. }
  split; [ apply Z.div_pos; lia | ].
  rewrite E200.
  pose proof (Z.mul_div_le (Z.pos M) (2 ^ (- E)) Hp) as Hle.
  rewrite Z.mul_assoc. apply Z.mul_le_mono_nonneg_r; lia.
Qed.

Lemma digits_53 M : Z.pos (digits2_pos M) = 53 -> 2 ^ 52 <= Z.pos M < 2 ^ 53.
Proof.
  intros H. pose proof (digits_bounds M) as Hb. rewrite H in Hb. exact Hb.
Qed.

(** The product of a gain and a [char]: a normal number of the sign of the
    [char], at most half a unit in the last place, less than [2 ^ -44],
    above the exact product. [G] is the gain and [R] the product in units
    of [2 ^ -200]. *)
Lemma mul_gain_byte M E sb mb eb B :
  Z.pos (digits2_pos M) = 53 -> -161 <= E <= -52 ->
  Z.pos (digits2_pos mb) = 53 -> -52 <= eb <= -45 ->
  Z.pos mb = B * 2 ^ (- eb) ->
  exists Mr Er,
    SFmul prec emax (S754_finite false M E) (S754_finite sb mb eb) = S754_finite sb Mr Er
    /\ -200 <= Er < 0
    /\ 2 * (Z.pos Mr * 2 ^ (Er + 200)) <= 2 * (Z.pos M * 2 ^ (E + 200)) * B + 2 ^ 157.
Proof.
  intros HdM HE Hdb Heb Hmb.
  pose proof (digits_53 M HdM) as HM. pose proof (digits_53 mb Hdb) as Hb.
  unfold SFmul. cbn [xorb].
  pose proof (digits_bounds (M * mb)) as HP.
  set (d := Z.pos (digits2_pos (M * mb))) in *.
  assert (EP : Z.pos (M * mb) = Z.pos M * Z.pos mb) by apply Pos2Z.inj_mul.
  assert (HPlo : 2 ^ 104 <= Z.pos (M * mb)).
  { rewrite EP. change (2 ^ 104) with (2 ^ 52 * 2 ^ 52). nia. }
  assert (HPhi : Z.pos (M * mb) < 2 ^ 106).
  { rewrite EP. change (2 ^ 106) with (2 ^ 53 * 2 ^ 53). nia. }
  assert (Hd : 105 <= d <= 106).
  { assert (0 < d) by (unfold d; lia). split.
    - destruct (Z.le_gt_cases 105 d) as [ H1 | H1 ]; [ exact H1 | ].
      assert (2 ^ d <= 2 ^ 104) by (apply Z.pow_le_mono_r; lia). lia.
    - destruct (Z.le_gt_cases d 106) as [ H1 | H1 ]; [ exact H1 | ].
      assert (2 ^ 106 <= 2 ^ (d - 1)) by (apply Z.pow_le_mono_r; lia). lia. }
  rewrite (binary_round_aux_round sb (M * mb) (E + eb) d HP) by lia.
  set (n := d - 53). assert (Hn : 52 <= n <= 53) by (unfold n; lia).
  pose proof (rne_spec (Z.pos (M * mb)) n ltac:(lia)) as [Hne _].
  assert (Hyb : 2 ^ 52 <= rne (Z.pos (M * mb)) n <= 2 ^ 53).
  { apply rne_bounds; [ lia | ].
    rewrite <- !Z.pow_add_r by lia.
    replace (52 + n) with (d - 1) by (unfold n; lia).
    replace (53 + n) with d by (unfold n; lia). exact HP. }
  set (y := rne (Z.pos (M * mb)) n) in *.
  (* the units *)
  set (Er0 := E + eb + n).
  assert (HEr0 : -161 <= Er0 <= -44) by (unfold Er0; lia).
  pose proof (pow2_pos (- eb) ltac:(lia)) as HQ.
  pose proof (pow2_pos (E + 200) ltac:(lia)) as HW.
  pose proof (pow2_pos n ltac:(lia)) as HN.
  pose proof (pow2_pos (Er0 + 200) ltac:(lia)) as HU.
  assert (EUQ : 2 ^ (Er0 + 200) * 2 ^ (- eb) = 2 ^ n * 2 ^ (E + 200)).
  { rewrite <- !Z.pow_add_r by lia. f_equal. unfold Er0. lia. }
  assert (HU157 : 2 ^ (Er0 + 200) <= 2 ^ 156) by (apply Z.pow_le_mono_r; lia).
  assert (Hround : 2 * (y * 2 ^ (Er0 + 200))
                   <= 2 * (Z.pos M * 2 ^ (E + 200)) * B + 2 ^ (Er0 + 200)).
  { apply (Z.mul_le_mono_pos_r _ _ (2 ^ (- eb)) HQ).
    rewrite EP, Hmb in Hne.
    set (Q := 2 ^ (- eb)) in *. set (W := 2 ^ (E + 200)) in *.
    set (N := 2 ^ n) in *. set (U := 2 ^ (Er0 + 200)) in *.
    clearbody Q W N U y.
    replace (2 * (y * U) * Q) with (2 * y * (U * Q)) by ring.
    replace ((2 * (Z.pos M * W) * B + U) * Q)
      with (2 * (Z.pos M * (B * Q)) * W + U * Q) by ring.
    rewrite EUQ.
    replace (2 * y * (N * W)) with ((2 * y * N) * W) by ring.
    replace (2 * (Z.pos M * (B * Q)) * W + N * W)
      with ((2 * (Z.pos M * (B * Q)) + N) * W) by ring.
    apply Z.mul_le_mono_nonneg_r; lia. }
  destruct (Z.eqb_spec y (2 ^ 53)) as [ Hy | Hy ].
  - exists (Z.to_pos (2 ^ 52)), (E + eb + d - 52).
    split; [ reflexivity | ].
    replace (E + eb + d - 52) with (Er0 + 1) by (unfold Er0, n; lia).
    split; [ lia | ].
    change (Z.pos (Z.to_pos (2 ^ 52))) with (2 ^ 52).
    replace (Er0 + 1 + 200) with (Er0 + 200 + 1) by lia.
    rewrite Z.pow_add_r by lia. change (2 ^ 1) with 2.
    rewrite Hy in Hround. change (2 ^ 53) with (2 ^ 52 * 2) in Hround.
    change (2 ^ 157) with (2 ^ 156 * 2).
    set (U := 2 ^ (Er0 + 200)) in *. clearbody U. lia.
  - exists (Z.to_pos y), (E + eb + d - 53).
    split; [ reflexivity | ].
    replace (E + eb + d - 53) with Er0 by (unfold Er0, n; lia).
    split; [ lia | ].
    rewrite Z2Pos.id by lia.
    change (2 ^ 157) with (2 ^ 156 * 2).
    set (U := 2 ^ (Er0 + 200)) in *. clearbody U. lia.
Qed.

(** One term of a mixing loop for a gain that is a normal number: the
    integer part [t] of the product, with the sign of the [char], and its
    size in units of [2 ^ -200]. *)
Lemma term_of_gain g c M E :
  Prim2SF g = S754_finite false M E ->
  Z.pos (digits2_pos M) = 53 -> -161 <= E <= -52 ->
  is_char c ->
  exists t,
    trunc_double (g * double_of_char c) = (if c <? 0 then - t else t)
    /\ 0 <= t
    /\ 2 * (t * 2 ^ 200) <= 2 * (Z.pos M * 2 ^ (E + 200)) * Z.abs c + 2 ^ 157.
Proof.
  intros Hg HdM HE Hc. unfold trunc_double. rewrite mul_spec, Hg.
  destruct (Z.eq_dec c 0) as [ -> | Hnz ].
  - rewrite double_of_char_zero. cbn [SFmul xorb].
    exists 0. cbn. split; [ reflexivity | ]. split; [ lia | ].
    pose proof (pow2_pos (E + 200) ltac:(lia)). lia.
  - destruct (double_of_char_shape c Hc Hnz) as (mb & eb & Eb & Hdb & Heb & Hmb).
    rewrite Eb.
    destruct (mul_gain_byte M E (c <? 0) mb eb (Z.abs c) HdM HE Hdb Heb Hmb)
      as (Mr & Er & Emul & HEr & Hround).
    unfold SF64mul. rewrite Emul.
    destruct (trunc_units (c <? 0) Mr Er HEr) as (t & Et & Ht0 & Ht).
    exists t. rewrite Et. split; [ destruct (c <? 0); reflexivity | ].
    split; [ exact Ht0 | lia ].
Qed.

(** A gain of 0 and a gain of 1. *)
Lemma term_of_zero g c :
  Prim2SF g = S754_zero false -> is_char c -> trunc_double (g * double_of_char c) = 0.
Proof.
  intros Hg Hc. unfold trunc_double. rewrite mul_spec, Hg.
  destruct (Z.eq_dec c 0) as [ -> | Hnz ].
  - rewrite double_of_char_zero. reflexivity.
  - destruct (double_of_char_shape c Hc Hnz) as (mb & eb & Eb & _). rewrite Eb.
    reflexivity.
Qed.

Lemma term_of_one g c :
  Prim2SF g = sf_one -> is_char c -> trunc_double (g * double_of_char c) = c.
Proof.
  intros Hg Hc.
  assert (Eg : g = 1%float) by (apply Prim2SF_inj; rewrite Hg, Prim2SF_one; reflexivity).
  subst g.
  assert (Hall : forallb (fun b => trunc_double (1 * double_of_char b) =? b)
                         (map (fun n => Z.of_nat n - 128) (seq 0 256)) = true)
    by (vm_compute; reflexivity).
  rewrite forallb_forall in Hall. apply Z.eqb_eq. apply Hall.
  apply in_map_iff. exists (Z.to_nat (c + 128)). unfold is_char in Hc.
  split; [ lia | apply in_seq; lia ].
Qed.

(** The two terms for the gains of a level between -1 and 1: each has the
    sign of its [char] and at most its magnitude, and their sum is a
    [char]. *)
Lemma terms_of_level l c1 c2 :
  (-1 <=? l)%float = true -> (l <=? 1)%float = true ->
  is_char c1 -> is_char c2 ->
  exists t1 t2,
    trunc_double ((1 - l) / 2 * double_of_char c1) = (if c1 <? 0 then - t1 else t1)
    /\ trunc_double ((1 + l) / 2 * double_of_char c2) = (if c2 <? 0 then - t2 else t2)
    /\ 0 <= t1 <= Z.abs c1 /\ 0 <= t2 <= Z.abs c2
    /\ (0 <= c1 -> 0 <= c2 -> t1 + t2 <= 127)
    /\ t1 + t2 <= 128.
Proof.
  intros Hlo Hhi Hc1 Hc2.
  rewrite leb_spec, Prim2SF_mone in Hlo. rewrite leb_spec, Prim2SF_one in Hhi.
  assert (En : Prim2SF ((1 - l) / 2)
               = SFdiv prec emax (SFsub prec emax sf_one (Prim2SF l)) sf_two).
  { rewrite div_spec, sub_spec, Prim2SF_one, Prim2SF_two. reflexivity. }
  assert (El : Prim2SF ((1 + l) / 2)
               = SFdiv prec emax (SFadd prec emax sf_one (Prim2SF l)) sf_two).
  { rewrite div_spec, add_spec, Prim2SF_one, Prim2SF_two. reflexivity. }
  pose proof (gains_cases (Prim2SF l) (Prim2SF_valid l) Hlo Hhi) as Hg.
  cbv zeta in Hg. rewrite <- En, <- El in Hg.
  assert (Ha1 : 0 <= Z.abs c1 <= 128) by (unfold is_char in Hc1; lia).
  assert (Ha2 : 0 <= Z.abs c2 <= 128) by (unfold is_char in Hc2; lia).
  destruct Hg as [ [Hn Hl] | [ [Hn Hl] | Hg ] ].
  - exists 0, (Z.abs c2).
    rewrite (term_of_zero _ c1 Hn Hc1), (term_of_one _ c2 Hl Hc2).
    split; [ destruct (c1 <? 0); reflexivity | ].
    split; [ destruct (Z.ltb_spec c2 0); lia | ].
    unfold is_char in Hc2. repeat split; lia.
  - exists (Z.abs c1), 0.
    rewrite (term_of_one _ c1 Hn Hc1), (term_of_zero _ c2 Hl Hc2).
    split; [ destruct (Z.ltb_spec c1 0); lia | ].
    split; [ destruct (c2 <? 0); reflexivity | ].
    unfold is_char in Hc1. repeat split; lia.
  - destruct Hg as (M1 & E1 & M2 & E2 & delta & Hn & Hl & Hd1 & Hd2 & HE1 & HE2 & Hdel & Hsum).
    destruct (term_of_gain _ c1 M1 E1 Hn Hd1 HE1 Hc1) as (t1 & Et1 & Ht1 & Hb1).
    destruct (term_of_gain _ c2 M2 E2 Hl Hd2 HE2 Hc2) as (t2 & Et2 & Ht2 & Hb2).
    exists t1, t2. split; [ exact Et1 | ]. split; [ exact Et2 | ].
    pose proof (pow2_pos (E1 + 200) ltac:(lia)) as HP1.
    pose proof (pow2_pos (E2 + 200) ltac:(lia)) as HP2.
    set (G1 := Z.pos M1 * 2 ^ (E1 + 200)) in *.
    set (G2 := Z.pos M2 * 2 ^ (E2 + 200)) in *.
    assert (HG1 : 0 < G1) by (unfold G1; lia).
    assert (HG2 : 0 < G2) by (unfold G2; lia).
    clearbody G1 G2.
    change (2 ^ 54) with 18014398509481984 in Hsum.
    change (2 ^ 146) with 89202980794122492566142873090593446023921664 in Hsum.
    change (2 ^ 157)
      with 182687704666362864775460604089535377456991567872 in Hb1, Hb2.
    change (2 ^ 200)
      with 1606938044258990275541962092341162602522202993782792835301376 in Hb1, Hb2.
    assert (P1 : G1 * Z.abs c1 <= G1 * 128) by (apply Z.mul_le_mono_nonneg_l; lia).
    assert (P2 : G2 * Z.abs c2 <= G2 * 128) by (apply Z.mul_le_mono_nonneg_l; lia).
    assert (HB1 : G1 <= 1606938044258990364744942886463655168665076084376238859223040)
      by lia.
    assert (HB2 : G2 <= 1606938044258990364744942886463655168665076084376238859223040)
      by lia.
    assert (R1 : G1 * Z.abs c1
                 <= 1606938044258990364744942886463655168665076084376238859223040
                    * Z.abs c1) by (apply Z.mul_le_mono_nonneg_r; lia).
    assert (R2 : G2 * Z.abs c2
                 <= 1606938044258990364744942886463655168665076084376238859223040
                    * Z.abs c2) by (apply Z.mul_le_mono_nonneg_r; lia).
    split; [ lia | ]. split; [ lia | ]. split; [ | lia ].
    intros H1 H2.
    assert (Q1 : G1 * Z.abs c1 <= G1 * 127).
    { apply Z.mul_le_mono_nonneg_l; [ lia | ]. unfold is_char in Hc1. lia. }
    assert (Q2 : G2 * Z.abs c2 <= G2 * 127).
    { apply Z.mul_le_mono_nonneg_l; [ lia | ]. unfold is_char in Hc2. lia. }
    lia.
Qed.

Lemma setMixingLevel_levels level p :
  Player.networkLevel (Player.setMixingLevel level p) = ((1 - clamped level) / 2)%float
  /\ Player.playerLevel (Player.setMixingLevel level p) = ((1 + clamped level) / 2)%float.
Proof. split; reflexivity. Qed.

(** The two terms for the gains [setMixingLevel] computes. *)
Lemma mix_terms_of_level level p b1 b2 :
  PrimFloat.is_nan level = false -> is_char b1 -> is_char b2 ->
  (Z.abs (mix_term (Player.networkLevel (Player.setMixingLevel level p)) b1) <= Z.abs b1
   /\ 0 <= mix_term (Player.networkLevel (Player.setMixingLevel level p)) b1 * b1
   /\ is_char (mix_term (Player.networkLevel (Player.setMixingLevel level p)) b1))
  /\ (Z.abs (mix_term (Player.playerLevel (Player.setMixingLevel level p)) b2) <= Z.abs b2
      /\ 0 <= mix_term (Player.playerLevel (Player.setMixingLevel level p)) b2 * b2
      /\ is_char (mix_term (Player.playerLevel (Player.setMixingLevel level p)) b2))
  /\ is_char (mix_term (Player.networkLevel (Player.setMixingLevel level p)) b1
              + mix_term (Player.playerLevel (Player.setMixingLevel level p)) b2).
Proof.
  intros Hn Hb1 Hb2.
  destruct (setMixingLevel_levels level p) as [-> ->].
  destruct (clamped_range level Hn) as [Hlo Hhi].
  destruct (terms_of_level (clamped level) b1 b2 Hlo Hhi Hb1 Hb2)
    as (t1 & t2 & E1 & E2 & H1 & H2 & Hpos & Hall).
  unfold mix_term. rewrite E1, E2. unfold is_char in *.
  destruct (Z.ltb_spec b1 0) as [N1 | P1], (Z.ltb_spec b2 0) as [N2 | P2];
    repeat split; try lia; try nia.
Qed.

(** X17. The mixing never leaves the range of [char]. With the gains
    [setMixingLevel] computes for a level that is not a NaN, each product
    [level * (double) b] of a mixing loop has the sign of the byte [b] and an
    integer part of at most its magnitude, so that its conversion to [char]
    changes nothing; and the sum of the two terms of a position is itself
    within [-128, 127]. Where both reads returned a byte [i], the two bytes
    the sink receives at [2 i] and [2 i + 1] are that sum: neither the
    conversions nor the addition wrap. *)
Theorem mixing_never_wraps env k p level i :
  player_ok p -> PrimFloat.is_nan level = false ->
  Z.of_nat i < network_read_bytes env k p -> Z.of_nat i < player_read_bytes p ->
  (Z.abs (mix_term (Player.networkLevel (Player.setMixingLevel level p))
                   (nth i (network_delivery env k p) 0))
   <= Z.abs (nth i (network_delivery env k p) 0)
   /\ 0 <= mix_term (Player.networkLevel (Player.setMixingLevel level p))
                    (nth i (network_delivery env k p) 0)
           * nth i (network_delivery env k p) 0)
  /\ (Z.abs (mix_term (Player.playerLevel (Player.setMixingLevel level p))
                      (nth i (player_delivery p) 0))
      <= Z.abs (nth i (player_delivery p) 0)
      /\ 0 <= mix_term (Player.playerLevel (Player.setMixingLevel level p))
                       (nth i (player_delivery p) 0)
              * nth i (player_delivery p) 0)
  /\ is_char (mix_term (Player.networkLevel (Player.setMixingLevel level p))
                       (nth i (network_delivery env k p) 0)
              + mix_term (Player.playerLevel (Player.setMixingLevel level p))
                         (nth i (player_delivery p) 0))
  /\ nth (2 * i) (sink_bytes (snd (fst (Player.cycle env k (Player.setMixingLevel level p))))) 0
     = mix_term (Player.networkLevel (Player.setMixingLevel level p))
                (nth i (network_delivery env k p) 0)
       + mix_term (Player.playerLevel (Player.setMixingLevel level p))
                  (nth i (player_delivery p) 0)
  /\ nth (2 * i + 1)
         (sink_bytes (snd (fst (Player.cycle env k (Player.setMixingLevel level p))))) 0
     = mix_term (Player.networkLevel (Player.setMixingLevel level p))
                (nth i (network_delivery env k p) 0)
       + mix_term (Player.playerLevel (Player.setMixingLevel level p))
                  (nth i (player_delivery p) 0).
Proof.
  intros Hok Hnan Hin Hip.
  destruct (read_bytes_spec env k p Hok) as [Rn Rp]. rewrite Rn in Hin. rewrite Rp in Hip.
  destruct (net_buf_delivery env k p i Hok Hin) as [En Cn].
  destruct (file_buf_delivery p i Hok Hip) as [Ef Cf].
  rewrite <- En, <- Ef.
  destruct (mix_terms_of_level level p _ _ Hnan Cn Cf)
    as ((A1 & S1 & C1) & (A2 & S2 & C2) & Csum).
  split; [ split; assumption | ]. split; [ split; assumption | ].
  split; [ exact Csum | ].
  set (q := Player.setMixingLevel level p) in *.
  assert (Hq : player_ok q) by exact Hok.
  rewrite (cycle_sink env k q Hq).
  destruct (cycle_mix_nth env k q i Hq Hin) as [A B]. cbv zeta in A, B.
  change (file_take q) with (file_take p) in A, B.
  change (net_buf q) with (net_buf p) in A, B.
  change (file_buf q) with (file_buf p) in A, B.
  destruct (Z.ltb_spec (Z.of_nat i) (2 * file_take p)) as [ _ | Hge ]; [ | lia ].
  rewrite A, B. unfold scaled, char_of_double.
  fold (mix_term (Player.networkLevel q) (nth i (net_buf p) 0)).
  fold (mix_term (Player.playerLevel q) (nth i (file_buf p) 0)).
  rewrite (to_char_small _ C1), (to_char_small _ C2), (to_char_small _ Csum).
  split; reflexivity.
Qed.

Lemma mixing_never_wraps_witness :
  (Z.abs (mix_term (Player.networkLevel (Player.setMixingLevel 0.25 player_512))
                   (nth 1 (network_delivery env_512 2 player_512) 0))
   <= Z.abs (nth 1 (network_delivery env_512 2 player_512) 0)
   /\ 0 <= mix_term (Player.networkLevel (Player.setMixingLevel 0.25 player_512))
                    (nth 1 (network_delivery env_512 2 player_512) 0)
           * nth 1 (network_delivery env_512 2 player_512) 0)
  /\ (Z.abs (mix_term (Player.playerLevel (Player.setMixingLevel 0.25 player_512))
                      (nth 1 (player_delivery player_512) 0))
      <= Z.abs (nth 1 (player_delivery player_512) 0)
      /\ 0 <= mix_term (Player.playerLevel (Player.setMixingLevel 0.25 player_512))
                       (nth 1 (player_delivery player_512) 0)
              * nth 1 (player_delivery player_512) 0)
  /\ is_char (mix_term (Player.networkLevel (Player.setMixingLevel 0.25 player_512))
                       (nth 1 (network_delivery env_512 2 player_512) 0)
              + mix_term (Player.playerLevel (Player.setMixingLevel 0.25 player_512))
                         (nth 1 (player_delivery player_512) 0))
  /\ nth (2 * 1)
         (sink_bytes (snd (fst (Player.cycle env_512 2
                                  (Player.setMixingLevel 0.25 player_512))))) 0
     = mix_term (Player.networkLevel (Player.setMixingLevel 0.25 player_512))
                (nth 1 (network_delivery env_512 2 player_512) 0)
       + mix_term (Player.playerLevel (Player.setMixingLevel 0.25 player_512))
                  (nth 1 (player_delivery player_512) 0)
  /\ nth (2 * 1 + 1)
         (sink_bytes (snd (fst (Player.cycle env_512 2
                                  (Player.setMixingLevel 0.25 player_512))))) 0
     = mix_term (Player.networkLevel (Player.setMixingLevel 0.25 player_512))
                (nth 1 (network_delivery env_512 2 player_512) 0)
       + mix_term (Player.playerLevel (Player.setMixingLevel 0.25 player_512))
                  (nth 1 (player_delivery player_512) 0).
Proof.
  apply (mixing_never_wraps env_512 2 player_512 0.25%float 1 player_512_ok);
    vm_compute; reflexivity.
Defined.

(** ** The frames of a pass, from the samples read *)

Lemma bytes_of_samples_nth l i :
  (i < length l)%nat ->
  nth (2 * i) (bytes_of_samples l) 0 = to_char (nth i l 0)
  /\ nth (2 * i + 1) (bytes_of_samples l) 0 = to_char (nth i l 0 / 256).
Proof.
  revert i. induction l as [ | s l IH ]; intros i Hi; [ cbn [length] in Hi; lia | ].
  destruct i as [ | i ].
  - split; reflexivity.
  - replace (2 * S i)%nat with (S (S (2 * i))) by lia.
    cbn [length] in Hi. destruct (IH i ltac:(lia)) as [A B].
    cbn [bytes_of_samples flat_map bytes_of_sample app nth Nat.add].
    fold (bytes_of_samples l). split; assumption.
Qed.

Lemma chunk_nth saw idx n i :
  0 <= idx -> Z.of_nat i < n -> nth i (chunk saw idx n) 0 = nth (Z.to_nat idx + i) saw 0.
Proof.
  intros Hidx Hi. unfold chunk. rewrite nth_firstn.
  destruct (Nat.ltb_spec i (Z.to_nat n)); [ | lia ].
  apply nth_skipn.
Qed.

(** The two bytes of the [i]-th sample a read took, as the loops find them
    in its buffer. *)
Lemma net_buf_sample p i :
  player_ok p -> Z.of_nat i < net_take p ->
  nth (2 * i) (net_buf p) 0
  = to_char (nth (Z.to_nat (NetworkReader.m_sawIndex (Player.nr p)) + i)
                 (NetworkReader.m_saw (Player.nr p)) 0)
  /\ nth (2 * i + 1) (net_buf p) 0
     = to_char (nth (Z.to_nat (NetworkReader.m_sawIndex (Player.nr p)) + i)
                    (NetworkReader.m_saw (Player.nr p)) 0 / 256).
Proof.
  intros Hok Hi. destruct (takes_bounds p Hok) as [Hn _].
  pose proof (net_buf_firstn p Hok) as E.
  assert (Hidx : 0 <= NetworkReader.m_sawIndex (Player.nr p))
    by (destruct Hok as (_ & [[? ?] ?] & _); lia).
  assert (Hl : length (chunk (NetworkReader.m_saw (Player.nr p))
                             (NetworkReader.m_sawIndex (Player.nr p)) (net_take p))
               = Z.to_nat (net_take p)) by (apply chunk_length; lia).
  destruct (bytes_of_samples_nth
              (chunk (NetworkReader.m_saw (Player.nr p))
                     (NetworkReader.m_sawIndex (Player.nr p)) (net_take p)) i)
    as [A B]; [ lia | ].
  rewrite <- E, nth_firstn in A, B.
  destruct (Nat.ltb_spec (2 * i) (Z.to_nat (2 * net_take p))); [ | lia ].
  destruct (Nat.ltb_spec (2 * i + 1) (Z.to_nat (2 * net_take p))); [ | lia ].
  rewrite chunk_nth in A, B by lia. split; assumption.
Qed.

Lemma file_buf_sample p i :
  player_ok p -> Z.of_nat i < file_take p ->
  nth (2 * i) (file_buf p) 0
  = to_char (nth (Z.to_nat (Player.m_sawIndex p) + i) (Player.m_saw p) 0)
  /\ nth (2 * i + 1) (file_buf p) 0
     = to_char (nth (Z.to_nat (Player.m_sawIndex p) + i) (Player.m_saw p) 0 / 256).
Proof.
  intros Hok Hi. destruct (takes_bounds p Hok) as [_ Hf].
  pose proof (file_buf_firstn p Hok) as E.
  assert (Hidx : 0 <= Player.m_sawIndex p) by (destruct Hok as ([[? ?] ?] & _); lia).
  assert (Hl : length (chunk (Player.m_saw p) (Player.m_sawIndex p) (file_take p))
               = Z.to_nat (file_take p)) by (apply chunk_length; lia).
  destruct (bytes_of_samples_nth
              (chunk (Player.m_saw p) (Player.m_sawIndex p) (file_take p)) i)
    as [A B]; [ lia | ].
  rewrite <- E, nth_firstn in A, B.
  destruct (Nat.ltb_spec (2 * i) (Z.to_nat (2 * file_take p))); [ | lia ].
  destruct (Nat.ltb_spec (2 * i + 1) (Z.to_nat (2 * file_take p))); [ | lia ].
  rewrite chunk_nth in A, B by lia. split; assumption.
Qed.

(** X18. The frames of a pass, from the samples read. Where both reads
    returned a sample [i], with [n] the network sample and [f] the file
    sample, frame [i] of what the pass hands to the sink has, as its left
    channel, the 16-bit word whose two bytes both are the mix of the low
    bytes of [n] and [f], and as its right channel the word whose two bytes
    both are the mix of their high bytes: the low bytes of the input go to
    the left, the high bytes to the right. *)
Theorem cycle_frames env k p i :
  player_ok p ->
  Z.of_nat i < network_read_bytes env k p / 2 ->
  Z.of_nat i < player_read_bytes p / 2 ->
  frame (sink_bytes (snd (fst (Player.cycle env k p)))) i
  = (s16le
       (mixed (Player.networkLevel p) (Player.playerLevel p)
              (to_char (nth (Z.to_nat (NetworkReader.m_sawIndex (Player.nr p)) + i)
                            (NetworkReader.m_saw (Player.nr p)) 0))
              (to_char (nth (Z.to_nat (Player.m_sawIndex p) + i) (Player.m_saw p) 0)))
       (mixed (Player.networkLevel p) (Player.playerLevel p)
              (to_char (nth (Z.to_nat (NetworkReader.m_sawIndex (Player.nr p)) + i)
                            (NetworkReader.m_saw (Player.nr p)) 0))
              (to_char (nth (Z.to_nat (Player.m_sawIndex p) + i) (Player.m_saw p) 0))),
     s16le
       (mixed (Player.networkLevel p) (Player.playerLevel p)
              (to_char (nth (Z.to_nat (NetworkReader.m_sawIndex (Player.nr p)) + i)
                            (NetworkReader.m_saw (Player.nr p)) 0 / 256))
              (to_char (nth (Z.to_nat (Player.m_sawIndex p) + i) (Player.m_saw p) 0
                        / 256)))
       (mixed (Player.networkLevel p) (Player.playerLevel p)
              (to_char (nth (Z.to_nat (NetworkReader.m_sawIndex (Player.nr p)) + i)
                            (NetworkReader.m_saw (Player.nr p)) 0 / 256))
              (to_char (nth (Z.to_nat (Player.m_sawIndex p) + i) (Player.m_saw p) 0
                        / 256)))).
Proof.
  intros Hok Hin Hif.
  destruct (read_bytes_spec env k p Hok) as [Rn Rp]. rewrite Rn in Hin. rewrite Rp in Hif.
  replace (2 * net_take p / 2) with (net_take p) in Hin by div_lia.
  replace (2 * file_take p / 2) with (file_take p) in Hif by div_lia.
  rewrite (cycle_sink env k p Hok). unfold frame.
  destruct (cycle_mix_nth env k p (2 * i) Hok ltac:(lia)) as [A0 A1].
  destruct (cycle_mix_nth env k p (2 * i + 1) Hok ltac:(lia)) as [B0 B1].
  cbv zeta in A0, A1, B0, B1.
  destruct (Z.ltb_spec (Z.of_nat (2 * i)) (2 * file_take p)); [ | lia ].
  destruct (Z.ltb_spec (Z.of_nat (2 * i + 1)) (2 * file_take p)); [ | lia ].
  replace (2 * (2 * i))%nat with (4 * i)%nat in A0 by lia.
  replace (2 * (2 * i) + 1)%nat with (4 * i + 1)%nat in A1 by lia.
  replace (2 * (2 * i + 1))%nat with (4 * i + 2)%nat in B0 by lia.
  replace (2 * (2 * i + 1) + 1)%nat with (4 * i + 3)%nat in B1 by lia.
  rewrite A0, A1, B0, B1. unfold scaled, mixed.
  destruct (net_buf_sample p i Hok Hin) as [-> ->].
  destruct (file_buf_sample p i Hok Hif) as [-> ->].
  reflexivity.
Qed.

Lemma cycle_frames_witness :
  frame (sink_bytes (snd (fst (Player.cycle env_512 2 player_512)))) 0
  = (s16le
       (mixed (Player.networkLevel player_512) (Player.playerLevel player_512)
              (to_char (nth (Z.to_nat (NetworkReader.m_sawIndex (Player.nr player_512)) + 0)
                            (NetworkReader.m_saw (Player.nr player_512)) 0))
              (to_char (nth (Z.to_nat (Player.m_sawIndex player_512) + 0)
                            (Player.m_saw player_512) 0)))
       (mixed (Player.networkLevel player_512) (Player.playerLevel player_512)
              (to_char (nth (Z.to_nat (NetworkReader.m_sawIndex (Player.nr player_512)) + 0)
                            (NetworkReader.m_saw (Player.nr player_512)) 0))
              (to_char (nth (Z.to_nat (Player.m_sawIndex player_512) + 0)
                            (Player.m_saw player_512) 0))),
     s16le
       (mixed (Player.networkLevel player_512) (Player.playerLevel player_512)
              (to_char (nth (Z.to_nat (NetworkReader.m_sawIndex (Player.nr player_512)) + 0)
                            (NetworkReader.m_saw (Player.nr player_512)) 0 / 256))
              (to_char (nth (Z.to_nat (Player.m_sawIndex player_512) + 0)
                            (Player.m_saw player_512) 0 / 256)))
       (mixed (Player.networkLevel player_512) (Player.playerLevel player_512)
              (to_char (nth (Z.to_nat (NetworkReader.m_sawIndex (Player.nr player_512)) + 0)
                            (NetworkReader.m_saw (Player.nr player_512)) 0 / 256))
              (to_char (nth (Z.to_nat (Player.m_sawIndex player_512) + 0)
                            (Player.m_saw player_512) 0 / 256)))).
Proof.
  apply (cycle_frames env_512 2 player_512 0 player_512_ok); vm_compute; reflexivity.
Defined.
